(** * Copilot Review to Prompt: the content script and the extension pages

    A shallow embedding of the content script (the page guard, the
    debouncer, the identity hasher, the context locators, the comment
    classifier, the suggestion segmenter, the extraction orchestrator, the
    selection-state store, the three output builders, the panel with its
    listeners and the message listener), of the background worker and of
    the popup, followed by the properties proved about them.

    Conventions of the embedding.
    - A JavaScript string is the list of its UTF-16 code units ([jsstring]);
      [js "..."] turns an ASCII literal into such a list.
    - A JavaScript number that holds an integer is a [Z]; the model is exact
      below 2^53, where JavaScript integers are exact too.
    - The DOM is seen through the selectors the script runs: a frame, a
      comment or a comment body is a record with one field per
      [querySelector]/[querySelectorAll] call, holding what that call
      returns (text content, attribute values), in document order.
    - Built-ins of the platform whose full definition is a Unicode table
      ([String.prototype.toLowerCase]) are a field of the class [Platform].
    - The variables the closures of the content script share are the
      fields of a record ([Panel]), with what the script reads of the
      window ([localStorage], [location]); a listener is a function on that
      record, and what the user and the page do, a move of the page to
      another address included, is an event ([PanelEvent]).
    - The extension pages see the browser through the class [Browser]:
      messages to a tab, timers, the tab query, script injection and the
      clipboard, over a state that is passed along. *)

From Stdlib Require Import ZArith NArith Lia List Bool Ascii String.
From stdpp Require Import base option list gmap sets sorting.

Local Open Scope N_scope.

(* ===================================================================== *)
(** * Part I: the program                                                 *)
(* ===================================================================== *)

(** ** JavaScript strings *)

Abbreviation jsstring := (list N).

Definition js (s : string) : jsstring :=
  map N_of_ascii (list_ascii_of_string s).

(** [WhiteSpace] and [LineTerminator] code points: what [String.prototype.trim]
    strips and what [\s] matches in a regular expression. *)
Definition isWhiteSpace (c : N) : bool :=
  ((9 <=? c) && (c <=? 13)) || (c =? 32) || (c =? 160) || (c =? 5760)
  || ((8192 <=? c) && (c <=? 8202)) || (c =? 8232) || (c =? 8233)
  || (c =? 8239) || (c =? 8287) || (c =? 12288) || (c =? 65279).

(** What [.] refuses in a regular expression without the [s] flag. *)
Definition isLineTerminator (c : N) : bool :=
  (c =? 10) || (c =? 13) || (c =? 8232) || (c =? 8233).

Definition isDigit (c : N) : bool := (48 <=? c) && (c <=? 57).

(** [\w]: ASCII letters, digits and the underscore. *)
Definition isWordChar (c : N) : bool :=
  ((97 <=? c) && (c <=? 122)) || ((65 <=? c) && (c <=? 90))
  || isDigit c || (c =? 95).

(** Case folding of a regular expression with the [i] flag and without the
    [u] flag: on the ASCII letters of the patterns of this script it is the
    ASCII folding (no code unit above 127 folds onto an ASCII letter). *)
Definition foldCase (c : N) : N :=
  if (65 <=? c) && (c <=? 90) then c + 32 else c.

Fixpoint dropWhile (p : N -> bool) (s : jsstring) : jsstring :=
  match s with
  | [] => []
  | c :: r => if p c then dropWhile p r else s
  end.

Fixpoint takeWhile (p : N -> bool) (s : jsstring) : jsstring :=
  match s with
  | [] => []
  | c :: r => if p c then c :: takeWhile p r else []
  end.

Definition dropWhileEnd (p : N -> bool) (s : jsstring) : jsstring :=
  reverse (dropWhile p (reverse s)).

(** [s.trim()] *)
Definition trim (s : jsstring) : jsstring :=
  dropWhileEnd isWhiteSpace (dropWhile isWhiteSpace s).

Definition jsstring_eqb (a b : jsstring) : bool := bool_decide (a = b).

Definition isEmpty (s : jsstring) : bool :=
  match s with [] => true | _ => false end.

(** [s.startsWith(p)] *)
Fixpoint startsWith (p s : jsstring) : bool :=
  match p, s with
  | [], _ => true
  | a :: p', b :: s' => (a =? b) && startsWith p' s'
  | _ :: _, [] => false
  end.

(** [s.includes(p)] *)
Fixpoint includes (p s : jsstring) : bool :=
  startsWith p s ||
  match s with
  | [] => false
  | _ :: r => includes p r
  end.

(** [s.indexOf(String.fromCharCode(c), from)] for [from] within the string;
    [None] stands for [-1]. *)
Fixpoint indexOfFrom (c : N) (from : nat) (pos : nat) (s : jsstring) : option nat :=
  match s with
  | [] => None
  | d :: r =>
      if (from <=? pos)%nat && (d =? c) then Some pos
      else indexOfFrom c from (S pos) r
  end.

(** [xs.join(sep)] *)
Fixpoint join (sep : jsstring) (xs : list jsstring) : jsstring :=
  match xs with
  | [] => []
  | [x] => x
  | x :: r => x ++ sep ++ join sep r
  end.

Definition newline : jsstring := [10].
Definition ellipsis : jsstring := [8230].

(** [s.split("\n")] *)
Fixpoint splitLinesAux (cur : jsstring) (s : jsstring) : list jsstring :=
  match s with
  | [] => [reverse cur]
  | c :: r => if c =? 10 then reverse cur :: splitLinesAux [] r
              else splitLinesAux (c :: cur) r
  end.

Definition splitLines (s : jsstring) : list jsstring := splitLinesAux [] s.

(** [s.replace(/lit/g, "")] for a non-empty literal pattern [lit]: the
    occurrences are found from the left and do not overlap; [skip] counts
    the code units of the current occurrence that are still to be dropped. *)
Fixpoint removeAllAux (lit : jsstring) (skip : nat) (s : jsstring) : jsstring :=
  match s with
  | [] => []
  | c :: r =>
      match skip with
      | S k => removeAllAux lit k r
      | O => if startsWith lit s
             then removeAllAux lit (length lit - 1) r
             else c :: removeAllAux lit 0 r
      end
  end.

Definition removeAll (lit s : jsstring) : jsstring := removeAllAux lit 0 s.

(** ** Numbers and their digits *)

(** The digit [d] (below 36) as a code unit: [0-9] then [a-z]. *)
Definition digitChar (d : N) : N := if d <? 10 then 48 + d else 87 + d.

(** Digits of [n] in base [base], least significant first. *)
Fixpoint digitsRev (base : N) (fuel : nat) (n : N) : list N :=
  match fuel with
  | O => []
  | S f => if n <? base then [n]
           else (n mod base) :: digitsRev base f (n / base)
  end.

(** [n.toString(base)] for a non-negative integer [n]. *)
Definition toRadix (base : N) (n : N) : jsstring :=
  map digitChar (reverse (digitsRev base (S (N.to_nat (N.log2 n))) n)).

(** [String(z)] for an integer [z] (below 10^21 in absolute value, where
    JavaScript prints all the digits). *)
Definition numberToString (z : Z) : jsstring :=
  match z with
  | Zneg p => 45 :: toRadix 10 (Npos p)
  | _ => toRadix 10 (Z.to_N z)
  end.

(** [parseInt(s, 10)]: leading white space is skipped, one sign is read,
    then the longest run of decimal digits; [None] stands for [NaN]. *)
Fixpoint readDigits (acc : Z) (s : jsstring) : Z :=
  match s with
  | [] => acc
  | c :: r => if isDigit c then readDigits (10 * acc + (Z.of_N c - 48))%Z r
              else acc
  end.

Definition parseUnsigned (s : jsstring) : option Z :=
  match s with
  | c :: _ => if isDigit c then Some (readDigits 0 s) else None
  | [] => None
  end.

Definition parseInt (s : jsstring) : option Z :=
  match dropWhile isWhiteSpace s with
  | c :: r =>
      if c =? 45 then option_map Z.opp (parseUnsigned r)
      else if c =? 43 then parseUnsigned r
      else parseUnsigned (c :: r)
  | [] => None
  end.

(** ** Utilities of the script *)

(** 32-bit conversions of the bitwise operators. *)
Definition toUint32 (z : Z) : Z := (z mod 2 ^ 32)%Z.

Definition toInt32 (z : Z) : Z :=
  let m := toUint32 z in if (m <? 2 ^ 31)%Z then m else (m - 2 ^ 32)%Z.

(** [a << k] *)
Definition shl32 (a : Z) (k : Z) : Z := toInt32 (Z.shiftl (toInt32 a) k).

(** One turn of the loop of [hashString]: [h ^= c] then
    [h += (h << 1) + (h << 4) + (h << 7) + (h << 8) + (h << 24)]. The
    operators [^] and [<<] work on 32-bit integers; the sum is a sum of
    numbers, far below 2^53, and is cut to 32 bits by the next [^=] or by
    the final [>>> 0]. *)
Definition hashStep (h : Z) (c : N) : Z :=
  let h1 := Z.lxor (toInt32 h) (toInt32 (Z.of_N c)) in
  (h1 + (shl32 h1 1 + shl32 h1 4 + shl32 h1 7 + shl32 h1 8 + shl32 h1 24))%Z.

(** The loop, from [h = 0x811c9dc5]. *)
Definition hashLoop (str : jsstring) : Z := fold_left hashStep str 2166136261%Z.

(** [(h >>> 0).toString(36)] after the loop. *)
Definition hashString (str : jsstring) : jsstring :=
  toRadix 36 (Z.to_N (toUint32 (hashLoop str))).

(** [(el?.textContent || "").trim()] where [el] is the text content of the
    element, or [None] when the selector found no element. *)
Definition safeText (el : option jsstring) : jsstring :=
  trim (default [] el).

(** [String.prototype.toLowerCase] follows the Unicode case tables; the
    script is modelled over any such function. *)
Class Platform := { toLowerCase : jsstring -> jsstring }.

(** The ASCII part of [toLowerCase], which is all of it on ASCII strings. *)
Definition asciiPlatform : Platform := {| toLowerCase := map foldCase |}.

(** ** The DOM as the selectors see it *)

(** One [details] element of a comment body. *)
Record DetailsView := {
  det_summary : option jsstring; (* text of [det.querySelector("summary")] *)
  det_code : option jsstring     (* text of [det.querySelector("pre, code")] *)
}.

(** One [tr] of a suggested-changes table. *)
Record RowView := {
  tr_hasDeletion : bool;         (* a deletion marker cell is in the row *)
  tr_hasAddition : bool;         (* an addition marker cell is in the row *)
  tr_cell : option jsstring      (* text of the code cell, or of the last cell *)
}.

(** The element [.js-comment-body, .comment-body] of a comment. The fields
    are what the selectors of the segmenter return on it; nothing ties them
    to one another here, so a statement over every [BodyView] covers every
    document. *)
Record BodyView := {
  body_text : jsstring;                 (* [body.textContent] *)
  body_listItems : list jsstring;       (* texts of ["ul li, ol li"] *)
  body_details : list DetailsView;      (* the [details] elements *)
  body_tables : list (list RowView);    (* rows of each suggested-changes table *)
  body_pres : list jsstring;            (* texts of the [pre] elements *)
  body_code : option jsstring           (* text of the first [code] element *)
}.

(** One comment root. *)
Record CommentView := {
  c_body : option BodyView;
  c_prose : option jsstring;
    (* text of the clone of [task-lists], or else of the body, once its
       [pre, code, table, details, button, ...] descendants are removed;
       [None] when neither element exists *)
  c_author : option (jsstring * option jsstring);
    (* text and [href] attribute of ["a.author"] *)
  c_botBadge : option jsstring;   (* text of the bot badge *)
  c_timestampLink : option jsstring;
    (* [href] of the anchor closest to the time element *)
  c_headerLink : option jsstring  (* [href] of ['a.Link--secondary[href*="#"]'] *)
}.

(** The [table] the code-mentioned locator looks for. *)
Record CodeTableView := {
  ct_rows : list (option jsstring);  (* [innerText] of [.blob-code-inner] per row *)
  ct_text : jsstring                 (* [table.textContent] *)
}.

(** One [turbo-frame] review thread. *)
Record FrameView := {
  f_id : jsstring;                       (* [frame.id] *)
  f_outerHTML : jsstring;
  f_specificFileLink : option jsstring;  (* ["details-collapsible summary a"] *)
  f_dataPath : option jsstring;          (* [data-path] of the first ["[data-path]"] *)
  f_fileLink : option jsstring;          (* ["a.js-file-link, a.Link--primary, ..."] *)
  f_anyPathy : option jsstring;          (* ['[title*="/"], [aria-label*="/"]'] *)
  f_specificLineDiv : option jsstring;
    (* text of ["details-collapsible details > div > div:first-child"] *)
  f_dataLineNumbers : list jsstring;     (* [data-line-number] attributes *)
  f_blobNums : list jsstring;            (* texts of [".blob-num"] *)
  f_lineAnchors : list jsstring;         (* [href] of ['a[href*="#L"], a[href*="#R"]'] *)
  f_codeTable : option CodeTableView;
  f_comments : list CommentView          (* [findCommentRootsInTurboFrame(frame)] *)
}.

(** The document: its review-thread frames and [location.href]. *)
Record Page := {
  page_href : jsstring;
  page_frames : list FrameView
}.

(** ** Context locators *)

(** [/\.\w+$/.test(s)] *)
Fixpoint endsWithExtension (s : jsstring) : bool :=
  match s with
  | [] => false
  | c :: r =>
      ((c =? 46) && negb (isEmpty r) && forallb isWordChar r)
      || endsWithExtension r
  end.

Definition findFilePathInFrame (frame : FrameView) : option jsstring :=
  match f_specificFileLink frame with
  | Some t => Some (safeText (Some t))
  | None =>
      match f_dataPath frame with
      | Some (c :: a) => Some (trim (c :: a))
      | _ =>
          let candidate := safeText (f_fileLink frame) in
          if negb (isEmpty candidate)
             && (includes (js "/") candidate || endsWithExtension candidate)
          then Some candidate
          else
            let pathy := safeText (f_anyPathy frame) in
            if negb (isEmpty pathy) && includes (js "/") pathy
            then Some pathy else None
      end
  end.

(** [startsWith] under the [i] flag, for a lower-case ASCII pattern. *)
Fixpoint startsWithCI (p s : jsstring) : bool :=
  match p, s with
  | [], _ => true
  | a :: p', b :: s' => (a =? foldCase b) && startsWithCI p' s'
  | _ :: _, [] => false
  end.

(** One attempt of [/Lines?\s+(\d+)(?:-(\d+))?/i] at the head of [s]:
    the groups 1 and 2 of the match. Every quantifier is followed by a
    code unit it cannot match itself ([s] by white space, white space by a
    digit, a digit by [-]), so the greedy choice is the only one that can
    succeed and nothing is gained by backtracking. *)
Definition matchLinesAt (s : jsstring) : option (jsstring * option jsstring) :=
  if startsWithCI (js "line") s then
    let r := drop 4 s in
    let r := match r with
             | c :: r' => if foldCase c =? 115 then r' else r
             | [] => r
             end in
    match r with
    | c :: _ =>
        if isWhiteSpace c then
          let r2 := dropWhile isWhiteSpace r in
          let d1 := takeWhile isDigit r2 in
          if isEmpty d1 then None
          else
            match dropWhile isDigit r2 with
            | c3 :: r4 =>
                let d2 := takeWhile isDigit r4 in
                if (c3 =? 45) && negb (isEmpty d2)
                then Some (d1, Some d2) else Some (d1, None)
            | [] => Some (d1, None)
            end
        else None
    | [] => None
    end
  else None.

(** [text.match(/Lines?\s+(\d+)(?:-(\d+))?/i)]: the leftmost match. *)
Fixpoint matchLines (s : jsstring) : option (jsstring * option jsstring) :=
  match matchLinesAt s with
  | Some m => Some m
  | None => match s with
            | [] => None
            | _ :: r => matchLines r
            end
  end.

(** [href.match(/#(?:L|R)(\d+)/)]: group 1 of the leftmost match. *)
Fixpoint matchLineAnchor (s : jsstring) : option jsstring :=
  match s with
  | [] => None
  | c :: r =>
      match r with
      | k :: r' =>
          if (c =? 35) && ((k =? 76) || (k =? 82))
             && negb (isEmpty (takeWhile isDigit r'))
          then Some (takeWhile isDigit r')
          else matchLineAnchor r
      | [] => None
      end
  end.

(** [nums.add(n)] unless [n] is [NaN]. *)
Definition addNumber (nums : gset Z) (n : option Z) : gset Z :=
  match n with
  | Some z => {[ z ]} ∪ nums
  | None => nums
  end.

(** [arr.sort((a, b) => a - b)] *)
Fixpoint insertSorted (x : Z) (l : list Z) : list Z :=
  match l with
  | [] => [x]
  | y :: r => if (x <=? y)%Z then x :: l else y :: insertSorted x r
  end.

Definition sortNumbers (l : list Z) : list Z := foldr insertSorted [] l.

Record LineRange := { lineStart : option Z; lineEnd : option Z }.

(** The numbers gathered by [findLineRangeInFrame] before it sorts them. *)
Definition lineCandidates (frame : FrameView) : gset Z :=
  let nums : gset Z := ∅ in
  let nums :=
    match f_specificLineDiv frame with
    | Some t =>
        match matchLines (safeText (Some t)) with
        | Some (m1, m2) =>
            let start := parseInt m1 in
            let end_ := match m2 with
                        | Some d => parseInt d
                        | None => start
                        end in
            addNumber (addNumber nums start) end_
        | None => nums
        end
    | None => nums
    end in
  let nums := fold_left (fun acc a => addNumber acc (parseInt a))
                        (f_dataLineNumbers frame) nums in
  let nums := fold_left (fun acc t => addNumber acc (parseInt (safeText (Some t))))
                        (f_blobNums frame) nums in
  fold_left (fun acc href =>
               match matchLineAnchor href with
               | Some d => addNumber acc (parseInt d)
               | None => acc
               end)
            (f_lineAnchors frame) nums.

Definition findLineRangeInFrame (frame : FrameView) : LineRange :=
  let nums := lineCandidates frame in
  if bool_decide (size nums = 0%nat)
  then {| lineStart := None; lineEnd := None |}
  else
    let arr := sortNumbers (elements nums) in
    {| lineStart := head arr; lineEnd := last arr |}.

Definition findCodeMentionedInFrame (frame : FrameView) : option jsstring :=
  match f_codeTable frame with
  | Some table =>
      let codeLines := omap id (ct_rows table) in
      if (0 <? length codeLines)%nat then Some (join newline codeLines)
      else Some (safeText (Some (ct_text table)))
  | None => None
  end.

(** ** Regular expressions of the classifier and of the segmenter *)

(** [/github-?copilot/.test(s)] *)
Definition testGithubCopilot (s : jsstring) : bool :=
  includes (js "githubcopilot") s || includes (js "github-copilot") s.

(** [/\bcopilot\b/.test(s)]; [prevWord] tells whether the code unit before
    the head of [s] is a word character. *)
Fixpoint testCopilotWord (prevWord : bool) (s : jsstring) : bool :=
  match s with
  | [] => false
  | c :: r =>
      (negb prevWord && startsWith (js "copilot") s
       && match drop 7 s with
          | [] => true
          | d :: _ => negb (isWordChar d)
          end)
      || testCopilotWord (isWordChar c) r
  end.

(** [/ai\s+review/.test(s)] *)
Fixpoint testAiReview (s : jsstring) : bool :=
  (startsWith (js "ai") s
   && match drop 2 s with
      | c :: r => isWhiteSpace c
                  && startsWith (js "review") (dropWhile isWhiteSpace (c :: r))
      | [] => false
      end)
  || match s with
     | [] => false
     | _ :: r => testAiReview r
     end.

(** The tail [\s+(.+)$] (with [minSpaces = 1]) or [\s*(.+)$] (with
    [minSpaces = 0]) of the two alternatives of the line pattern: the white
    space is taken greedily, and gives one code unit back when nothing would
    be left for the group; the group refuses line terminators. *)
Definition matchSpacesRest (minSpaces : nat) (r : jsstring) : option jsstring :=
  let w := takeWhile isWhiteSpace r in
  let rest := dropWhile isWhiteSpace r in
  let group :=
    if negb (isEmpty rest) then
      if (minSpaces <=? length w)%nat then Some rest else None
    else if (S minSpaces <=? length w)%nat then option_map (fun c => [c]) (last w)
    else None in
  match group with
  | Some g =>
      if negb (isEmpty g) && forallb (fun c => negb (isLineTerminator c)) g
      then Some g else None
  | None => None
  end.

(** The head [(-|\*|\d+\.)] of the first alternative: what follows it. *)
Definition matchBulletHead (line : jsstring) : option jsstring :=
  match line with
  | c :: r =>
      if (c =? 45) || (c =? 42) then Some r
      else if isDigit c then
        match dropWhile isDigit line with
        | d :: r' => if d =? 46 then Some r' else None
        | [] => None
        end
      else None
  | [] => None
  end.

Definition suggestionKeywords : list jsstring :=
  [js "suggestion"; js "fix"; js "improve"; js "change"; js "refactor";
   js "rename"; js "remove"; js "add"; js "update"].

(** The head [(suggestion|fix|...|update)[:\-]] of the second alternative,
    under the [i] flag: what follows it. No keyword is the beginning of
    another, so at most one of them starts the line. *)
Definition matchKeywordHead (line : jsstring) : option jsstring :=
  match List.find (fun k => startsWithCI k line) suggestionKeywords with
  | Some k =>
      match drop (length k) line with
      | c :: r => if (c =? 58) || (c =? 45) then Some r else None
      | [] => None
      end
  | None => None
  end.

(** [line.match(pattern)]: the groups 2 and 4. *)
Definition matchPattern (line : jsstring) : option (option jsstring * option jsstring) :=
  match matchBulletHead line ≫= matchSpacesRest 1 with
  | Some g => Some (Some g, None)
  | None =>
      match matchKeywordHead line ≫= matchSpacesRest 0 with
      | Some g => Some (None, Some g)
      | None => None
      end
  end.

Definition isQuoteOrSpace (c : N) : bool :=
  (c =? 34) || (c =? 39) || isWhiteSpace c.

(** [candidate.replace(/^["'\s]+|["'\s]+$/g, "")]: the run of quotes and
    white space at the start goes, then the one at the end. *)
Definition stripQuotes (s : jsstring) : jsstring :=
  dropWhileEnd isQuoteOrSpace (dropWhile isQuoteOrSpace s).

(** [/^(?:\+|\-|\s|@@|diff)/m.test(s)]; [atLineStart] tells whether the
    head of [s] starts a line. *)
Fixpoint testDiffLine (atLineStart : bool) (s : jsstring) : bool :=
  match s with
  | [] => false
  | c :: r =>
      (atLineStart
       && ((c =? 43) || (c =? 45) || isWhiteSpace c
           || startsWith (js "@@") s || startsWith (js "diff") s))
      || testDiffLine (isLineTerminator c) r
  end.

(** [text.replace(/\s+/g, " ")]; [inRun] tells whether the code unit before
    the head of [s] was white space. *)
Fixpoint collapseSpaces (inRun : bool) (s : jsstring) : jsstring :=
  match s with
  | [] => []
  | c :: r =>
      if isWhiteSpace c
      then if inRun then collapseSpaces true r else 32 :: collapseSpaces true r
      else c :: collapseSpaces false r
  end.

Definition summarize (text : jsstring) : jsstring :=
  let maxLen := 140%nat in
  let t := trim (collapseSpaces false text) in
  if (length t <=? maxLen)%nat then t
  else
    match indexOfFrom 46 60 0 t with
    | Some sentenceEnd =>
        if (0 <? sentenceEnd)%nat && (sentenceEnd <? maxLen)%nat
        then take (sentenceEnd + 1) t
        else take (maxLen - 1) t ++ ellipsis
    | None => take (maxLen - 1) t ++ ellipsis
    end.

(** [x || null] on a string that may be absent. *)
Definition orNull (x : option jsstring) : option jsstring :=
  match x with
  | Some (c :: r) => Some (c :: r)
  | _ => None
  end.

Definition extractReviewTextOnly (commentRoot : CommentView) : option jsstring :=
  match c_prose commentRoot with
  | None => None
  | Some clone =>
      let text :=
        trim (removeAll (js "Commit suggestion")
                (removeAll (js "Suggestion applied")
                   (removeAll (js "Suggested change") (safeText (Some clone))))) in
      orNull (Some text)
  end.

Definition getAnchorUrlForComment (href : jsstring) (commentRoot : CommentView)
  : jsstring :=
  let link := match c_timestampLink commentRoot with
              | Some l => Some l
              | None => c_headerLink commentRoot
              end in
  match orNull link with
  | Some h => h
  | None => href
  end.

Definition extractListItems (container : BodyView) : list jsstring :=
  List.filter (fun txt => negb (isEmpty txt))
              (map (fun li => safeText (Some li)) (body_listItems container)).

Definition extractPatternLines (container : BodyView) : list jsstring :=
  let text := safeText (Some (body_text container)) in
  if isEmpty text then []
  else
    let lines := List.filter (fun l => negb (isEmpty l)) (map trim (splitLines text)) in
    omap (fun line =>
            match matchPattern line with
            | Some (m2, m4) =>
                let candidate :=
                  match orNull m2, orNull m4 with
                  | Some g, _ => g
                  | None, Some g => g
                  | None, None => line
                  end in
                orNull (Some (stripQuotes candidate))
            | None => None
            end) lines.

Section Script.
Context `{Platform}.

(** ** Comment classifier *)

Definition isCopilotAuthor (commentRoot : CommentView) : bool :=
  let authorLink := c_author commentRoot in
  let authorText := toLowerCase (safeText (fst <$> authorLink)) in
  if includes (js "copilot") authorText then true
  else if testGithubCopilot (default [] (authorLink ≫= snd)) then true
  else
    let botText := toLowerCase (safeText (c_botBadge commentRoot)) in
    if includes (js "bot") botText && includes (js "copilot") authorText then true
    else
      let bodyText := toLowerCase (safeText (body_text <$> c_body commentRoot)) in
      testCopilotWord false bodyText || testAiReview bodyText.

(** ** Suggestion segmenter *)

Definition diffLineOfRow (tr : RowView) : option jsstring :=
  let txt := safeText (tr_cell tr) in
  if isEmpty txt then None
  else if tr_hasDeletion tr then Some (js "- " ++ txt)
  else if tr_hasAddition tr then Some (js "+ " ++ txt)
  else Some (js "  " ++ txt).

Definition extractSuggestedChangeBlocks (container : BodyView) : list jsstring :=
  let fromDetails :=
    omap (fun det =>
            let summaryText := toLowerCase (safeText (det_summary det)) in
            if includes (js "suggested change") summaryText
               || includes (js "suggestion") summaryText
            then
              let code := safeText (det_code det) in
              if isEmpty code then None
              else Some (js "Suggested change:" ++ newline ++ code)
            else None) (body_details container) in
  let fromTables :=
    omap (fun table =>
            let lines := omap diffLineOfRow table in
            let diff := trim (join newline lines) in
            if isEmpty diff then None
            else Some (js "Suggested diff:" ++ newline ++ diff))
         (body_tables container) in
  let fromPres :=
    omap (fun pre =>
            let code := safeText (Some pre) in
            if negb (isEmpty code) && testDiffLine true code
            then Some (js "Suggested diff:" ++ newline ++ code)
            else None) (body_pres container) in
  fromDetails ++ fromTables ++ fromPres.

Fixpoint dedupeLoop (seen : gset jsstring) (out : list jsstring)
         (arr : list jsstring) : list jsstring :=
  match arr with
  | [] => out
  | s :: r =>
      let key := toLowerCase s in
      if bool_decide (key ∈ seen) then dedupeLoop seen out r
      else dedupeLoop ({[ key ]} ∪ seen) (out ++ [s]) r
  end.

Definition dedupe (arr : list jsstring) : list jsstring := dedupeLoop ∅ [] arr.

Definition extractSuggestionsFromComment (commentRoot : CommentView)
  : list jsstring :=
  match c_body commentRoot with
  | None => []
  | Some body =>
      let liItems := extractListItems body in
      let patternLines := extractPatternLines body in
      let changeBlocks := extractSuggestedChangeBlocks body in
      dedupe (liItems ++ patternLines ++ changeBlocks)
  end.

Definition extractPrimarySuggestedChange (commentRoot : CommentView)
  : option jsstring :=
  match c_body commentRoot with
  | None => None
  | Some body =>
      match extractSuggestedChangeBlocks body with
      | b :: _ => Some b
      | [] =>
          let preText := safeText (head (body_pres body)) in
          if negb (isEmpty preText) then Some preText
          else
            let codeText := safeText (body_code body) in
            if negb (isEmpty codeText) then Some codeText else None
      end
  end.

(** ** Extraction orchestrator *)

Record Suggestion := {
  sg_id : jsstring;
  sg_text : jsstring;
  sg_summary : jsstring;
  sg_sourceUrl : jsstring;
  sg_isCopilot : bool;
  sg_filePath : option jsstring;
  sg_lineStart : option Z;
  sg_lineEnd : option Z;
  sg_codeMentioned : option jsstring;
  sg_reviewText : option jsstring;
  sg_suggestedChange : option jsstring
}.

Definition colon : jsstring := [58].

(** [frame.id || `frame-${hashString(frame.outerHTML.slice(0, 512))}`] *)
Definition frameIdOf (frame : FrameView) : jsstring :=
  if negb (isEmpty (f_id frame)) then f_id frame
  else js "frame-" ++ hashString (take 512 (f_outerHTML frame)).

(** [`${frameId}:${idx}:${i}:${hashString(text)}`] *)
Definition suggestionId (frameId : jsstring) (idx i : nat) (text : jsstring)
  : jsstring :=
  frameId ++ colon ++ numberToString (Z.of_nat idx) ++ colon
          ++ numberToString (Z.of_nat i) ++ colon ++ hashString text.

(** The record pushed for the item [i] of the comment [idx] of [frame]. *)
Definition makeSuggestion (href : jsstring) (frame : FrameView) (idx : nat)
           (commentRoot : CommentView) (i : nat) (text : jsstring) : Suggestion :=
  let copilot := isCopilotAuthor commentRoot in
  let anchor := getAnchorUrlForComment href commentRoot in
  let frameId := frameIdOf frame in
  let id := suggestionId frameId idx i text in
  let range := findLineRangeInFrame frame in
  let reviewText := extractReviewTextOnly commentRoot in
  {| sg_id := id;
     sg_text := text;
     sg_summary := summarize (default text (orNull reviewText));
     sg_sourceUrl := anchor;
     sg_isCopilot := copilot;
     sg_filePath := orNull (findFilePathInFrame frame);
     sg_lineStart := lineStart range;
     sg_lineEnd := lineEnd range;
     sg_codeMentioned := findCodeMentionedInFrame frame;
     sg_reviewText := reviewText;
     sg_suggestedChange := extractPrimarySuggestedChange commentRoot |}.

(** The list [all] once the two nested loops are over. *)
Definition allCandidates (page : Page) : list Suggestion :=
  flat_map (fun frame =>
    mjoin (imap (fun idx commentRoot =>
             imap (fun i text =>
                     makeSuggestion (page_href page) frame idx commentRoot i text)
                  (extractSuggestionsFromComment commentRoot))
           (f_comments frame)))
    (page_frames page).

(** The last two lines of [extractAllSuggestions]. *)
Definition filterCopilot (all : list Suggestion) : list Suggestion :=
  let hasCopilot := existsb sg_isCopilot all in
  if hasCopilot then List.filter sg_isCopilot all else all.

Definition extractAllSuggestions (page : Page) : list Suggestion :=
  filterCopilot (allCandidates page).

End Script.

(** ** JSON values, [JSON.stringify] and [JSON.parse] *)

Unset Elimination Schemes.
Inductive json :=
| JNull
| JBool (b : bool)
| JNumber (z : Z)
| JString (s : jsstring)
| JArray (items : list json)
| JObject (members : list (jsstring * json)).
Set Elimination Schemes.

Definition isHighSurrogate (c : N) : bool := (55296 <=? c) && (c <=? 56319).
Definition isLowSurrogate (c : N) : bool := (56320 <=? c) && (c <=? 57343).

(** Four lower-case hexadecimal digits. *)
Definition hex4 (c : N) : jsstring :=
  [digitChar (c / 4096 mod 16); digitChar (c / 256 mod 16);
   digitChar (c / 16 mod 16); digitChar (c mod 16)].

Definition unicodeEscape (c : N) : jsstring := 92 :: 117 :: hex4 c.

(** The text of one code unit that is not a surrogate inside a JSON string. *)
Definition quoteChar (c : N) : jsstring :=
  if c =? 8 then [92; 98]
  else if c =? 9 then [92; 116]
  else if c =? 10 then [92; 110]
  else if c =? 12 then [92; 102]
  else if c =? 13 then [92; 114]
  else if c =? 34 then [92; 34]
  else if c =? 92 then [92; 92]
  else if c <? 32 then unicodeEscape c
  else [c].

(** [QuoteJSONString] without its quotes: a surrogate pair stays as it is,
    a lone surrogate is escaped. *)
Fixpoint quoteBody (s : jsstring) : jsstring :=
  match s with
  | [] => []
  | c :: r =>
      if isHighSurrogate c then
        match r with
        | d :: r' =>
            if isLowSurrogate d then c :: d :: quoteBody r'
            else unicodeEscape c ++ quoteBody r
        | [] => unicodeEscape c
        end
      else if isLowSurrogate c then unicodeEscape c ++ quoteBody r
      else quoteChar c ++ quoteBody r
  end.

Definition quoteJSONString (s : jsstring) : jsstring :=
  34 :: quoteBody s ++ [34].

Definition spaces (n : nat) : jsstring := repeat 32 n.

(** Line break and indentation between the parts of a container: nothing
    when the gap is empty. *)
Definition breakLine (gap indent : nat) : jsstring :=
  match gap with
  | O => []
  | S _ => 10 :: spaces indent
  end.

(** [": "] or [":"] after a member name. *)
Definition colonSep (gap : nat) : jsstring :=
  match gap with
  | O => [58]
  | S _ => [58; 32]
  end.

(** The items of a non-empty container, each followed by a comma and a
    line break, or by the closing line break after the last one. *)
Fixpoint layoutItems (gap indent : nat) (texts : list jsstring) : jsstring :=
  match texts with
  | [] => []
  | [t] => t ++ breakLine gap indent
  | t :: r => t ++ 44 :: breakLine gap (indent + gap) ++ layoutItems gap indent r
  end.

(** [SerializeJSONProperty] for a value at indentation [indent], with a gap
    of [gap] spaces. *)
Fixpoint serialize (gap indent : nat) (v : json) : jsstring :=
  match v with
  | JNull => js "null"
  | JBool true => js "true"
  | JBool false => js "false"
  | JNumber z => numberToString z
  | JString s => quoteJSONString s
  | JArray [] => js "[]"
  | JArray items =>
      91 :: breakLine gap (indent + gap)
         ++ layoutItems gap indent (map (serialize gap (indent + gap)) items)
         ++ [93]
  | JObject [] => js "{}"
  | JObject members =>
      123 :: breakLine gap (indent + gap)
          ++ layoutItems gap indent
               (map (fun m => quoteJSONString (fst m) ++ colonSep gap
                                ++ serialize gap (indent + gap) (snd m))
                    members)
          ++ [125]
  end.

(** [JSON.stringify(v, null, gap)] *)
Definition JSON_stringify (v : json) (gap : nat) : jsstring := serialize gap 0 v.

(** JSON white space. *)
Definition isJsonSpace (c : N) : bool :=
  (c =? 32) || (c =? 9) || (c =? 10) || (c =? 13).

Definition hexValue (c : N) : option N :=
  if isDigit c then Some (c - 48)
  else if (97 <=? c) && (c <=? 102) then Some (c - 87)
  else if (65 <=? c) && (c <=? 70) then Some (c - 55)
  else None.

Definition parseHex4 (a b c d : N) : option N :=
  match hexValue a, hexValue b, hexValue c, hexValue d with
  | Some x, Some y, Some z, Some w => Some (((x * 16 + y) * 16 + z) * 16 + w)
  | _, _, _, _ => None
  end.

(** The code unit a one-letter escape stands for. *)
Definition unescape (e : N) : option N :=
  if e =? 34 then Some 34
  else if e =? 92 then Some 92
  else if e =? 47 then Some 47
  else if e =? 98 then Some 8
  else if e =? 102 then Some 12
  else if e =? 110 then Some 10
  else if e =? 114 then Some 13
  else if e =? 116 then Some 9
  else None.

(** A JSON string after its opening quote: its value and what follows the
    closing quote. *)
Fixpoint parseStringBody (s : jsstring) : option (jsstring * jsstring) :=
  match s with
  | [] => None
  | c :: r =>
      if c =? 34 then Some ([], r)
      else if c =? 92 then
        match r with
        | [] => None
        | e :: r1 =>
            if e =? 117 then
              match r1 with
              | h1 :: h2 :: h3 :: h4 :: r2 =>
                  match parseHex4 h1 h2 h3 h4, parseStringBody r2 with
                  | Some u, Some (str, rest) => Some (u :: str, rest)
                  | _, _ => None
                  end
              | _ => None
              end
            else
              match unescape e, parseStringBody r1 with
              | Some u, Some (str, rest) => Some (u :: str, rest)
              | _, _ => None
              end
        end
      else if c <? 32 then None
      else
        match parseStringBody r with
        | Some (str, rest) => Some (c :: str, rest)
        | None => None
        end
  end.

(** A JSON number without fraction and exponent, after its sign: JSON has
    no leading zeros, and the integers are the numbers of this model. *)
Definition parseJsonDigits (s : jsstring) : option (Z * jsstring) :=
  let ds := takeWhile isDigit s in
  let rest := dropWhile isDigit s in
  let plain :=
    match rest with
    | c :: _ => negb ((c =? 46) || (c =? 101) || (c =? 69))
    | [] => true
    end in
  match ds with
  | [] => None
  | d :: more =>
      if (d =? 48) && negb (isEmpty more) then None
      else if plain then Some (readDigits 0 ds, rest) else None
  end.

Definition expectWord (w : jsstring) (v : json) (s : jsstring)
  : option (json * jsstring) :=
  if startsWith w s then Some (v, drop (length w) s) else None.

(** Whether [s] starts with the code unit [c]. *)
Definition startsWithChar (c : N) (s : jsstring) : bool :=
  match s with
  | d :: _ => d =? c
  | [] => false
  end.

(** A JSON value at the head of [s], after white space, and what follows
    it; [parseElements] and [parseMembers] read the rest of an array or of
    an object after its first bracket. Every call consumes input, so a fuel
    above the length of the text is enough. *)
Fixpoint parseValue (fuel : nat) (s : jsstring) : option (json * jsstring) :=
  match fuel with
  | O => None
  | S f =>
      match dropWhile isJsonSpace s with
      | [] => None
      | c :: r =>
          if c =? 110 then expectWord (js "ull") JNull r
          else if c =? 116 then expectWord (js "rue") (JBool true) r
          else if c =? 102 then expectWord (js "alse") (JBool false) r
          else if c =? 34 then
            match parseStringBody r with
            | Some (str, rest) => Some (JString str, rest)
            | None => None
            end
          else if c =? 45 then
            match parseJsonDigits r with
            | Some (z, rest) => Some (JNumber (- z), rest)
            | None => None
            end
          else if isDigit c then
            match parseJsonDigits (c :: r) with
            | Some (z, rest) => Some (JNumber z, rest)
            | None => None
            end
          else if c =? 91 then
            if startsWithChar 93 (dropWhile isJsonSpace r)
            then Some (JArray [], drop 1 (dropWhile isJsonSpace r))
            else
              match parseElements f r with
              | Some (items, rest) => Some (JArray items, rest)
              | None => None
              end
          else if c =? 123 then
            if startsWithChar 125 (dropWhile isJsonSpace r)
            then Some (JObject [], drop 1 (dropWhile isJsonSpace r))
            else
              match parseMembers f r with
              | Some (members, rest) => Some (JObject members, rest)
              | None => None
              end
          else None
      end
  end
with parseElements (fuel : nat) (s : jsstring) : option (list json * jsstring) :=
  match fuel with
  | O => None
  | S f =>
      match parseValue f s with
      | Some (v, rest) =>
          match dropWhile isJsonSpace rest with
          | c :: r =>
              if c =? 93 then Some ([v], r)
              else if c =? 44 then
                match parseElements f r with
                | Some (vs, rest') => Some (v :: vs, rest')
                | None => None
                end
              else None
          | [] => None
          end
      | None => None
      end
  end
with parseMembers (fuel : nat) (s : jsstring)
  : option (list (jsstring * json) * jsstring) :=
  match fuel with
  | O => None
  | S f =>
      if startsWithChar 34 (dropWhile isJsonSpace s) then
        match parseStringBody (drop 1 (dropWhile isJsonSpace s)) with
        | Some (key, r1) =>
            if startsWithChar 58 (dropWhile isJsonSpace r1) then
              match parseValue f (drop 1 (dropWhile isJsonSpace r1)) with
              | Some (v, rest) =>
                  match dropWhile isJsonSpace rest with
                  | c :: r =>
                      if c =? 125 then Some ([(key, v)], r)
                      else if c =? 44 then
                        match parseMembers f r with
                        | Some (ms, rest') => Some ((key, v) :: ms, rest')
                        | None => None
                        end
                      else None
                  | [] => None
                  end
              | None => None
              end
            else None
        | None => None
        end
      else None
  end.

(** [JSON.parse(s)]; [None] stands for the [SyntaxError] it throws. A
    number with a fraction or an exponent has no place in [json]: the parser
    refuses it, where JavaScript would read a floating-point number. The
    script itself writes strings, integers and [null] only. *)
Definition JSON_parse (s : jsstring) : option json :=
  match parseValue (S (length s)) s with
  | Some (v, rest) =>
      if isEmpty (dropWhile isJsonSpace rest) then Some v else None
  | None => None
  end.

(** [obj.key] on a parsed object: the value of the member, if there is one. *)
Definition getMember (key : jsstring) (v : json) : option json :=
  match v with
  | JObject members => snd <$> List.find (fun m => jsstring_eqb (fst m) key) members
  | _ => None
  end.

(** ** Output builders *)

(** A number in a condition: [null], [0] and [NaN] are falsy. *)
Definition truthyNumber (n : option Z) : bool :=
  match n with
  | Some z => negb (z =? 0)%Z
  | None => false
  end.

Definition linesLabel (s : Suggestion) : option jsstring :=
  match sg_lineStart s, sg_lineEnd s with
  | Some a, Some b =>
      if truthyNumber (Some a) && truthyNumber (Some b) then
        if (a =? b)%Z then Some (js "L" ++ numberToString a)
        else Some (js "L" ++ numberToString a ++ js "-L" ++ numberToString b)
      else None
  | _, _ => None
  end.

Definition fileLine (s : Suggestion) : option jsstring :=
  let label := linesLabel s in
  match orNull (sg_filePath s), orNull label with
  | None, None => None
  | path, lbl =>
      Some (js "File: " ++ default (js "unknown") path
            ++ match lbl with
               | Some l => js " (" ++ l ++ js ")"
               | None => []
               end)
  end.

(** The variable [suggestionBlock] of [buildPrompt]. *)
Definition suggestionBlock (s : Suggestion) : option jsstring :=
  match orNull (sg_suggestedChange s) with
  | Some change =>
      if startsWith (js "Suggested") (trim change) then Some change
      else Some (js "Suggested change:" ++ newline ++ change)
  | None =>
      if negb (isEmpty (sg_text s))
         && negb (jsstring_eqb (sg_text s) (sg_summary s))
      then
        if startsWith (js "Suggested") (trim (sg_text s)) then Some (sg_text s)
        else Some (js "Suggested change:" ++ newline ++ sg_text s)
      else None
  end.

(** [parts.filter(Boolean)]: [null] and the empty string go. *)
Definition filterBoolean (parts : list (option jsstring)) : list jsstring :=
  omap orNull parts.

(** The text of one item of [buildPrompt]. *)
Definition promptItem (idx : nat) (s : Suggestion) : jsstring :=
  join newline
    (filterBoolean
       [ Some (js "#" ++ numberToString (Z.of_nat idx + 1) ++ js " " ++ sg_summary s);
         fileLine s;
         (fun c => js "Code mentioned:" ++ newline ++ c) <$> orNull (sg_codeMentioned s);
         (fun r => js "Review:" ++ newline ++ r) <$> orNull (sg_reviewText s);
         suggestionBlock s;
         Some [] ]).

Definition promptHeader (prUrl : jsstring) : jsstring :=
  join newline
    [ js "Task: Apply the following GitHub Copilot review suggestions to the codebase in this PR.";
      js "PR: " ++ prUrl;
      js "Instructions:";
      js "- For each item, implement the change described.";
      js "- If multiple files are impacted, update all relevant locations.";
      js "- Preserve existing behavior unless a change is explicitly requested.";
      [] ].

Definition buildPrompt (href : jsstring) (items : list Suggestion) : jsstring :=
  promptHeader href ++ newline ++ join newline (imap promptItem items).

Definition jsonOfString (x : option jsstring) : json :=
  match orNull x with
  | Some s => JString s
  | None => JNull
  end.

Definition jsonOfNumber (x : option Z) : json :=
  match x with
  | Some z => JNumber z
  | None => JNull
  end.

(** One element of [normalized] in [buildJSON]. *)
Definition normalize (s : Suggestion) : json :=
  JObject
    [ (js "id", JString (sg_id s));
      (js "filePath", jsonOfString (sg_filePath s));
      (js "lineStart", jsonOfNumber (sg_lineStart s));
      (js "lineEnd", jsonOfNumber (sg_lineEnd s));
      (js "summary", JString (sg_summary s));
      (js "codeMentioned", jsonOfString (sg_codeMentioned s));
      (js "reviewText", jsonOfString (sg_reviewText s));
      (js "suggestedChange", jsonOfString (sg_suggestedChange s));
      (js "sourceUrl", JString (sg_sourceUrl s)) ].

Definition buildJSON (href : jsstring) (items : list Suggestion) : jsstring :=
  JSON_stringify
    (JObject [ (js "pr", JString href);
               (js "suggestions", JArray (map normalize items)) ])
    2.

(** ** Selection-state store *)

(** The outcome of a call that may throw. *)
Inductive result (A : Type) :=
| Ok (a : A)
| Throw.
Arguments Ok {A} a.
Arguments Throw {A}.

Definition bindResult {A B} (r : result A) (k : A -> result B) : result B :=
  match r with
  | Ok a => k a
  | Throw => Throw
  end.

(** [try { body } catch { handler }] *)
Definition tryCatch {A} (body : result A) (handler : result A) : result A :=
  match body with
  | Ok a => Ok a
  | Throw => handler
  end.

(** [localStorage] over a state [St]: both calls may throw (access denied,
    quota exceeded); [setItem] gives the next state. The store is stated
    over every such pair of functions. *)
Class StorageArea (St : Type) := {
  getItem : St -> jsstring -> result (option jsstring);
  setItem : St -> jsstring -> jsstring -> result St
}.

(** A storage area with a quota on the stored code units. *)
Record QuotaStorage := {
  qs_denied : bool;
  qs_quota : nat;
  qs_items : gmap jsstring jsstring
}.

Definition usage (items : gmap jsstring jsstring) : nat :=
  map_fold (fun k v acc => (length k + length v + acc)%nat) 0%nat items.

#[export] Instance quotaStorageArea : StorageArea QuotaStorage := {
  getItem st key := if qs_denied st then Throw else Ok (qs_items st !! key);
  setItem st key value :=
    if qs_denied st then Throw
    else
      let items := <[ key := value ]> (qs_items st) in
      if (usage items <=? qs_quota st)%nat
      then Ok {| qs_denied := false; qs_quota := qs_quota st; qs_items := items |}
      else Throw
}.

(** [SameValueZero] on parsed values: arrays and objects are fresh
    references, equal to nothing else. *)
Definition sameValueZero (a b : json) : bool :=
  match a, b with
  | JNull, JNull => true
  | JBool x, JBool y => eqb x y
  | JNumber x, JNumber y => (x =? y)%Z
  | JString x, JString y => jsstring_eqb x y
  | _, _ => false
  end.

(** [new Set(arr)], in insertion order. *)
Definition newSet (arr : list json) : list json :=
  fold_left (fun set v => if existsb (sameValueZero v) set then set else set ++ [v])
            arr [].

(** [currentPRKey()] *)
Definition currentPRKey (origin pathname : jsstring) : jsstring :=
  js "copilot-review-to-prompt:" ++ origin ++ pathname.

Section Storage.
Context {St : Type} `{StorageArea St}.
Variables (origin pathname : jsstring).

Definition getStoredSet (suffix : jsstring) (st : St) : result (list json) :=
  tryCatch
    (bindResult (getItem st (currentPRKey origin pathname ++ suffix)) (fun raw =>
       match orNull raw with
       | None => Ok []
       | Some raw =>
           match JSON_parse raw with
           | None => Throw
           | Some arr =>
               Ok (newSet (match arr with
                           | JArray items => items
                           | _ => []
                           end))
           end
       end))
    (Ok []).

Definition saveStoredSet (suffix : jsstring) (st : St) (set : list json)
  : result St :=
  tryCatch
    (setItem st (currentPRKey origin pathname ++ suffix)
             (JSON_stringify (JArray set) 0))
    (Ok st).

Definition getDeselectedSet := getStoredSet (js ":deselected").
Definition saveDeselectedSet := saveStoredSet (js ":deselected").
Definition getIgnoredSet := getStoredSet (js ":ignored").
Definition saveIgnoredSet := saveStoredSet (js ":ignored").

End Storage.

(** ** Page guard *)

Definition notSlash (c : N) : bool := negb (c =? 47).

Definition notLineTerminator (c : N) : bool := negb (isLineTerminator c).

(** The test of [location.pathname] against the pattern of [isPRPage]:
    [^\/[^/]+\/[^/]+\/pull\/\d+], then an optional group made of a slash
    and [.*], then [$]. Each [[^/]+] runs to the next slash and [\d+] to
    the next code unit that is no digit, where the pattern wants a slash or
    the end of the text: a shorter run would stop before a code unit of its
    own class. The [.] refuses line terminators, and [$] (without the [m]
    flag) is the end of the text. *)
Definition isPRPage (pathname : jsstring) : bool :=
  match pathname with
  | c :: r =>
      (c =? 47)
      && negb (isEmpty (takeWhile notSlash r))
      && match dropWhile notSlash r with
         | _ :: r2 =>
             negb (isEmpty (takeWhile notSlash r2))
             && startsWith (js "/pull/") (dropWhile notSlash r2)
             && let r4 := drop 6 (dropWhile notSlash r2) in
                negb (isEmpty (takeWhile isDigit r4))
                && match dropWhile isDigit r4 with
                   | [] => true
                   | d :: tail => (d =? 47) && forallb notLineTerminator tail
                   end
         | [] => false
         end
  | [] => false
  end.

(** ** Debounce *)

(** The closure [debounce(fn, delay)] returns, seen with the timers it has
    set and that have not fired yet: the variable [t], the identifier the
    next [setTimeout] gives, and for every pending timer its identifier and
    the arguments its callback will pass to [fn]. When a timer is due is
    left to the page: a pending timer may fire at any time. *)
Record Debounced (A : Type) := {
  db_t : option nat;
  db_nextId : nat;
  db_timers : list (nat * A)
}.
Arguments db_t {A} _.
Arguments db_nextId {A} _.
Arguments db_timers {A} _.

(** [clearTimeout(t)]: nothing happens when [t] is [undefined] or names no
    pending timer. *)
Definition clearTimeout {A : Type} (t : option nat) (timers : list (nat * A))
  : list (nat * A) :=
  match t with
  | Some id => List.filter (fun x => negb (fst x =? id)%nat) timers
  | None => timers
  end.

(** One call of the debounced function:
    [clearTimeout(t); t = setTimeout(() => fn(...args), delay)]. *)
Definition callDebounced {A : Type} (args : A) (d : Debounced A) : Debounced A :=
  {| db_t := Some (db_nextId d);
     db_nextId := S (db_nextId d);
     db_timers := clearTimeout (db_t d) (db_timers d) ++ [(db_nextId d, args)] |}.

(** The timer [id] fires, if it is pending: it leaves the timers, and its
    callback runs [fn] with the arguments that are returned. *)
Definition fireTimer {A : Type} (id : nat) (d : Debounced A)
  : Debounced A * option A :=
  match List.find (fun x => (fst x =? id)%nat) (db_timers d) with
  | Some (_, args) =>
      ({| db_t := db_t d; db_nextId := db_nextId d;
          db_timers := List.filter (fun x => negb (fst x =? id)%nat) (db_timers d) |},
       Some args)
  | None => (d, None)
  end.

(** What happens to a debounced function: it is called, or the page lets
    a timer fire. *)
Inductive DebounceEvent (A : Type) :=
| Call (args : A)
| Fire (id : nat).
Arguments Call {A} args.
Arguments Fire {A} id.

(** What is seen of it: a call, or a run of [fn]. *)
Inductive DebounceStep (A : Type) :=
| Called (args : A)
| Ran (args : A).
Arguments Called {A} args.
Arguments Ran {A} args.

(** The closure after the events [es], and what was seen. *)
Fixpoint debounceTrace {A : Type} (es : list (DebounceEvent A)) (d : Debounced A)
  : Debounced A * list (DebounceStep A) :=
  match es with
  | [] => (d, [])
  | Call args :: r =>
      let '(d', steps) := debounceTrace r (callDebounced args d) in
      (d', Called args :: steps)
  | Fire id :: r =>
      match fireTimer id d with
      | (d1, Some args) =>
          let '(d', steps) := debounceTrace r d1 in (d', Ran args :: steps)
      | (d1, None) => debounceTrace r d1
      end
  end.

(** The closure as [debounce] returns it. *)
Definition debounce {A : Type} (firstId : nat) : Debounced A :=
  {| db_t := None; db_nextId := firstId; db_timers := [] |}.

(** ** Markdown builder *)

Definition codeFence : jsstring := js "```".

(** One element of [sections] in [buildMarkdown]; [linesFor] of the source
    is the expression of [linesLabel]. *)
Definition markdownSection (idx : nat) (s : Suggestion) : jsstring :=
  let lineLabel := linesLabel s in
  let titleParts :=
    match orNull (sg_filePath s) with
    | Some p => [p]
    | None => []
    end
    ++ match orNull lineLabel with
       | Some l => [js "(" ++ l ++ js ")"]
       | None => []
       end in
  let title :=
    if (0 <? length titleParts)%nat then join (js " ") titleParts else [] in
  let blocks :=
    [js "### " ++ numberToString (Z.of_nat idx + 1) ++ js ". " ++ sg_summary s]
    ++ (if negb (isEmpty title) then [js "File: " ++ title] else [])
    ++ match orNull (sg_codeMentioned s) with
       | Some c => [js "Code mentioned:" ++ newline ++ newline ++ codeFence
                      ++ newline ++ c ++ newline ++ codeFence]
       | None => []
       end
    ++ match orNull (sg_reviewText s) with
       | Some r => [js "Review:" ++ newline ++ newline ++ r]
       | None => []
       end
    ++ match orNull (sg_suggestedChange s) with
       | Some c => [js "Suggested change:" ++ newline ++ newline ++ codeFence
                      ++ newline ++ c ++ newline ++ codeFence]
       | None => []
       end in
  join (newline ++ newline) blocks.

Definition buildMarkdown (href : jsstring) (items : list Suggestion) : jsstring :=
  join newline ((js "## PR" ++ newline ++ href) :: [] :: imap markdownSection items).

(** ** The panel and its handlers *)

(** [set.has(x)], [set.add(x)] and [set.delete(x)] on a [Set] kept in
    insertion order. *)
Definition setHas (x : json) (set : list json) : bool :=
  existsb (sameValueZero x) set.

Definition setAdd (x : json) (set : list json) : list json :=
  if setHas x set then set else set ++ [x].

Definition setDelete (x : json) (set : list json) : list json :=
  List.filter (fun y => negb (sameValueZero x y)) set.

(** One row of the list: the suggestion it shows and its check box. *)
Record Row := {
  row_item : Suggestion;
  row_checked : bool
}.

(** What [navigator.clipboard.writeText] does: the promise is fulfilled,
    or rejected with an error that may carry a message. *)
Inductive ClipboardOutcome :=
| ClipWritten
| ClipRejected (message : option jsstring).

(** The messages of the extension, by their [type]; [ids] is [None] when
    [msg.ids] is no array. *)
Inductive Message :=
| CRTP_QUERY
| CRTP_REFRESH
| CRTP_TOGGLE_PANEL
| CRTP_OPEN_PANEL
| CRTP_BUILD_PROMPT (ids : option (list json))
| CRTP_BUILD_MARKDOWN (ids : option (list json))
| CRTP_BUILD_JSON (ids : option (list json))
| OtherMessage.

(** The answer to [CRTP_QUERY]. *)
Record QueryInfo := {
  qi_isPR : bool;
  qi_hasCRTP : bool;
  qi_found : nat;
  qi_selected : nat;
  qi_suggestions : list Suggestion;
  qi_selectedIds : list jsstring
}.

(** The objects the listener of the content script passes to
    [sendResponse]. *)
Inductive Response :=
| RQuery (info : QueryInfo)
| ROk (ok : bool)
| RPrompt (prompt : jsstring)
| RMarkdown (markdown : jsstring)
| RJson (text : jsstring).

(** [window.location] as far as the script reads it. *)
Record Location := {
  loc_origin : jsstring;
  loc_pathname : jsstring;
  loc_href : jsstring
}.

(** The state the closures of the content script share: [state.suggestions],
    the two sets of [UI], what the panel shows, and what they read of the
    window: [localStorage] and [location]. The script reads [location]
    anew at every use. *)
Record Panel (St : Type) := {
  p_suggestions : list Suggestion;
  p_deselected : list json;
  p_ignored : list json;
  p_rows : list Row;              (* the rows of [listContainer] *)
  p_found : nat;                  (* the pill [Found: n] *)
  p_selected : nat;               (* the pill [Selected: n] *)
  p_status : jsstring;            (* [statusMsg.textContent] *)
  p_open : bool;                  (* [panel.classList] holds [open] *)
  p_clipboard : option jsstring;  (* the text last written to the clipboard *)
  p_store : St;
  p_location : Location
}.
Arguments p_suggestions {St} _.
Arguments p_deselected {St} _.
Arguments p_ignored {St} _.
Arguments p_rows {St} _.
Arguments p_found {St} _.
Arguments p_selected {St} _.
Arguments p_status {St} _.
Arguments p_open {St} _.
Arguments p_clipboard {St} _.
Arguments p_store {St} _.
Arguments p_location {St} _.

(** The events of the panel. The timer of [debounce] is not part of the
    state: the run of the debounced function of [state.refresh] is an
    event of its own, [RefreshFired], on the document as it is then. The
    script outlives a move of the page to another address of the site
    ([history.pushState], a traversal of the history), which is the event
    [Navigated]; the three listeners of the window for such moves are
    events too. *)
Inductive PanelEvent :=
| Navigated (pathname href : jsstring)  (* [location] changes, same origin *)
| TurboLoad                      (* the listener of [turbo:load] *)
| PjaxEnd                        (* the listener of [pjax:end] *)
| PopState                       (* the listener of [popstate] *)
| RefreshFired (page : Page)
| CheckboxChanged (k : nat)      (* the user flips the check box of row [k] *)
| SkipClicked (k : nat)          (* the button [Skip] of row [k] *)
| SelectAllClicked
| RefreshClicked
| CopyClicked (outcome : ClipboardOutcome)
| CopyMdClicked (outcome : ClipboardOutcome)
| CopyJsonClicked (outcome : ClipboardOutcome)
| MessageReceived (msg : Message).

Section PanelScript.
Context {St : Type} `{StorageArea St} `{Platform}.

#[local] Abbreviation Panel' := (Panel St).

(** [location.origin], [location.pathname] and [location.href] when the
    script reads them. *)
Definition currentOrigin (p : Panel') : jsstring := loc_origin (p_location p).
Definition currentPathname (p : Panel') : jsstring := loc_pathname (p_location p).
Definition currentHref (p : Panel') : jsstring := loc_href (p_location p).

Definition isIgnored (p : Panel') (s : Suggestion) : bool :=
  setHas (JString (sg_id s)) (p_ignored p).

Definition isDeselected (p : Panel') (s : Suggestion) : bool :=
  setHas (JString (sg_id s)) (p_deselected p).

(** [state.suggestions.filter((s) => !ignored.has(s.id))] *)
Definition visibleItems (p : Panel') : list Suggestion :=
  List.filter (fun s => negb (isIgnored p s)) (p_suggestions p).

(** [state.suggestions.filter((s) => !ignored.has(s.id) && !deselected.has(s.id))] *)
Definition selectedItems (p : Panel') : list Suggestion :=
  List.filter (fun s => negb (isIgnored p s) && negb (isDeselected p s))
              (p_suggestions p).

Definition setStatus (text : jsstring) (p : Panel') : Panel' :=
  {| p_suggestions := p_suggestions p; p_deselected := p_deselected p;
     p_ignored := p_ignored p; p_rows := p_rows p; p_found := p_found p;
     p_selected := p_selected p; p_status := text; p_open := p_open p;
     p_clipboard := p_clipboard p; p_store := p_store p;
     p_location := p_location p |}.

Definition renderHeaderInfo (p : Panel') : Panel' :=
  let items := visibleItems p in
  let count := length (List.filter (fun s => negb (isDeselected p s)) items) in
  {| p_suggestions := p_suggestions p; p_deselected := p_deselected p;
     p_ignored := p_ignored p; p_rows := p_rows p; p_found := length items;
     p_selected := count; p_status := p_status p; p_open := p_open p;
     p_clipboard := p_clipboard p; p_store := p_store p;
     p_location := p_location p |}.

(** The rows are drawn anew, one per item that is not ignored, each check
    box showing whether the item is selected. *)
Definition renderList (p : Panel') : Panel' :=
  let items := visibleItems p in
  renderHeaderInfo
    {| p_suggestions := p_suggestions p; p_deselected := p_deselected p;
       p_ignored := p_ignored p;
       p_rows := map (fun s => {| row_item := s;
                                  row_checked := negb (isDeselected p s) |}) items;
       p_found := p_found p; p_selected := p_selected p;
       p_status := p_status p; p_open := p_open p;
       p_clipboard := p_clipboard p; p_store := p_store p;
       p_location := p_location p |}.

(** The value of a store call that does not throw. *)
Definition stored (r : result St) (st : St) : St :=
  match r with
  | Ok st' => st'
  | Throw => st
  end.

(** [saveDeselection()]: the set goes under the key of the address the
    page has at that moment. *)
Definition saveDeselection (p : Panel') : Panel' :=
  {| p_suggestions := p_suggestions p; p_deselected := p_deselected p;
     p_ignored := p_ignored p; p_rows := p_rows p; p_found := p_found p;
     p_selected := p_selected p; p_status := p_status p; p_open := p_open p;
     p_clipboard := p_clipboard p;
     p_store := stored (saveDeselectedSet (currentOrigin p) (currentPathname p)
                          (p_store p) (p_deselected p)) (p_store p);
     p_location := p_location p |}.

(** [saveIgnored()], likewise. *)
Definition saveIgnored (p : Panel') : Panel' :=
  {| p_suggestions := p_suggestions p; p_deselected := p_deselected p;
     p_ignored := p_ignored p; p_rows := p_rows p; p_found := p_found p;
     p_selected := p_selected p; p_status := p_status p; p_open := p_open p;
     p_clipboard := p_clipboard p;
     p_store := stored (saveIgnoredSet (currentOrigin p) (currentPathname p)
                          (p_store p) (p_ignored p)) (p_store p);
     p_location := p_location p |}.

Definition withDeselected (set : list json) (p : Panel') : Panel' :=
  {| p_suggestions := p_suggestions p; p_deselected := set;
     p_ignored := p_ignored p; p_rows := p_rows p; p_found := p_found p;
     p_selected := p_selected p; p_status := p_status p; p_open := p_open p;
     p_clipboard := p_clipboard p; p_store := p_store p;
     p_location := p_location p |}.

Definition withIgnored (set : list json) (p : Panel') : Panel' :=
  {| p_suggestions := p_suggestions p; p_deselected := p_deselected p;
     p_ignored := set; p_rows := p_rows p; p_found := p_found p;
     p_selected := p_selected p; p_status := p_status p; p_open := p_open p;
     p_clipboard := p_clipboard p; p_store := p_store p;
     p_location := p_location p |}.

Definition onSelectAll (p : Panel') : Panel' :=
  let allIds := map (fun s => JString (sg_id s)) (visibleItems p) in
  let allSelected := forallb (fun id => negb (setHas id (p_deselected p))) allIds in
  let deselected :=
    if allSelected
    then fold_left (fun set id => setAdd id set) allIds (p_deselected p)
    else fold_left (fun set id => setDelete id set) allIds (p_deselected p) in
  renderList (saveDeselection (withDeselected deselected p)).

(** The listener of the check box of row [k], once the browser has flipped
    the box. *)
Definition onCheckboxChange (k : nat) (p : Panel') : Panel' :=
  match p_rows p !! k with
  | None => p
  | Some row =>
      let checked := negb (row_checked row) in
      let id := JString (sg_id (row_item row)) in
      let rows := <[ k := {| row_item := row_item row; row_checked := checked |} ]>
                    (p_rows p) in
      let deselected :=
        if checked then setDelete id (p_deselected p)
        else setAdd id (p_deselected p) in
      renderHeaderInfo
        (saveDeselection
           {| p_suggestions := p_suggestions p; p_deselected := deselected;
              p_ignored := p_ignored p; p_rows := rows; p_found := p_found p;
              p_selected := p_selected p; p_status := p_status p;
              p_open := p_open p; p_clipboard := p_clipboard p;
              p_store := p_store p;
              p_location := p_location p |})
  end.

(** The listener of the button [Skip] of row [k]. *)
Definition onIgnoreClick (k : nat) (p : Panel') : Panel' :=
  match p_rows p !! k with
  | None => p
  | Some row =>
      let id := JString (sg_id (row_item row)) in
      renderHeaderInfo
        (renderList (saveIgnored (withIgnored (setAdd id (p_ignored p)) p)))
  end.

Definition unknownError : jsstring := js "unknown error".

(** The three copy listeners: the text of the selection goes to the
    clipboard, and the status line tells the outcome. *)
Definition copySelection (build : list Suggestion -> jsstring)
           (done : nat -> jsstring) (outcome : ClipboardOutcome) (p : Panel')
  : Panel' :=
  let selected := selectedItems p in
  if (length selected =? 0)%nat
  then setStatus (js "No suggestions selected to copy") p
  else
    match outcome with
    | ClipWritten =>
        setStatus (done (length selected))
          {| p_suggestions := p_suggestions p; p_deselected := p_deselected p;
             p_ignored := p_ignored p; p_rows := p_rows p; p_found := p_found p;
             p_selected := p_selected p; p_status := p_status p;
             p_open := p_open p; p_clipboard := Some (build selected);
             p_store := p_store p;
             p_location := p_location p |}
    | ClipRejected message =>
        setStatus (js "Copy failed: " ++ default unknownError (orNull message)) p
    end.

Definition onCopy (outcome : ClipboardOutcome) (p : Panel') : Panel' :=
  copySelection (buildPrompt (currentHref p))
    (fun n => js "Copied " ++ numberToString (Z.of_nat n)
                ++ js " suggestion(s) to clipboard") outcome p.

Definition onCopyMd (outcome : ClipboardOutcome) (p : Panel') : Panel' :=
  copySelection (buildMarkdown (currentHref p))
    (fun n => js "Copied MD for " ++ numberToString (Z.of_nat n)
                ++ js " suggestion(s)") outcome p.

Definition onCopyJson (outcome : ClipboardOutcome) (p : Panel') : Panel' :=
  copySelection (buildJSON (currentHref p))
    (fun n => js "Copied JSON for " ++ numberToString (Z.of_nat n)
                ++ js " suggestion(s)") outcome p.

(** [state.setSuggestions(arr)] *)
Definition setSuggestions (arr : list Suggestion) (p : Panel') : Panel' :=
  renderList
    {| p_suggestions := arr; p_deselected := p_deselected p;
       p_ignored := p_ignored p; p_rows := p_rows p; p_found := p_found p;
       p_selected := p_selected p; p_status := p_status p; p_open := p_open p;
       p_clipboard := p_clipboard p; p_store := p_store p;
       p_location := p_location p |}.

(** The function [state.refresh] debounces. *)
Definition refresh (page : Page) (p : Panel') : Panel' :=
  let arr := extractAllSuggestions page in
  setStatus (js "Found " ++ numberToString (Z.of_nat (length arr))
               ++ js " suggestion(s)")
    (setSuggestions arr p).

Definition togglePanel (p : Panel') : Panel' :=
  {| p_suggestions := p_suggestions p; p_deselected := p_deselected p;
     p_ignored := p_ignored p; p_rows := p_rows p; p_found := p_found p;
     p_selected := p_selected p; p_status := p_status p;
     p_open := negb (p_open p);
     p_clipboard := p_clipboard p; p_store := p_store p;
     p_location := p_location p |}.

Definition openPanel (p : Panel') : Panel' :=
  {| p_suggestions := p_suggestions p; p_deselected := p_deselected p;
     p_ignored := p_ignored p; p_rows := p_rows p; p_found := p_found p;
     p_selected := p_selected p; p_status := p_status p; p_open := true;
     p_clipboard := p_clipboard p; p_store := p_store p;
     p_location := p_location p |}.

(** [Array.isArray(msg.ids) ? msg.ids : []], then
    [state.suggestions.filter((s) => ids.includes(s.id))]. *)
Definition itemsWithIds (ids : option (list json)) (p : Panel')
  : list Suggestion :=
  List.filter (fun s => setHas (JString (sg_id s)) (default [] ids))
              (p_suggestions p).

(** The answer to [CRTP_QUERY]. *)
Definition queryAnswer (p : Panel') : QueryInfo :=
  let suggestions := visibleItems p in
  let selectedIds :=
    map sg_id (List.filter (fun s => negb (isDeselected p s)) suggestions) in
  {| qi_isPR := isPRPage (currentPathname p);
     qi_hasCRTP := true;
     qi_found := length suggestions;
     qi_selected := length selectedIds;
     qi_suggestions := suggestions;
     qi_selectedIds := selectedIds |}.

(** The listener of [chrome.runtime.onMessage]: the next state and the
    object given to [sendResponse], if the listener calls it. A refresh is
    only asked for: its run is the event [RefreshFired]. The panel exists
    when the listener is added ([UI.mount()] has run), so [togglePanel] and
    [openPanel] do not throw. *)
Definition onMessage (msg : Message) (p : Panel') : Panel' * option Response :=
  match msg with
  | CRTP_QUERY => (p, Some (RQuery (queryAnswer p)))
  | CRTP_REFRESH => (p, Some (ROk true))
  | CRTP_TOGGLE_PANEL => (togglePanel p, Some (ROk true))
  | CRTP_OPEN_PANEL => (openPanel p, Some (ROk true))
  | CRTP_BUILD_PROMPT ids =>
      (p, Some (RPrompt (buildPrompt (currentHref p) (itemsWithIds ids p))))
  | CRTP_BUILD_MARKDOWN ids =>
      (p, Some (RMarkdown (buildMarkdown (currentHref p) (itemsWithIds ids p))))
  | CRTP_BUILD_JSON ids =>
      (p, Some (RJson (buildJSON (currentHref p) (itemsWithIds ids p))))
  | OtherMessage => (p, None)
  end.

(** [window.__CRTP__.getSelectedIds()] *)
Definition getSelectedIds (p : Panel') : list jsstring :=
  List.filter (fun id => negb (setHas (JString id) (p_deselected p)))
              (map sg_id (visibleItems p)).

(** [renderPanel()]: the panel is built anew, with an empty status line. *)
Definition renderPanel (p : Panel') : Panel' :=
  renderList (renderHeaderInfo (setStatus [] p)).

(** The sets of [UI] as they are read from the store when the script
    starts at the address [loc], and [UI.mount()] on the page, where
    [state.suggestions] is still empty. *)
Definition mount (loc : Location) (st : St) : Panel' :=
  let deselected :=
    match getDeselectedSet (loc_origin loc) (loc_pathname loc) st with
    | Ok s => s
    | Throw => []
    end in
  let ignored :=
    match getIgnoredSet (loc_origin loc) (loc_pathname loc) st with
    | Ok s => s
    | Throw => []
    end in
  renderHeaderInfo
    (renderPanel
       {| p_suggestions := []; p_deselected := deselected; p_ignored := ignored;
          p_rows := []; p_found := 0; p_selected := 0; p_status := [];
          p_open := false; p_clipboard := None; p_store := st;
          p_location := loc |}).

(** The page moves to another address of the same origin: the closures
    keep what they hold, and read the new address from then on. *)
Definition navigate (path url : jsstring) (p : Panel') : Panel' :=
  {| p_suggestions := p_suggestions p; p_deselected := p_deselected p;
     p_ignored := p_ignored p; p_rows := p_rows p; p_found := p_found p;
     p_selected := p_selected p; p_status := p_status p; p_open := p_open p;
     p_clipboard := p_clipboard p; p_store := p_store p;
     p_location := {| loc_origin := currentOrigin p; loc_pathname := path;
                      loc_href := url |} |}.

(** The listeners of [turbo:load] and of [pjax:end]: a refresh is asked
    for, whose run is the event [RefreshFired]. *)
Definition onNavigationEnd (p : Panel') : Panel' := p.

(** The listener of [popstate]: on a pull-request page [UI.mount()]
    returns at once, the panel being there, and a refresh is asked for. *)
Definition onPopState (p : Panel') : Panel' :=
  if isPRPage (currentPathname p) then p else p.

(** One event of the panel. *)
Definition step (e : PanelEvent) (p : Panel') : Panel' :=
  match e with
  | Navigated path url => navigate path url p
  | TurboLoad => onNavigationEnd p
  | PjaxEnd => onNavigationEnd p
  | PopState => onPopState p
  | RefreshFired page => refresh page p
  | CheckboxChanged k => onCheckboxChange k p
  | SkipClicked k => onIgnoreClick k p
  | SelectAllClicked => onSelectAll p
  | RefreshClicked => setStatus (js "Refreshing" ++ ellipsis) p
  | CopyClicked outcome => onCopy outcome p
  | CopyMdClicked outcome => onCopyMd outcome p
  | CopyJsonClicked outcome => onCopyJson outcome p
  | MessageReceived msg => fst (onMessage msg p)
  end.

(** The panel after the events [es], the first one first. *)
Definition run (es : list PanelEvent) (p : Panel') : Panel' :=
  fold_left (fun q e => step e q) es p.

End PanelScript.

(** ** The extension pages: what they see of the browser *)

(** A tab as [chrome.tabs] describes it. *)
Record Tab := {
  tab_id : option Z;
  tab_url : option jsstring
}.

(** What a call of [chrome.tabs.sendMessage] with a callback comes to: the
    call throws, or the callback runs with [chrome.runtime.lastError] set
    (nobody answered), or it runs with the answer ([None] when
    [sendResponse] was given nothing). *)
Inductive SendOutcome :=
| SendThrows
| SendLastError
| SendAnswered (resp : option Response).

(** The browser over a state [W]: messages to a tab, timers, the tab
    query ([None] when [chrome.tabs.query] is missing; the call may throw,
    or give no list), script injection ([None] when
    [chrome.scripting.executeScript] is missing) and the clipboard. *)
Class Browser (W : Type) := {
  tabsSendMessage : W -> option Z -> Message -> W * SendOutcome;
  sleepFor : W -> nat -> W;
  tabsQuery : W -> option (result (option (list Tab)));
  executeScript : option (W -> option Z -> W);
  clipboardWrite : W -> jsstring -> W * ClipboardOutcome
}.

(** A number in a condition, for a tab identifier. *)
Definition truthyId (id : option Z) : bool := truthyNumber id.

Module Background.
Section Worker.
Context {W : Type} `{Browser W}.

(** [sendMessageSafe(tabId, message)]: the answer, [{}] in place of an
    answer that is [undefined] or [null], and [None] for the [null] the
    promise is resolved with after an error. Every answer is an object. *)
Definition sendMessageSafe (w : W) (tabId : option Z) (message : Message)
  : W * option (option Response) :=
  match tabsSendMessage w tabId message with
  | (w', SendThrows) => (w', None)
  | (w', SendLastError) => (w', None)
  | (w', SendAnswered resp) => (w', Some resp)
  end.

(** An object is truthy, [null] is not. *)
Definition answered (resp : option (option Response)) : bool :=
  match resp with
  | Some _ => true
  | None => false
  end.

Definition toggleOrOpenPanel (w : W) (tabId : option Z) : W * bool :=
  let '(w, toggleResp) := sendMessageSafe w tabId CRTP_TOGGLE_PANEL in
  if answered toggleResp then (w, true)
  else
    let '(w, openResp) := sendMessageSafe w tabId CRTP_OPEN_PANEL in
    if answered openResp then (w, true)
    else
      let '(w, refreshResp) := sendMessageSafe w tabId CRTP_REFRESH in
      if answered refreshResp then
        let w := sleepFor w 200 in
        let '(w, openAfterRefresh) := sendMessageSafe w tabId CRTP_OPEN_PANEL in
        if answered openAfterRefresh then (w, true) else (w, false)
      else (w, false).

(** [handleActionClicked(clickedTab)]: the world after it, and what
    [toggleOrOpenPanel] returned if it was called. *)
Definition handleActionClicked (w : W) (clickedTab : option Tab)
  : W * option bool :=
  let tabId := match clickedTab with
               | Some tab => if truthyId (tab_id tab) then tab_id tab else None
               | None => None
               end in
  let tabId :=
    if truthyId tabId then tabId
    else
      match tabsQuery w with
      | Some (Ok (Some (tab :: _))) => tab_id tab
      | _ => tabId
      end in
  if truthyId tabId
  then let '(w, r) := toggleOrOpenPanel w tabId in (w, Some r)
  else (w, None).

End Worker.
End Background.

Module Popup.

(** What the popup shows. *)
Record View := {
  v_status : jsstring;
  v_countsShown : bool;
  v_found : jsstring;
  v_selected : jsstring;
  v_initShown : bool;
  v_refreshShown : bool;
  v_copyShown : bool;
  v_copyDisabled : bool
}.

(** The variables of the popup and its view. *)
Record State := {
  lastSuggestions : list Suggestion;
  lastSelectedIds : list jsstring;
  view : View
}.

(** The popup as its markup draws it. *)
Definition initial : State :=
  {| lastSuggestions := [];
     lastSelectedIds := [];
     view := {| v_status := js "Loading" ++ ellipsis; v_countsShown := false;
                v_found := js "0"; v_selected := js "0";
                v_initShown := false; v_refreshShown := false;
                v_copyShown := false; v_copyDisabled := false |} |}.

(** [updateUI(info)]; [None] stands for an [info] that is missing or whose
    [isPR] is not truthy. *)
Definition updateUI (info : option QueryInfo) (v : View) : View :=
  match info with
  | Some i =>
      if qi_isPR i then
        {| v_status := if qi_hasCRTP i then []
                       else js "Click Initialize to load the page helper.";
           v_countsShown := true;
           v_found := numberToString (Z.of_nat (qi_found i));
           v_selected := numberToString (Z.of_nat (qi_selected i));
           v_initShown := negb (qi_hasCRTP i);
           v_refreshShown := true;
           v_copyShown := true;
           v_copyDisabled := (qi_found i =? 0)%nat |}
      else
        {| v_status := js "Open a GitHub PR page to use this extension.";
           v_countsShown := false;
           v_found := v_found v; v_selected := v_selected v;
           v_initShown := false; v_refreshShown := false;
           v_copyShown := false; v_copyDisabled := v_copyDisabled v |}
  | None =>
      {| v_status := js "Open a GitHub PR page to use this extension.";
         v_countsShown := false;
         v_found := v_found v; v_selected := v_selected v;
         v_initShown := false; v_refreshShown := false;
         v_copyShown := false; v_copyDisabled := v_copyDisabled v |}
  end.

(** The answer as the callbacks of [queryInfo] read it: an answer that is
    no answer to [CRTP_QUERY] has none of the fields they look for. *)
Definition infoOf (out : SendOutcome) : option QueryInfo :=
  match out with
  | SendAnswered (Some (RQuery i)) => Some i
  | _ => None
  end.

(** [chrome.runtime.lastError || !info] *)
Definition failed (out : SendOutcome) : bool :=
  match out with
  | SendAnswered (Some _) => false
  | _ => true
  end.

Definition reset (s : State) : State :=
  {| lastSuggestions := []; lastSelectedIds := [];
     view := updateUI None (view s) |}.

(** The last branch of the callbacks of [queryInfo]: the answer is kept. *)
Definition keep (out : SendOutcome) (s : State) : State :=
  match infoOf out with
  | Some i =>
      {| lastSuggestions := qi_suggestions i;
         lastSelectedIds := qi_selectedIds i;
         view := updateUI (Some i) (view s) |}
  | None =>
      {| lastSuggestions := []; lastSelectedIds := [];
         view := updateUI None (view s) |}
  end.

(** [buildPrompt(prUrl, items)] of the popup. *)
Definition promptItem (idx : nat) (s : Suggestion) : jsstring :=
  join newline
    (filterBoolean
       [ Some (js "#" ++ numberToString (Z.of_nat idx + 1) ++ js " " ++ sg_summary s);
         if jsstring_eqb (sg_text s) (sg_summary s) then None
         else Some (js "Details:" ++ newline ++ sg_text s);
         if isEmpty (sg_sourceUrl s) then None
         else Some (js "Source: " ++ sg_sourceUrl s);
         Some [] ]).

Definition buildPrompt (prUrl : option jsstring) (items : list Suggestion)
  : jsstring :=
  let header :=
    join newline
      (filterBoolean
         [ Some (js "Task: Apply the following review suggestions from GitHub Copilot to the codebase in this PR.");
           (fun u => js "PR: " ++ u) <$> orNull prUrl;
           Some (js "Instructions:");
           Some (js "- For each item, implement the change described.");
           Some (js "- If multiple files are impacted, update all relevant locations.");
           Some (js "- Preserve existing behavior unless a change is explicitly requested.");
           Some [] ]) in
  header ++ newline ++ join newline (imap promptItem items).

Section Page.
Context {W : Type} `{Browser W}.

Definition setStatus (text : jsstring) (s : State) : State :=
  {| lastSuggestions := lastSuggestions s;
     lastSelectedIds := lastSelectedIds s;
     view := {| v_status := text; v_countsShown := v_countsShown (view s);
                v_found := v_found (view s); v_selected := v_selected (view s);
                v_initShown := v_initShown (view s);
                v_refreshShown := v_refreshShown (view s);
                v_copyShown := v_copyShown (view s);
                v_copyDisabled := v_copyDisabled (view s) |} |}.

(** [queryInfo(tabId, cb)] up to the call of [cb]. A call of
    [chrome.tabs.sendMessage] that throws ends the listener there. *)
Definition queryInfo (w : W) (tabId : option Z) (s : State) : W * State :=
  match tabsSendMessage w tabId CRTP_QUERY with
  | (w1, SendThrows) => (w1, s)
  | (w1, out) =>
      if failed out then
        match executeScript with
        | Some inject =>
            match tabsSendMessage (inject w1 tabId) tabId CRTP_QUERY with
            | (w2, SendThrows) => (w2, s)
            | (w2, out2) =>
                if failed out2 then (w2, reset s) else (w2, keep out2 s)
            end
        | None => (w1, reset s)
        end
      else (w1, keep out s)
  end.

(** The status line after a write to the clipboard. *)
Definition afterWrite (count : nat) (outcome : ClipboardOutcome) (s : State)
  : State :=
  match outcome with
  | ClipWritten =>
      setStatus (js "Copied " ++ numberToString (Z.of_nat count)
                   ++ js " suggestion(s).") s
  | ClipRejected message =>
      setStatus (js "Copy failed: " ++ default unknownError (orNull message)) s
  end.

Definition copySelectedPrompt (w : W) (tab : Tab) (s : State) : W * State :=
  let ids := lastSelectedIds s in
  if (length ids =? 0)%nat then
    if (0 <? length (lastSuggestions s))%nat then
      let prompt := buildPrompt (tab_url tab) (lastSuggestions s) in
      let '(w1, outcome) := clipboardWrite w prompt in
      (w1, afterWrite (length (lastSuggestions s)) outcome s)
    else (w, setStatus (js "No suggestions available to copy.") s)
  else
    match tabsSendMessage w (tab_id tab)
                          (CRTP_BUILD_PROMPT (Some (map JString ids))) with
    | (w1, SendAnswered (Some (RPrompt (c :: prompt)))) =>
        let '(w2, outcome) := clipboardWrite w1 (c :: prompt) in
        (w2, afterWrite (length ids) outcome s)
    | (w1, SendThrows) => (w1, s)
    | (w1, _) => (w1, setStatus (js "Copy failed: unable to build prompt.") s)
    end.

End Page.
End Popup.

(* ===================================================================== *)
(** * Part II: vocabulary of the statements and sample inputs            *)
(* ===================================================================== *)

(** Neither the first nor the last code unit of [s] satisfies [p]. *)
Definition cleanEnds (p : N -> bool) (s : jsstring) : Prop :=
  (forall c, head s = Some c -> p c = false)
  /\ (forall c, last s = Some c -> p c = false).

(** An item of the segmenter: not empty, no white space at its ends. *)
Definition cleanItem (t : jsstring) : Prop :=
  cleanEnds isWhiteSpace t /\ t <> [].

(** The outputs of the three structured strategies, one after the other. *)
Definition strategyItems `{Platform} (commentRoot : CommentView) : list jsstring :=
  match c_body commentRoot with
  | None => []
  | Some body =>
      extractListItems body ++ extractPatternLines body
        ++ extractSuggestedChangeBlocks body
  end.

(** The number whose digits in base [base], least significant first, are
    [ds]. *)
Fixpoint digitsValue (base : N) (ds : list N) : N :=
  match ds with
  | [] => 0
  | d :: r => d + base * digitsValue base r
  end.

(** All the fields of two suggestions agree, but for their texts. *)
Definition sameButText (a b : Suggestion) : Prop :=
  sg_id a = sg_id b /\ sg_summary a = sg_summary b
  /\ sg_sourceUrl a = sg_sourceUrl b /\ sg_isCopilot a = sg_isCopilot b
  /\ sg_filePath a = sg_filePath b /\ sg_lineStart a = sg_lineStart b
  /\ sg_lineEnd a = sg_lineEnd b /\ sg_codeMentioned a = sg_codeMentioned b
  /\ sg_reviewText a = sg_reviewText b
  /\ sg_suggestedChange a = sg_suggestedChange b.

(** The result of a string parser once the code unit [c] is put in front
    of the string it read. *)
Definition consParsed (c : N) (r : option (jsstring * jsstring))
  : option (jsstring * jsstring) :=
  match r with
  | Some (str, rest) => Some (c :: str, rest)
  | None => None
  end.

(** What may follow a value in a JSON text: the end, a comma, a closing
    bracket or a line break. *)
Definition delimited (rest : jsstring) : Prop :=
  match rest with
  | [] => True
  | c :: _ => c = 44 \/ c = 93 \/ c = 125 \/ c = 10
  end.

(** The parser reads the text of [v] back, whatever the gap and the
    indentation, after white space and before a delimiter, with a fuel
    above the length of that text. *)
Definition roundTrips (v : json) : Prop :=
  forall (gap indent fuel : nat) (pre rest : jsstring),
    forallb isJsonSpace pre = true -> delimited rest ->
    (length (serialize gap indent v) < fuel)%nat ->
    parseValue fuel (pre ++ serialize gap indent v ++ rest) = Some (v, rest).

(** The text of a value starts with a code unit that is no white space and
    no delimiter. *)
Definition opensValue (c : N) : Prop :=
  isJsonSpace c = false /\ c <> 93 /\ c <> 125 /\ c <> 44.

(** The members every record of [buildJSON] has, in this order. *)
Definition recordKeys : list jsstring :=
  [js "id"; js "filePath"; js "lineStart"; js "lineEnd"; js "summary";
   js "codeMentioned"; js "reviewText"; js "suggestedChange"; js "sourceUrl"].

(** The names of the members of a parsed object. *)
Definition memberNames (v : json) : list jsstring :=
  match v with
  | JObject members => fst <$> members
  | _ => []
  end.

(** The first occurrence of every key, in the order of the list: the head
    stays, and the elements sharing its key leave the rest. *)
Fixpoint nubBy {K : Type} `{EqDecision K} (key : jsstring -> K)
         (l : list jsstring) : list jsstring :=
  match l with
  | [] => []
  | x :: r => x :: List.filter (fun y => negb (bool_decide (key y = key x))) (nubBy key r)
  end.

(** A frame whose only line evidence is the text of the line-range element. *)
Definition frameWithLineText (text : jsstring) : FrameView :=
  {| f_id := js "review-thread-or-comment-id-1";
     f_outerHTML := [];
     f_specificFileLink := None;
     f_dataPath := None;
     f_fileLink := None;
     f_anyPathy := None;
     f_specificLineDiv := Some text;
     f_dataLineNumbers := [];
     f_blobNums := [];
     f_lineAnchors := [];
     f_codeTable := None;
     f_comments := [] |}.

(** A comment body that is one paragraph of prose. *)
Definition plainBody (text : jsstring) : BodyView :=
  {| body_text := text;
     body_listItems := [];
     body_details := [];
     body_tables := [];
     body_pres := [];
     body_code := None |}.

(** A comment whose body is [body], signed by the author named [author]. *)
Definition commentOf (author : jsstring) (body : BodyView) : CommentView :=
  {| c_body := Some body;
     c_prose := Some (body_text body);
     c_author := Some (author, None);
     c_botBadge := None;
     c_timestampLink := None;
     c_headerLink := None |}.

(** A comment body whose list items are [items], with [text] as its text. *)
Definition listBody (text : jsstring) (items : list jsstring) : BodyView :=
  {| body_text := text;
     body_listItems := items;
     body_details := [];
     body_tables := [];
     body_pres := [];
     body_code := None |}.

(** A review thread on the lines 42 to 45 of a file, holding [comments]. *)
Definition threadOf (id : jsstring) (comments : list CommentView) : FrameView :=
  {| f_id := id;
     f_outerHTML := [];
     f_specificFileLink := Some (js "src/app.js");
     f_dataPath := None;
     f_fileLink := None;
     f_anyPathy := None;
     f_specificLineDiv := Some (js "Lines 42-45");
     f_dataLineNumbers := [];
     f_blobNums := [];
     f_lineAnchors := [];
     f_codeTable := None;
     f_comments := comments |}.

Definition pageOf (frames : list FrameView) : Page :=
  {| page_href := js "https://github.com/octo/repo/pull/7";
     page_frames := frames |}.

(** A page with two threads; the first comment is a list of two items. *)
Definition samplePage : Page :=
  pageOf
    [ threadOf (js "review-thread-or-comment-id-1")
        [ commentOf (js "Copilot")
            (listBody (js "Use const here. Rename x.")
                      [js "Use const here."; js "Rename x."]) ];
      threadOf (js "review-thread-or-comment-id-2")
        [ commentOf (js "octocat")
            (listBody (js "- Add a test") []) ] ].

(** A thread whose single comment has a sentence of prose and a [details]
    element that folds a list of one item, [item]: the prose of the
    comment, where [details] elements are left out, does not hold it. *)
Definition foldedItemPage (item : jsstring) : Page :=
  pageOf
    [ threadOf (js "review-thread-or-comment-id-1")
        [ {| c_body :=
               Some {| body_text := js "Please fix the name below. Names " ++ item;
                       body_listItems := [item];
                       body_details :=
                         [ {| det_summary := Some (js "Names"); det_code := None |} ];
                       body_tables := [];
                       body_pres := [];
                       body_code := None |};
             c_prose := Some (js "Please fix the name below.");
             c_author := Some (js "Copilot", None);
             c_botBadge := None;
             c_timestampLink := None;
             c_headerLink := None |} ] ].

(** The same thread twice in one document, under one identifier: the
    folded item is [item1] in the first copy and [item2] in the second. *)
Definition twinPage (item1 item2 : jsstring) : Page :=
  pageOf (page_frames (foldedItemPage item1) ++ page_frames (foldedItemPage item2)).

(** A comment that is one list item and nothing else. *)
Definition shortPage : Page :=
  pageOf
    [ threadOf (js "review-thread-or-comment-id-1")
        [ commentOf (js "Copilot") (listBody (js "Rename x.") [js "Rename x."]) ] ].

Definition oldNewDiff : jsstring :=
  js "- old" ++ newline ++ js "+ new".

(** A comment with a sentence of prose and a preformatted diff. *)
Definition diffPage : Page :=
  pageOf
    [ threadOf (js "review-thread-or-comment-id-1")
        [ {| c_body :=
               Some {| body_text := js "Please apply this." ++ newline ++ oldNewDiff;
                       body_listItems := [];
                       body_details := [];
                       body_tables := [];
                       body_pres := [oldNewDiff];
                       body_code := None |};
             c_prose := Some (js "Please apply this.");
             c_author := Some (js "Copilot", None);
             c_botBadge := None;
             c_timestampLink := None;
             c_headerLink := None |} ] ].

(** The parts of an item of the prompt that come before the suggested
    change. *)
Definition promptItemHead (idx : nat) (s : Suggestion) : list (option jsstring) :=
  [ Some (js "#" ++ numberToString (Z.of_nat idx + 1) ++ js " " ++ sg_summary s);
    fileLine s;
    (fun c => js "Code mentioned:" ++ newline ++ c) <$> orNull (sg_codeMentioned s);
    (fun r => js "Review:" ++ newline ++ r) <$> orNull (sg_reviewText s) ].

(** The block of the prompt for the chosen string [c]. *)
Definition prefixedBlock (c : jsstring) : jsstring :=
  if startsWith (js "Suggested") (trim c) then c
  else js "Suggested change:" ++ newline ++ c.

(** A storage area that is full: nothing more fits in its quota. *)
Definition fullStorage : QuotaStorage :=
  {| qs_denied := false; qs_quota := 0; qs_items := ∅ |}.

(** A storage area the page may not touch. *)
Definition deniedStorage : QuotaStorage :=
  {| qs_denied := true; qs_quota := 1000; qs_items := ∅ |}.

(** A storage area whose entry for the deselected ids is not JSON. *)
Definition garbledStorage : QuotaStorage :=
  {| qs_denied := false; qs_quota := 1000;
     qs_items :=
       {[ currentPRKey (js "https://github.com") (js "/octo/repo/pull/7")
            ++ js ":deselected" := js "[oops" ]} |}.

(** A frame with line evidence of every kind. *)
Definition mixedEvidenceFrame : FrameView :=
  {| f_id := js "review-thread-or-comment-id-3";
     f_outerHTML := [];
     f_specificFileLink := None;
     f_dataPath := Some (js " lib/util.js ");
     f_fileLink := None;
     f_anyPathy := None;
     f_specificLineDiv := Some (js "Comment on line 12");
     f_dataLineNumbers := [js "14"; js "n/a"];
     f_blobNums := [js " +9 "; js "..."];
     f_lineAnchors := [js "/octo/repo/pull/7/files#R30"; js "#Lx"];
     f_codeTable :=
       Some {| ct_rows := [Some (js "let x = 1;"); None; Some (js "x += 1;")];
               ct_text := js "unused" |};
     f_comments := [] |}.

(** A comment body that feeds the three strategies of the segmenter. *)
Definition mixedBody : BodyView :=
  {| body_text :=
       js "Some remarks:" ++ newline
       ++ js " - Use const" ++ newline
       ++ js "2. 'use CONST'" ++ newline
       ++ js "Fix: rename the helper" ++ newline
       ++ js "update- " ++ newline
       ++ js "12.5 is wrong";
     body_listItems := [js " Use const "; js "   "; js "Add a test"];
     body_details :=
       [ {| det_summary := Some (js "Suggested change"); det_code := Some (js " x = 1 ") |};
         {| det_summary := Some (js "Details"); det_code := Some (js "y = 2") |} ];
     body_tables :=
       [ [ {| tr_hasDeletion := true; tr_hasAddition := false; tr_cell := Some (js "old();") |};
           {| tr_hasDeletion := false; tr_hasAddition := true; tr_cell := Some (js "fresh();") |};
           {| tr_hasDeletion := false; tr_hasAddition := false; tr_cell := None |};
           {| tr_hasDeletion := false; tr_hasAddition := false; tr_cell := Some (js "done();") |} ] ];
     body_pres := [js "@@ -1 +1 @@"; js "plain words"];
     body_code := None |}.

(** A sentence of 70 code units that ends with a full stop, then 100 more
    code units without one. *)
Definition longSentence : jsstring :=
  repeat 97 69 ++ [46] ++ repeat 32 3 ++ repeat 98 100.

(** The paragraph the release notes give as a comment that was missed. *)
Definition labelParagraph : jsstring :=
  js "The label elements at lines 67 and 68 create nested labels, which is invalid HTML.".

(** ** Vocabulary of the further properties *)

(** The path of a pull request, or of a page under it. *)
Definition prPath (owner repo number tail : jsstring) : jsstring :=
  [47] ++ owner ++ [47] ++ repo ++ js "/pull/" ++ number ++ tail.

(** A digit of base 36 as [toString(36)] writes it. *)
Definition isBase36 (c : N) : bool := isDigit c || ((97 <=? c) && (c <=? 122)).

(** The comment [commentRoot] with [badge] as its bot badge. *)
Definition withBotBadge (badge : option jsstring) (commentRoot : CommentView)
  : CommentView :=
  {| c_body := c_body commentRoot;
     c_prose := c_prose commentRoot;
     c_author := c_author commentRoot;
     c_botBadge := badge;
     c_timestampLink := c_timestampLink commentRoot;
     c_headerLink := c_headerLink commentRoot |}.

(** A field that is absent, or a clean item. *)
Definition cleanField (x : option jsstring) : Prop :=
  forall t, x = Some t -> cleanItem t.

(** Every white-space code unit of [s] is a space, and none comes right
    after another one; [prevSpace] tells whether the code unit before the
    head of [s] is white space. *)
Fixpoint singleSpaced (prevSpace : bool) (s : jsstring) : bool :=
  match s with
  | [] => true
  | c :: r =>
      if isWhiteSpace c
      then (c =? 32) && negb prevSpace && singleSpaced true r
      else singleSpaced false r
  end.

(** The heads of a line that the pattern of [extractPatternLines] knows: a
    dash, a star, a number and a full stop, or one of the keywords, in
    upper or lower case, and a colon or a dash. *)
Definition lineHead (head : jsstring) : Prop :=
  head = js "-" \/ head = js "*"
  \/ (exists n, head = toRadix 10 n ++ js ".")
  \/ (exists word k sep,
        k ∈ suggestionKeywords /\ map foldCase word = k
        /\ (sep = 58 \/ sep = 45) /\ head = word ++ [sep]).

(** A full stop of [t] where [summarize] may cut: at a position from 60
    on, and before the position 140. *)
Definition sentenceEndAt (t : jsstring) (k : nat) : Prop :=
  (60 <= k < 140)%nat /\ t !! k = Some 46.

(** The record [s] without its empty optional strings. *)
Definition withoutEmptyFields (s : Suggestion) : Suggestion :=
  {| sg_id := sg_id s;
     sg_text := sg_text s;
     sg_summary := sg_summary s;
     sg_sourceUrl := sg_sourceUrl s;
     sg_isCopilot := sg_isCopilot s;
     sg_filePath := orNull (sg_filePath s);
     sg_lineStart := sg_lineStart s;
     sg_lineEnd := sg_lineEnd s;
     sg_codeMentioned := orNull (sg_codeMentioned s);
     sg_reviewText := orNull (sg_reviewText s);
     sg_suggestedChange := orNull (sg_suggestedChange s) |}.

(** A frame whose code table has no code cell and no text. *)
Definition blankTableFrame : FrameView :=
  {| f_id := js "review-thread-or-comment-id-4";
     f_outerHTML := [];
     f_specificFileLink := None;
     f_dataPath := None;
     f_fileLink := None;
     f_anyPathy := None;
     f_specificLineDiv := None;
     f_dataLineNumbers := [];
     f_blobNums := [];
     f_lineAnchors := [];
     f_codeTable := Some {| ct_rows := [None]; ct_text := js "  " |};
     f_comments := [] |}.

(** No element of [l] is the same value as one before it: [l] is the list
    of the elements of a [Set]. *)
Fixpoint isSet (l : list json) : bool :=
  match l with
  | [] => true
  | x :: r => negb (setHas x r) && isSet r
  end.

(** What the panel shows is what its state holds: the two pills count the
    items that are not ignored and those that are selected, and the rows
    are the items that are not ignored. *)
Definition headerInSync {St : Type} (p : Panel St) : Prop :=
  p_found p = length (visibleItems p)
  /\ p_selected p = length (selectedItems p).

Definition rowsInSync {St : Type} (p : Panel St) : Prop :=
  map row_item (p_rows p) = visibleItems p.

(** Every check box is ticked exactly when its item is not deselected. *)
Definition boxesAgree {St : Type} (p : Panel St) : Prop :=
  Forall (fun row => row_checked row = negb (isDeselected p (row_item row)))
         (p_rows p).

(** The frames of the document a refresh reads have identifiers of their
    own. *)
Definition distinctFrames (e : PanelEvent) : Prop :=
  match e with
  | RefreshFired page => NoDup (frameIdOf <$> page_frames page)
  | _ => True
  end.

(** The rows are drawn for the state and the suggestions have ids of their
    own. *)
Definition tidy {St : Type} (p : Panel St) : Prop :=
  boxesAgree p /\ rowsInSync p /\ NoDup (sg_id <$> p_suggestions p).

(** The store holds the two sets of the panel under the keys of the
    address the page has. *)
Definition setsPersisted {St : Type} `{StorageArea St} (p : Panel St) : Prop :=
  getDeselectedSet (currentOrigin p) (currentPathname p) (p_store p)
  = Ok (p_deselected p)
  /\ getIgnoredSet (currentOrigin p) (currentPathname p) (p_store p)
     = Ok (p_ignored p)
  /\ isSet (p_deselected p) = true /\ isSet (p_ignored p) = true.

(** The event [e] leaves the page on the path [path]: a move changes at
    most what follows the path in the address. *)
Definition staysAt (path : jsstring) (e : PanelEvent) : Prop :=
  match e with
  | Navigated pathname _ => pathname = path
  | _ => True
  end.

(** A store that takes every entry, gives it back, and leaves the other
    entries alone. *)
Definition reliable (St : Type) `{StorageArea St} : Prop :=
  forall st key value,
    exists st', setItem st key value = Ok st'
                /\ getItem st' key = Ok (Some value)
                /\ (forall key', key' <> key ->
                      getItem st' key' = getItem st key').

(** A store without quota. *)
#[export] Instance plainStorageArea : StorageArea (gmap jsstring jsstring) := {
  getItem st key := Ok (st !! key);
  setItem st key value := Ok (<[ key := value ]> st)
}.

(** The panel [p] with [text] on the clipboard. *)
Definition withClipboard {St : Type} (text : jsstring) (p : Panel St) : Panel St :=
  {| p_suggestions := p_suggestions p; p_deselected := p_deselected p;
     p_ignored := p_ignored p; p_rows := p_rows p; p_found := p_found p;
     p_selected := p_selected p; p_status := p_status p; p_open := p_open p;
     p_clipboard := Some text; p_store := p_store p;
     p_location := p_location p |}.

(** The browser as the extension pages see it when the tab [tabId] runs
    the content script on a pull-request page and is the active tab: the
    state of the browser is the state of that script, a message to the tab
    goes to its listener, a message to another tab finds nobody, nothing
    happens on the page while a timer runs, no script can be injected, and
    the clipboard takes every text. *)
Definition contentTab {St : Type} (tabId : Z) : Browser (Panel St) := {|
  tabsSendMessage w target msg :=
    if bool_decide (target = Some tabId) then
      match onMessage msg w with
      | (w', Some resp) => (w', SendAnswered (Some resp))
      | (w', None) => (w', SendLastError)
      end
    else (w, SendLastError);
  sleepFor w ms := w;
  tabsQuery w :=
    Some (Ok (Some [ {| tab_id := Some tabId; tab_url := Some (currentHref w) |} ]));
  executeScript := None;
  clipboardWrite w text := (withClipboard text w, ClipWritten)
|}.

(** The location of the sample page. *)
Definition sampleOrigin : jsstring := js "https://github.com".
Definition samplePath : jsstring := js "/octo/repo/pull/7".
Definition sampleLocation : Location :=
  {| loc_origin := sampleOrigin; loc_pathname := samplePath;
     loc_href := page_href samplePage |}.

(** The panel of the script once it has read the sample page, over an
    empty store without quota. *)
Definition samplePanel : Panel (gmap jsstring jsstring) :=
  run (H0 := asciiPlatform) [RefreshFired samplePage] (mount sampleLocation ∅).

(** A comment with a sentence of prose, a list of two items and a
    preformatted diff. *)
Definition reviewedComment : CommentView :=
  {| c_body :=
       Some {| body_text := js "Please apply this. Use const. Rename x."
                              ++ newline ++ oldNewDiff;
               body_listItems := [js "Use const."; js "Rename x."];
               body_details := [];
               body_tables := [];
               body_pres := [oldNewDiff];
               body_code := None |};
     c_prose := Some (js "Please apply this.");
     c_author := Some (js "Copilot", None);
     c_botBadge := None;
     c_timestampLink := None;
     c_headerLink := None |}.

(** A comment with a sentence of prose, a preformatted line that is no
    diff and an inline piece of code. *)
Definition snippetComment : CommentView :=
  {| c_body :=
       Some {| body_text := js "Declare it first. const x = 1; Then use x.";
               body_listItems := [];
               body_details := [];
               body_tables := [];
               body_pres := [js " const x = 1; "];
               body_code := Some (js "x") |};
     c_prose := Some (js "Declare it first. Then use.");
     c_author := Some (js "Copilot", None);
     c_botBadge := None;
     c_timestampLink := None;
     c_headerLink := None |}.

(** One call of an extension page to the browser: a message to a tab and
    whether it was answered, a wait, an injection of the content script. *)
Inductive BrowserCall :=
| CallSend (tabId : option Z) (msg : Message) (answered : bool)
| CallSleep (ms : nat)
| CallInject (tabId : option Z).

(** Whether the callback of a send finds an answer. *)
Definition isAnswered (out : SendOutcome) : bool :=
  match out with
  | SendAnswered _ => true
  | _ => false
  end.

(** The browser [B] with a record of the calls made to it. *)
Definition recording {W : Type} (B : Browser W) : Browser (W * list BrowserCall) := {|
  tabsSendMessage wl tabId msg :=
    let r := @tabsSendMessage W B (fst wl) tabId msg in
    ((fst r, snd wl ++ [CallSend tabId msg (isAnswered (snd r))]), snd r);
  sleepFor wl ms := (@sleepFor W B (fst wl) ms, snd wl ++ [CallSleep ms]);
  tabsQuery wl := @tabsQuery W B (fst wl);
  executeScript :=
    match @executeScript W B with
    | Some inject =>
        Some (fun wl tabId => (inject (fst wl) tabId, snd wl ++ [CallInject tabId]))
    | None => None
    end;
  clipboardWrite wl text :=
    let r := @clipboardWrite W B (fst wl) text in ((fst r, snd wl), snd r)
|}.

(** In the steps [steps], that follow the step [before], every run of [fn]
    comes right after a call, with the arguments of that call. *)
Fixpoint runsFollowCalls {A : Type} (before : option (DebounceStep A))
         (steps : list (DebounceStep A)) : Prop :=
  match steps with
  | [] => True
  | Called args :: r => runsFollowCalls (Some (Called args)) r
  | Ran args :: r =>
      before = Some (Called args) /\ runsFollowCalls (Some (Ran args)) r
  end.

(** The closure holds no timer, or the one timer of its last call, which
    no step has followed yet. *)
Definition oneTimer {A : Type} (before : option (DebounceStep A))
           (d : Debounced A) : Prop :=
  db_timers d = []
  \/ exists id args, db_timers d = [(id, args)] /\ db_t d = Some id
                     /\ (id < db_nextId d)%nat /\ before = Some (Called args).

(* ===================================================================== *)
(** * Part III: properties                                                *)
(* ===================================================================== *)

(** ** Line range locator *)


Example lines_dash_format :
  findLineRangeInFrame (frameWithLineText (js "Lines 42-45"))
  = {| lineStart := Some 42%Z; lineEnd := Some 45%Z |}.
Proof. vm_compute. reflexivity. Qed.

Example mixed_evidence_range :
  findLineRangeInFrame mixedEvidenceFrame
  = {| lineStart := Some 9%Z; lineEnd := Some 30%Z |}
  /\ findFilePathInFrame mixedEvidenceFrame = Some (js "lib/util.js")
  /\ findCodeMentionedInFrame mixedEvidenceFrame
     = Some (js "let x = 1;" ++ newline ++ js "x += 1;").
Proof. repeat split; vm_compute; reflexivity. Qed.

Example parseInt_samples :
  parseInt (js " +67") = Some 67%Z /\ parseInt (js "-5px") = Some (-5)%Z
  /\ parseInt (js "42-45") = Some 42%Z /\ parseInt (js "+") = None
  /\ parseInt (js "n/a") = None.
Proof. repeat split; reflexivity. Qed.

Example single_line_format :
  findLineRangeInFrame (frameWithLineText (js "Line 7"))
  = {| lineStart := Some 7%Z; lineEnd := Some 7%Z |}.
Proof. vm_compute. reflexivity. Qed.

Lemma matchLines_plus_format :
  matchLines (js "Comment on lines +67 to +87") = None.
Proof. vm_compute. reflexivity. Qed.

(** C1: on the line-range text "Comment on lines +67 to +87" with no other
    line evidence, [findLineRangeInFrame] finds no number at all: the
    pattern [/Lines?\s+(\d+)(?:-(\d+))?/i] wants a digit right after the
    white space and meets the [+], so both fields are [null] where the
    release notes promise 67 and 87. The frame is arbitrary in every field
    the locator does not read. *)
Theorem findLineRange_plus_format_is_null :
  forall (id html : jsstring) (link path flink pathy : option jsstring)
         (table : option CodeTableView) (comments : list CommentView),
    findLineRangeInFrame
      {| f_id := id; f_outerHTML := html; f_specificFileLink := link;
         f_dataPath := path; f_fileLink := flink; f_anyPathy := pathy;
         f_specificLineDiv := Some (js "Comment on lines +67 to +87");
         f_dataLineNumbers := []; f_blobNums := []; f_lineAnchors := [];
         f_codeTable := table; f_comments := comments |}
    = {| lineStart := None; lineEnd := None |}.
Proof.
  intros. unfold findLineRangeInFrame, lineCandidates. cbn [f_specificLineDiv
    f_dataLineNumbers f_blobNums f_lineAnchors fold_left].
  replace (matchLines (safeText (Some (js "Comment on lines +67 to +87"))))
    with (@None (jsstring * option jsstring)) by (vm_compute; reflexivity).
  rewrite size_empty. reflexivity.
Qed.

Lemma insertSorted_perm (x : Z) (l : list Z) : insertSorted x l ≡ₚ x :: l.
Proof.
  induction l as [|y l IH]; cbn; [done|].
  destruct (x <=? y)%Z; [done|].
  rewrite IH. apply Permutation_swap.
Qed.

Lemma sortNumbers_perm (l : list Z) : sortNumbers l ≡ₚ l.
Proof.
  induction l as [|x l IH]; cbn; [done|].
  rewrite insertSorted_perm. by f_equiv.
Qed.

Lemma insertSorted_sorted (x : Z) (l : list Z) :
  StronglySorted Z.le l -> StronglySorted Z.le (insertSorted x l).
Proof.
  induction 1 as [|y l Hl IH Hy]; cbn.
  - repeat constructor.
  - destruct (Z.leb_spec x y).
    + constructor; [by constructor|].
      constructor; [done|].
      eapply Forall_impl; [exact Hy|]. intros; cbn in *; lia.
    + constructor; [done|].
      rewrite insertSorted_perm. constructor; [lia | done].
Qed.

Lemma sortNumbers_sorted (l : list Z) : StronglySorted Z.le (sortNumbers l).
Proof.
  induction l; cbn; [constructor | by apply insertSorted_sorted].
Qed.

Lemma sorted_head_least (l : list Z) (lo : Z) :
  StronglySorted Z.le l -> head l = Some lo ->
  lo ∈ l /\ forall n, n ∈ l -> (lo <= n)%Z.
Proof.
  intros Hs Hh. destruct l as [|a l]; [done|]. injection Hh as ->.
  split; [left|]. intros n [->|Hn]%elem_of_cons; [lia|].
  apply StronglySorted_inv in Hs as [_ Hall].
  rewrite Forall_forall in Hall. by apply Hall.
Qed.

Lemma sorted_last_greatest (l : list Z) (hi : Z) :
  StronglySorted Z.le l -> last l = Some hi ->
  hi ∈ l /\ forall n, n ∈ l -> (n <= hi)%Z.
Proof.
  induction 1 as [|a l Hl IH Ha]; [done|].
  destruct l as [|b l].
  - cbn. intros [= ->]. split; [left|].
    intros n ->%list_elem_of_singleton. lia.
  - change (last (a :: b :: l)) with (last (b :: l)). intros Hlast.
    destruct (IH Hlast) as [Hin Hmax]. split; [by right|].
    intros n [->|Hn]%elem_of_cons; [|by apply Hmax].
    rewrite Forall_forall in Ha. by apply Ha.
Qed.

Lemma lineCandidates_no_evidence (frame : FrameView) :
  f_specificLineDiv frame = None -> f_dataLineNumbers frame = [] ->
  f_blobNums frame = [] -> f_lineAnchors frame = [] ->
  lineCandidates frame = ∅.
Proof.
  intros H1 H2 H3 H4. unfold lineCandidates. by rewrite H1, H2, H3, H4.
Qed.


(** ** Global filter of the orchestrator *)

Lemma filter_bool_sublist {A} (p : A -> bool) (l : list A) :
  sublist (List.filter p l) l.
Proof.
  induction l as [|x l IH]; cbn; [constructor|].
  destruct (p x); by constructor.
Qed.

(** C3: once the candidate list is built, [extractAllSuggestions] returns
    the flagged records only, in their original order, when at least one
    record is flagged, and the whole list unchanged when none is. *)
Theorem extractAll_global_filter `{Platform} (page : Page) :
  let all := allCandidates page in
  let out := extractAllSuggestions page in
  ((exists s, s ∈ all /\ sg_isCopilot s = true) ->
     out = List.filter sg_isCopilot all
     /\ sublist out all
     /\ (forall s, s ∈ out <-> s ∈ all /\ sg_isCopilot s = true))
  /\ ((forall s, s ∈ all -> sg_isCopilot s = false) ->
        out = all /\ length out = length all).
Proof.
  cbv zeta. unfold extractAllSuggestions, filterCopilot. split.
  - intros (s & Hs & Hflag).
    assert (existsb sg_isCopilot (allCandidates page) = true) as ->.
    { apply existsb_exists. exists s. by rewrite <- list_elem_of_In. }
    split; [done|]. split; [apply filter_bool_sublist|].
    intros x. by rewrite list_elem_of_In, filter_In, <- list_elem_of_In.
  - intros Hnone.
    assert (existsb sg_isCopilot (allCandidates page) = false) as ->; [|done].
    apply not_true_is_false. intros (s & Hs & Hflag)%existsb_exists.
    rewrite <- list_elem_of_In in Hs. specialize (Hnone s Hs). congruence.
Qed.

(** ** Strings without white space at their ends *)


Lemma dropWhile_head (p : N -> bool) (s : jsstring) (c : N) :
  head (dropWhile p s) = Some c -> p c = false.
Proof.
  induction s as [|d s IH]; cbn; [done|].
  destruct (p d) eqn:E; [done|]. cbn. by intros [= <-].
Qed.

Lemma dropWhile_app_keep (p : N -> bool) (l m : jsstring) (c : N) :
  p c = false -> dropWhile p (l ++ c :: m) = dropWhile p l ++ c :: m.
Proof.
  intros Hc. induction l as [|d l IH]; cbn; [by rewrite Hc|].
  by destruct (p d).
Qed.

Lemma dropWhile_clean (p : N -> bool) (s : jsstring) :
  (forall c, head s = Some c -> p c = false) -> dropWhile p s = s.
Proof.
  destruct s as [|c s]; cbn; [done|]. intros Hc. by rewrite (Hc c eq_refl).
Qed.

Lemma dropWhileEnd_clean (p : N -> bool) (s : jsstring) :
  (forall c, last s = Some c -> p c = false) -> dropWhileEnd p s = s.
Proof.
  intros Hc. unfold dropWhileEnd. rewrite dropWhile_clean.
  - apply reverse_involutive.
  - intros c. rewrite head_reverse. apply Hc.
Qed.

Lemma dropWhileEnd_last (p : N -> bool) (s : jsstring) (c : N) :
  last (dropWhileEnd p s) = Some c -> p c = false.
Proof.
  unfold dropWhileEnd. rewrite last_reverse. apply dropWhile_head.
Qed.

Lemma dropWhileEnd_keeps_head (p : N -> bool) (s : jsstring) (c : N) :
  p c = false -> dropWhileEnd p (c :: s) = c :: dropWhileEnd p s.
Proof.
  intros Hc. unfold dropWhileEnd.
  rewrite reverse_cons, (dropWhile_app_keep p (reverse s) [] c Hc).
  by rewrite reverse_snoc.
Qed.

Lemma dropBoth_cleanEnds (p : N -> bool) (s : jsstring) :
  cleanEnds p (dropWhileEnd p (dropWhile p s)).
Proof.
  split; [|apply dropWhileEnd_last].
  intros c. destruct (dropWhile p s) as [|d t] eqn:E; [done|].
  assert (p d = false) as Hd by (apply (dropWhile_head p s); by rewrite E).
  rewrite (dropWhileEnd_keeps_head p t d Hd). cbn. by intros [= <-].
Qed.

Lemma cleanEnds_fixed (p : N -> bool) (s : jsstring) :
  cleanEnds p s -> dropWhileEnd p (dropWhile p s) = s.
Proof.
  intros [Hh Hl]. rewrite (dropWhile_clean p s Hh). by apply dropWhileEnd_clean.
Qed.

Lemma trim_cleanEnds (s : jsstring) : cleanEnds isWhiteSpace (trim s).
Proof. apply dropBoth_cleanEnds. Qed.

Lemma trim_fixed (s : jsstring) : cleanEnds isWhiteSpace s -> trim s = s.
Proof. apply cleanEnds_fixed. Qed.

Lemma trim_idempotent (s : jsstring) : trim (trim s) = trim s.
Proof. apply trim_fixed, trim_cleanEnds. Qed.

Lemma isQuoteOrSpace_space (c : N) :
  isQuoteOrSpace c = false -> isWhiteSpace c = false.
Proof. unfold isQuoteOrSpace. by intros [_ ?]%orb_false_iff. Qed.

Lemma stripQuotes_cleanEnds (s : jsstring) :
  cleanEnds isWhiteSpace (stripQuotes s).
Proof.
  destruct (dropBoth_cleanEnds isQuoteOrSpace s) as [Hh Hl].
  split; intros c Hc; apply isQuoteOrSpace_space; [by apply Hh | by apply Hl].
Qed.

(** A prefix that starts with no white space, before a clean string that is
    not empty. *)
Lemma cleanEnds_prefixed (a : N) (pre s : jsstring) :
  isWhiteSpace a = false -> cleanEnds isWhiteSpace s -> s <> [] ->
  cleanEnds isWhiteSpace ((a :: pre) ++ s).
Proof.
  intros Ha [_ Hl] Hs. split.
  - cbn. by intros c [= <-].
  - intros c Hc. apply Hl. rewrite last_app in Hc.
    destruct (last s) eqn:E; [done|]. by apply last_None in E.
Qed.

Lemma isEmpty_false (s : jsstring) : isEmpty s = false <-> s <> [].
Proof. by destruct s. Qed.

Lemma orNull_Some (x : option jsstring) (s : jsstring) :
  orNull x = Some s <-> x = Some s /\ s <> [].
Proof.
  destruct x as [[|c r]|]; cbn; split; try done.
  - by intros [[= <-] ?].
  - by intros [= <-].
  - by intros [[= <-] _].
  - by intros [? _].
Qed.

(** ** Suggestion segmenter *)

Lemma safeText_clean (el : option jsstring) :
  cleanEnds isWhiteSpace (safeText el).
Proof. apply trim_cleanEnds. Qed.

Lemma extractListItems_clean (body : BodyView) (t : jsstring) :
  t ∈ extractListItems body -> cleanItem t.
Proof.
  unfold extractListItems. rewrite list_elem_of_In, filter_In, in_map_iff.
  intros [(li & <- & _) Hne]. split; [apply safeText_clean|].
  apply isEmpty_false. by destruct (isEmpty _).
Qed.

Lemma extractPatternLines_clean (body : BodyView) (t : jsstring) :
  t ∈ extractPatternLines body -> cleanItem t.
Proof.
  unfold extractPatternLines. destruct (isEmpty _); [by intros ?%elem_of_nil|].
  intros (line & _ & Hm)%list_elem_of_omap.
  destruct (matchPattern line) as [[m2 m4]|]; [|done].
  apply orNull_Some in Hm as [[= <-] Hne].
  split; [apply stripQuotes_cleanEnds | done].
Qed.

Lemma labelled_block_clean (label code : jsstring) :
  cleanItem code -> cleanItem (js "Suggested " ++ label ++ newline ++ code).
Proof.
  intros [Hc Hne]. split.
  - replace (js "Suggested " ++ label ++ newline ++ code)
      with ((83 :: (js "uggested " ++ label ++ newline)) ++ code)
      by (cbn; by rewrite <- !app_assoc).
    by apply cleanEnds_prefixed.
  - by intros [=].
Qed.

Section Segmenter.
Context `{Platform}.

Lemma extractSuggestedChangeBlocks_clean (body : BodyView) (t : jsstring) :
  t ∈ extractSuggestedChangeBlocks body -> cleanItem t.
Proof.
  unfold extractSuggestedChangeBlocks.
  rewrite !elem_of_app, !list_elem_of_omap.
  intros [(det & _ & Hd) | [(table & _ & Ht) | (pre & _ & Hp)]].
  - destruct (_ || _); [|done].
    destruct (isEmpty (safeText (det_code det))) eqn:E; [done|].
    injection Hd as <-. apply (labelled_block_clean (js "change:")).
    split; [apply safeText_clean | by apply isEmpty_false].
  - destruct (isEmpty (trim _)) eqn:E; [done|].
    injection Ht as <-. apply (labelled_block_clean (js "diff:")).
    split; [apply trim_cleanEnds | by apply isEmpty_false].
  - destruct (isEmpty (safeText (Some pre))) eqn:E; cbn [negb andb] in Hp;
      [done|].
    destruct (testDiffLine _ _); [|done].
    injection Hp as <-. apply (labelled_block_clean (js "diff:")).
    split; [apply safeText_clean | by apply isEmpty_false].
Qed.

Lemma strategyItems_clean (commentRoot : CommentView) (t : jsstring) :
  t ∈ strategyItems commentRoot -> cleanItem t.
Proof.
  unfold strategyItems. destruct (c_body commentRoot) as [body|];
    [|by intros ?%elem_of_nil].
  rewrite !elem_of_app. intros [?|[?|?]];
    eauto using extractListItems_clean, extractPatternLines_clean,
      extractSuggestedChangeBlocks_clean.
Qed.

End Segmenter.

(** *** Removing duplicates *)

Section Nub.
Context {K : Type} `{EqDecision K}.
Implicit Types (key : jsstring -> K) (l : list jsstring).

Lemma nubBy_sublist key l : sublist (nubBy key l) l.
Proof.
  induction l as [|x l IH]; cbn; [constructor|].
  constructor. etrans; [apply filter_bool_sublist | done].
Qed.

Lemma nubBy_elem key l x : x ∈ nubBy key l -> x ∈ l.
Proof. intros Hx. by apply (sublist_subseteq _ _ (nubBy_sublist key l)). Qed.

Lemma nubBy_keys_NoDup key l : NoDup (key <$> nubBy key l).
Proof.
  induction l as [|x l IH]; cbn; [constructor|].
  constructor.
  - rewrite list_elem_of_fmap. intros (y & Hk & Hy).
    rewrite list_elem_of_In, filter_In in Hy. destruct Hy as [_ Hy].
    apply negb_true_iff, bool_decide_eq_false in Hy. congruence.
  - eapply sublist_NoDup; [exact IH|].
    apply fmap_sublist, filter_bool_sublist.
Qed.

Lemma nubBy_covers key l x :
  x ∈ l -> exists y, y ∈ nubBy key l /\ key y = key x.
Proof.
  induction l as [|a l IH]; [by intros ?%elem_of_nil|].
  intros [->|Hx]%elem_of_cons; cbn.
  - exists a. split; [left | done].
  - destruct (IH Hx) as (y & Hy & Hk).
    destruct (decide (key y = key a)) as [Heq|Hne].
    + exists a. split; [left | congruence].
    + exists y. split; [|done]. right.
      rewrite list_elem_of_In, filter_In, <- list_elem_of_In. split; [done|].
      by apply negb_true_iff, bool_decide_eq_false.
Qed.

End Nub.

Lemma nubBy_ext {K K'} `{EqDecision K} `{EqDecision K'}
      (key : jsstring -> K) (key' : jsstring -> K') (l : list jsstring) :
  (forall x y, x ∈ l -> y ∈ l -> key x = key y <-> key' x = key' y) ->
  nubBy key l = nubBy key' l.
Proof.
  induction l as [|a l IH]; [done|]. intros Hk. cbn.
  rewrite IH. 2:{ intros x y Hx Hy. apply Hk; by right. }
  f_equal. apply filter_ext_in. intros y Hy.
  apply list_elem_of_In, nubBy_elem in Hy. f_equal.
  apply bool_decide_ext, Hk; [by right | left].
Qed.


Section Dedupe.
Context `{Platform}.

Lemma filter_seen_skip (seen : gset jsstring) (x : jsstring) (l : list jsstring) :
  toLowerCase x ∈ seen ->
  List.filter (fun y => negb (bool_decide (toLowerCase y ∈ seen)))
    (List.filter (fun y => negb (bool_decide (toLowerCase y = toLowerCase x))) l)
  = List.filter (fun y => negb (bool_decide (toLowerCase y ∈ seen))) l.
Proof.
  intros Hx. induction l as [|y l IH]; cbn; [done|].
  case_bool_decide as Hy; cbn.
  - rewrite IH. rewrite Hy. by rewrite bool_decide_eq_true_2.
  - case_bool_decide; cbn; by rewrite IH.
Qed.

Lemma filter_seen_add (seen : gset jsstring) (x : jsstring) (l : list jsstring) :
  List.filter (fun y => negb (bool_decide (toLowerCase y ∈ seen)))
    (List.filter (fun y => negb (bool_decide (toLowerCase y = toLowerCase x))) l)
  = List.filter
      (fun y => negb (bool_decide (toLowerCase y ∈ ({[ toLowerCase x ]} ∪ seen)))) l.
Proof.
  induction l as [|y l IH]; cbn; [done|].
  case_bool_decide as Hy; cbn.
  - rewrite IH. rewrite bool_decide_eq_true_2; [done|].
    apply elem_of_union. left. by apply elem_of_singleton.
  - rewrite IH. destruct (decide (toLowerCase y ∈ seen)) as [Hs|Hs].
    + rewrite (bool_decide_eq_true_2 _ Hs).
      rewrite bool_decide_eq_true_2; [done|]. apply elem_of_union. by right.
    + rewrite (bool_decide_eq_false_2 _ Hs).
      rewrite bool_decide_eq_false_2; [done|].
      intros [Hin%elem_of_singleton|Hin]%elem_of_union; done.
Qed.

Lemma dedupeLoop_nubBy (seen : gset jsstring) (out arr : list jsstring) :
  dedupeLoop seen out arr
  = out ++ List.filter (fun y => negb (bool_decide (toLowerCase y ∈ seen)))
             (nubBy toLowerCase arr).
Proof.
  revert seen out. induction arr as [|x arr IH]; intros seen out; cbn.
  - by rewrite app_nil_r.
  - case_bool_decide as Hx; cbn.
    + by rewrite IH, filter_seen_skip.
    + by rewrite IH, <- app_assoc, filter_seen_add.
Qed.

Lemma dedupe_nubBy (arr : list jsstring) : dedupe arr = nubBy toLowerCase arr.
Proof.
  unfold dedupe. rewrite dedupeLoop_nubBy. cbn.
  induction (nubBy toLowerCase arr) as [|y l IH]; cbn; [done|].
  rewrite bool_decide_eq_false_2 by set_solver. cbn. by f_equal.
Qed.

Lemma segment_strategyItems (commentRoot : CommentView) :
  extractSuggestionsFromComment commentRoot
  = nubBy toLowerCase (strategyItems commentRoot).
Proof.
  unfold extractSuggestionsFromComment, strategyItems.
  destruct (c_body commentRoot); [apply dedupe_nubBy | done].
Qed.

Lemma segment_clean (commentRoot : CommentView) (t : jsstring) :
  t ∈ extractSuggestionsFromComment commentRoot -> cleanItem t.
Proof.
  rewrite segment_strategyItems. intros Ht%nubBy_elem.
  by apply strategyItems_clean in Ht.
Qed.

End Dedupe.

Example segment_mixed_body :
  @extractSuggestionsFromComment asciiPlatform (commentOf (js "Copilot") mixedBody)
  = [ js "Use const"; js "Add a test"; js "rename the helper";
      js "Suggested change:" ++ newline ++ js "x = 1";
      js "Suggested diff:" ++ newline ++ js "- old();" ++ newline
        ++ js "+ fresh();" ++ newline ++ js "  done();";
      js "Suggested diff:" ++ newline ++ js "@@ -1 +1 @@" ].
Proof. vm_compute. reflexivity. Qed.

Example pattern_lines_mixed_body :
  extractPatternLines mixedBody
  = [js "Use const"; js "use CONST"; js "rename the helper"].
Proof. vm_compute. reflexivity. Qed.

(** C8: the segmenter returns the outputs of the three structured
    strategies, concatenated, with duplicates removed by lower-cased trimmed
    text: the first occurrence of every key stays, in the order of first
    appearance. Every item is already trimmed when it reaches [dedupe], so
    the key [s.toLowerCase()] of the code is the lower-cased trimmed text. *)
Theorem segment_dedup_first_seen `{Platform} (commentRoot : CommentView) :
  let items := strategyItems commentRoot in
  let key := fun s => toLowerCase (trim s) in
  let out := extractSuggestionsFromComment commentRoot in
  out = nubBy key items
  /\ sublist out items
  /\ NoDup (key <$> out)
  /\ (forall x, x ∈ items -> exists y, y ∈ out /\ key y = key x).
Proof.
  cbv zeta.
  assert (extractSuggestionsFromComment commentRoot
          = nubBy (fun s => toLowerCase (trim s)) (strategyItems commentRoot)) as ->.
  { rewrite segment_strategyItems. apply nubBy_ext. intros x y Hx Hy.
    apply strategyItems_clean in Hx as [Hx _], Hy as [Hy _].
    by rewrite (trim_fixed x Hx), (trim_fixed y Hy). }
  split; [done|]. split; [apply nubBy_sublist|].
  split; [apply (nubBy_keys_NoDup (fun s => toLowerCase (trim s)))|].
  apply nubBy_covers.
Qed.

(** C2: when the three structured strategies give nothing, the segmenter
    returns the empty list, whatever the length of the text of the comment:
    the plain-text fallback of the release notes is not in the function. *)
Theorem segment_has_no_fallback `{Platform} (commentRoot : CommentView)
        (body : BodyView) :
  c_body commentRoot = Some body ->
  extractListItems body = [] ->
  extractPatternLines body = [] ->
  extractSuggestedChangeBlocks body = [] ->
  extractSuggestionsFromComment commentRoot = [].
Proof.
  intros Hb Hl Hp Hc. unfold extractSuggestionsFromComment.
  by rewrite Hb, Hl, Hp, Hc.
Qed.

Lemma segment_has_no_fallback_witness :
  (10 < length (safeText (Some labelParagraph)))%nat
  /\ @extractSuggestionsFromComment asciiPlatform
       (commentOf (js "Copilot") (plainBody labelParagraph)) = [].
Proof.
  split.
  - vm_compute. lia.
  - apply (@segment_has_no_fallback asciiPlatform
             (commentOf (js "Copilot") (plainBody labelParagraph))
             (plainBody labelParagraph)); reflexivity.
Defined.

(** ** Summaries *)

Lemma indexOfFrom_spec (c : N) (from pos : nat) (s : jsstring) (k : nat) :
  indexOfFrom c from pos s = Some k ->
  (from <= k)%nat /\ (pos <= k)%nat /\ s !! (k - pos)%nat = Some c.
Proof.
  revert pos. induction s as [|d s IH]; intros pos; cbn; [done|].
  destruct (Nat.leb_spec from pos) as [Hle|Hlt]; cbn.
  - destruct (N.eqb_spec d c) as [->|Hne].
    + intros [= <-]. by rewrite Nat.sub_diag.
    + intros (? & ? & Hk)%IH. repeat split; [lia..|].
      replace (k - pos)%nat with (S (k - S pos)) by lia. done.
  - intros (? & ? & Hk)%IH. repeat split; [lia..|].
    replace (k - pos)%nat with (S (k - S pos)) by lia. done.
Qed.

(** The three ways out of [summarize]: the whole text, a cut after a full
    stop between the positions 60 and 139, or 139 code units and an
    ellipsis. *)
Lemma summarize_shape (text : jsstring) :
  let t := trim (collapseSpaces false text) in
  ((length t <= 140)%nat /\ summarize text = t)
  \/ ((140 < length t)%nat
      /\ exists k, (60 <= k < 140)%nat /\ t !! k = Some 46
                   /\ summarize text = take (k + 1) t)
  \/ ((140 < length t)%nat /\ summarize text = take 139 t ++ ellipsis).
Proof.
  cbv zeta. unfold summarize.
  set (t := trim (collapseSpaces false text)).
  destruct (Nat.leb_spec (length t) 140) as [Hle|Hgt]; [by left|].
  right. destruct (indexOfFrom 46 60 0 t) as [k|] eqn:Ek; [|by right].
  apply indexOfFrom_spec in Ek as (Hfrom & _ & Hk).
  rewrite Nat.sub_0_r in Hk.
  destruct (Nat.ltb_spec 0 k) as [H0|H0]; cbn [andb]; [|by right].
  destruct (Nat.ltb_spec k 140) as [H1|H1]; [|by right].
  left. split; [done|]. exists k. repeat split; [lia..|done|done].
Qed.

Lemma indexOfFrom_least (c : N) (from pos : nat) (s : jsstring) (k : nat) :
  indexOfFrom c from pos s = Some k ->
  forall j, (from <= j)%nat -> (pos <= j < k)%nat ->
            s !! (j - pos)%nat <> Some c.
Proof.
  revert pos. induction s as [|d s IH]; intros pos; cbn [indexOfFrom]; [done|].
  destruct (Nat.leb_spec from pos) as [Hle|Hlt]; cbn [andb].
  - destruct (N.eqb_spec d c) as [->|Hne].
    + intros [= <-] j _ ?. lia.
    + intros Hk j Hj [Hpj Hjk]. destruct (decide (j = pos)) as [->|Hjp].
      * rewrite Nat.sub_diag. cbn. congruence.
      * replace (j - pos)%nat with (S (j - S pos)) by lia. cbn.
        apply (IH (S pos) Hk); lia.
  - intros Hk j Hj [Hpj Hjk].
    replace (j - pos)%nat with (S (j - S pos)) by lia. cbn.
    apply (IH (S pos) Hk); lia.
Qed.

Lemma indexOfFrom_none (c : N) (from pos : nat) (s : jsstring) :
  indexOfFrom c from pos s = None ->
  forall j, (from <= j)%nat -> (pos <= j)%nat -> s !! (j - pos)%nat <> Some c.
Proof.
  revert pos. induction s as [|d s IH]; intros pos; cbn [indexOfFrom]; [done|].
  destruct (Nat.leb_spec from pos) as [Hle|Hlt]; cbn [andb].
  - destruct (N.eqb_spec d c) as [->|Hne]; [done|].
    intros Hk j Hj Hpj. destruct (decide (j = pos)) as [->|Hjp].
    + rewrite Nat.sub_diag. cbn. congruence.
    + replace (j - pos)%nat with (S (j - S pos)) by lia. cbn.
      apply (IH (S pos) Hk); lia.
  - intros Hk j Hj Hpj.
    replace (j - pos)%nat with (S (j - S pos)) by lia. cbn.
    apply (IH (S pos) Hk); lia.
Qed.

(** Which way out [summarize] takes: the whole text when it is short
    enough; else a cut after the first full stop from the position 60 on,
    if it comes before the position 140; else 139 code units and an
    ellipsis. *)
Lemma summarize_cases (text : jsstring) :
  let t := trim (collapseSpaces false text) in
  ((length t <= 140)%nat -> summarize text = t)
  /\ ((140 < length t)%nat -> forall k, sentenceEndAt t k ->
      exists first,
        sentenceEndAt t first
        /\ (forall j, sentenceEndAt t j -> (first <= j)%nat)
        /\ summarize text = take (first + 1) t)
  /\ ((140 < length t)%nat -> (forall k, ~ sentenceEndAt t k) ->
      summarize text = take 139 t ++ ellipsis).
Proof.
  cbv zeta. unfold summarize.
  set (t := trim (collapseSpaces false text)).
  destruct (Nat.leb_spec (length t) 140) as [Hle|Hgt].
  { split; [done|]. split; intros; lia. }
  split; [intros; lia|].
  destruct (indexOfFrom 46 60 0 t) as [k0|] eqn:Ek.
  - pose proof (indexOfFrom_least _ _ _ _ _ Ek) as Hleast.
    apply indexOfFrom_spec in Ek as (Hfrom & _ & Hk0).
    rewrite Nat.sub_0_r in Hk0.
    assert (forall j, sentenceEndAt t j -> (k0 <= j)%nat) as Hfirst.
    { intros j [Hj Hdot]. destruct (Nat.le_gt_cases k0 j) as [|Hlt]; [done|].
      destruct (Hleast j) ; [lia|lia|]. by rewrite Nat.sub_0_r. }
    split.
    + intros _ k Hk. pose proof (Hfirst k Hk) as Hle. destruct Hk as [Hk _].
      exists k0. split; [split; [lia|done]|]. split; [done|].
      destruct (Nat.ltb_spec 0 k0) as [H0|H0]; [|lia].
      destruct (Nat.ltb_spec k0 140) as [H1|H1]; [done|lia].
    + intros _ Hnone.
      destruct (Nat.ltb_spec 0 k0) as [H0|H0]; cbn [andb]; [|done].
      destruct (Nat.ltb_spec k0 140) as [H1|H1]; [|done].
      destruct (Hnone k0). split; [lia|done].
  - pose proof (indexOfFrom_none _ _ _ _ Ek) as Hnone. split.
    + intros _ k [Hk Hdot]. destruct (Hnone k); [lia|lia|].
      by rewrite Nat.sub_0_r.
    + done.
Qed.

Lemma summarize_length (text : jsstring) : (length (summarize text) <= 140)%nat.
Proof.
  destruct (summarize_shape text) as [[Hl ->]|[(Hl & k & Hk & _ & ->)|[Hl ->]]].
  - done.
  - rewrite length_take. lia.
  - rewrite length_app, length_take. change (length ellipsis) with 1%nat. lia.
Qed.

Lemma collapse_trim_head (c : N) (r : jsstring) :
  isWhiteSpace c = false ->
  exists r', trim (collapseSpaces false (c :: r)) = c :: r'.
Proof.
  intros Hc. cbn [collapseSpaces]. rewrite Hc. unfold trim.
  cbn [dropWhile]. rewrite Hc.
  rewrite (dropWhileEnd_keeps_head _ _ _ Hc). eauto.
Qed.

Lemma summarize_nonempty (text : jsstring) :
  cleanItem text -> summarize text <> [].
Proof.
  intros [[Hh _] Hne]. destruct text as [|c r]; [done|].
  destruct (collapse_trim_head c r (Hh c eq_refl)) as [r' Ht].
  destruct (summarize_shape (c :: r)) as [[_ ->]|[(_ & k & _ & _ & ->)|[_ ->]]];
    rewrite Ht.
  - done.
  - by rewrite Nat.add_1_r.
  - done.
Qed.

Lemma orNull_idempotent (x : option jsstring) : orNull (orNull x) = orNull x.
Proof. by destruct x as [[|??]|]. Qed.

Lemma extractReviewTextOnly_clean (commentRoot : CommentView) (t : jsstring) :
  extractReviewTextOnly commentRoot = Some t -> cleanItem t.
Proof.
  unfold extractReviewTextOnly. destruct (c_prose commentRoot); [|done].
  intros [[= <-] Hne]%orNull_Some. split; [apply trim_cleanEnds | done].
Qed.

Section Orchestrator.
Context `{Platform}.

(** Every candidate is the record made for some item of some comment of
    some frame of the page. *)
Lemma allCandidates_elem (page : Page) (s : Suggestion) :
  s ∈ allCandidates page <->
  exists frame idx commentRoot i text,
    frame ∈ page_frames page
    /\ f_comments frame !! idx = Some commentRoot
    /\ extractSuggestionsFromComment commentRoot !! i = Some text
    /\ s = makeSuggestion (page_href page) frame idx commentRoot i text.
Proof.
  unfold allCandidates.
  rewrite list_elem_of_In, in_flat_map. split.
  - intros (frame & Hf & Hs). rewrite <- !list_elem_of_In in *.
    apply list_elem_of_join in Hs as (l & Hs & Hl).
    apply elem_of_lookup_imap in Hl as (idx & c & -> & Hc).
    apply elem_of_lookup_imap in Hs as (i & text & -> & Ht).
    by exists frame, idx, c, i, text.
  - intros (frame & idx & c & i & text & Hf & Hc & Ht & ->).
    exists frame. rewrite <- !list_elem_of_In. split; [done|].
    apply list_elem_of_join.
    exists (imap (fun i text =>
                    makeSuggestion (page_href page) frame idx c i text)
                 (extractSuggestionsFromComment c)).
    split.
    + by apply (elem_of_lookup_imap_2
                  (fun i text => makeSuggestion (page_href page) frame idx c i text)).
    + by apply (elem_of_lookup_imap_2
                  (fun idx c =>
                     imap (fun i text =>
                             makeSuggestion (page_href page) frame idx c i text)
                          (extractSuggestionsFromComment c))).
Qed.

Lemma extractAll_subset (page : Page) (s : Suggestion) :
  s ∈ extractAllSuggestions page -> s ∈ allCandidates page.
Proof.
  unfold extractAllSuggestions, filterCopilot.
  destruct (existsb _ _); [|done].
  rewrite list_elem_of_In, filter_In, <- list_elem_of_In. by intros [? _].
Qed.

End Orchestrator.

Example summarize_short : summarize (js "  Use   const here.  ") = js "Use const here.".
Proof. vm_compute. reflexivity. Qed.

Example summarize_at_full_stop :
  summarize longSentence = repeat 97 69 ++ [46].
Proof. vm_compute. reflexivity. Qed.

Example summarize_with_ellipsis :
  summarize (repeat 97 200) = repeat 97 139 ++ ellipsis.
Proof. vm_compute. reflexivity. Qed.

(** C10: the summary of every suggestion of a pass is made of the review
    text, or of the text when there is no review text, with its white
    space collapsed and trimmed, [t]. When [t] has at most 140 code units
    the summary is [t]. When it is longer and has a full stop at one of
    the positions 60 to 139, the summary is [t] up to the first such full
    stop, included. When it is longer and has no such full stop, the
    summary is the first 139 code units of [t] and an ellipsis. So it is
    at most 140 code units long, and it is not empty (the text of a
    suggestion never is). *)
Theorem summary_bounded_nonempty `{Platform} (page : Page) (s : Suggestion) :
  s ∈ extractAllSuggestions page ->
  let source := default (sg_text s) (sg_reviewText s) in
  let t := trim (collapseSpaces false source) in
  ((length t <= 140)%nat -> sg_summary s = t)
  /\ ((140 < length t)%nat -> forall k, sentenceEndAt t k ->
      exists first,
        sentenceEndAt t first
        /\ (forall j, sentenceEndAt t j -> (first <= j)%nat)
        /\ sg_summary s = take (first + 1) t)
  /\ ((140 < length t)%nat -> (forall k, ~ sentenceEndAt t k) ->
      sg_summary s = take 139 t ++ ellipsis)
  /\ (length (sg_summary s) <= 140)%nat
  /\ sg_text s <> []
  /\ sg_summary s <> [].
Proof.
  intros Hs%extractAll_subset. cbv zeta.
  apply allCandidates_elem in Hs
    as (frame & idx & c & i & text & _ & _ & Ht & ->).
  apply list_elem_of_lookup_2, segment_clean in Ht.
  cbn [makeSuggestion sg_summary sg_text sg_reviewText].
  assert (orNull (extractReviewTextOnly c) = extractReviewTextOnly c) as ->.
  { unfold extractReviewTextOnly. destruct (c_prose c); [|done].
    apply orNull_idempotent. }
  set (source := default text (extractReviewTextOnly c)).
  assert (cleanItem source) as Hsrc.
  { unfold source. destruct (extractReviewTextOnly c) eqn:E; [|done].
    by apply extractReviewTextOnly_clean in E. }
  destruct (summarize_cases source) as (Hshort & Hstop & Hlong).
  split; [exact Hshort|]. split; [exact Hstop|]. split; [exact Hlong|].
  split; [apply summarize_length|].
  split; [apply Ht | by apply summarize_nonempty].
Qed.

Lemma summary_bounded_nonempty_witness :
  exists s : Suggestion,
    s ∈ @extractAllSuggestions asciiPlatform samplePage
    /\ sg_summary s = js "Use const here. Rename x."
    /\ (length (sg_summary s) <= 140)%nat
    /\ sg_summary s <> [].
Proof.
  exists (@makeSuggestion asciiPlatform (page_href samplePage)
            (threadOf (js "review-thread-or-comment-id-1")
               [ commentOf (js "Copilot")
                   (listBody (js "Use const here. Rename x.")
                             [js "Use const here."; js "Rename x."]) ])
            0
            (commentOf (js "Copilot")
               (listBody (js "Use const here. Rename x.")
                         [js "Use const here."; js "Rename x."]))
            0 (js "Use const here.")).
  match goal with |- ?s ∈ ?l /\ _ =>
    assert (s ∈ l) as Hin by (apply list_elem_of_In; vm_compute; left; reflexivity)
  end.
  split; [exact Hin|].
  destruct (@summary_bounded_nonempty asciiPlatform samplePage _ Hin)
    as (_ & _ & _ & Hlen & _ & Hne).
  split; [vm_compute; reflexivity|]. split; [exact Hlen | exact Hne].
Defined.

(** ** Digits *)

Lemma digitsRev_value (base : N) (fuel : nat) (n : N) :
  2 <= base -> n < 2 ^ N.of_nat fuel ->
  digitsValue base (digitsRev base fuel n) = n.
Proof.
  intros Hb. revert n. induction fuel as [|f IH]; intros n Hn.
  - cbn in *. lia.
  - cbn [digitsRev]. destruct (N.ltb_spec n base) as [Hlt|Hge]; cbn.
    + lia.
    + rewrite IH.
      * rewrite N.add_comm. symmetry. apply N.div_mod. lia.
      * apply N.Div0.div_lt_upper_bound.
        rewrite Nat2N.inj_succ, N.pow_succ_r' in Hn. nia.
Qed.

Lemma digitsRev_bound (base : N) (fuel : nat) (n : N) :
  0 < base -> Forall (fun d => d < base) (digitsRev base fuel n).
Proof.
  intros Hb. revert n. induction fuel as [|f IH]; intros n; cbn; [constructor|].
  destruct (N.ltb_spec n base).
  - by repeat constructor.
  - constructor; [|apply IH]. apply N.mod_lt. lia.
Qed.

Lemma log2_fuel (n : N) : n < 2 ^ N.of_nat (S (N.to_nat (N.log2 n))).
Proof.
  rewrite Nat2N.inj_succ, N2Nat.id.
  destruct (N.eq_dec n 0) as [->|Hn]; [done|].
  apply N.log2_spec. lia.
Qed.

Lemma digitChar_inj (d d' : N) :
  d < 36 -> d' < 36 -> digitChar d = digitChar d' -> d = d'.
Proof.
  unfold digitChar. intros Hd Hd'.
  destruct (N.ltb_spec d 10), (N.ltb_spec d' 10); lia.
Qed.

Lemma digitChar_not_colon (d : N) : d < 36 -> digitChar d <> 58.
Proof. unfold digitChar. intros Hd. destruct (N.ltb_spec d 10); lia. Qed.

Lemma map_digitChar_inj (ds ds' : list N) :
  Forall (fun d => d < 36) ds -> Forall (fun d => d < 36) ds' ->
  map digitChar ds = map digitChar ds' -> ds = ds'.
Proof.
  intros Hds. revert ds'. induction Hds as [|d ds Hd _ IH];
    intros [|d' ds'] Hds' Heq; try done.
  apply Forall_cons in Hds' as [Hd' Hds']. cbn in Heq.
  injection Heq as Hc Hr. f_equal; [by apply digitChar_inj | by apply IH].
Qed.

Lemma digits_below_36 (base : N) (ds : list N) :
  base <= 36 -> Forall (fun d => d < base) ds -> Forall (fun d => d < 36) ds.
Proof.
  intros Hb Hds. eapply Forall_impl; [exact Hds|]. intros; cbn in *; lia.
Qed.

Lemma toRadix_inj (base n m : N) :
  2 <= base <= 36 -> toRadix base n = toRadix base m -> n = m.
Proof.
  intros [Hlo Hhi]. unfold toRadix. intros Heq.
  apply map_digitChar_inj in Heq.
  - apply (f_equal reverse) in Heq. rewrite !reverse_involutive in Heq.
    rewrite <- (digitsRev_value base _ n Hlo (log2_fuel n)).
    rewrite <- (digitsRev_value base _ m Hlo (log2_fuel m)).
    by rewrite Heq.
  - apply Forall_reverse, (digits_below_36 base); [done|].
    apply digitsRev_bound. lia.
  - apply Forall_reverse, (digits_below_36 base); [done|].
    apply digitsRev_bound. lia.
Qed.

Lemma toRadix_no_colon (base n : N) :
  0 < base <= 36 -> 58 ∉ toRadix base n.
Proof.
  intros [Hlo Hhi]. unfold toRadix.
  rewrite list_elem_of_In, in_map_iff. intros (d & Hd & Hin).
  apply (digitChar_not_colon d); [|done].
  apply list_elem_of_In in Hin. rewrite elem_of_reverse in Hin.
  pose proof (digitsRev_bound base (S (N.to_nat (N.log2 n))) n Hlo) as Hall.
  rewrite Forall_forall in Hall. specialize (Hall d Hin). cbn in Hall. lia.
Qed.

Lemma numberToString_nat (a : nat) :
  numberToString (Z.of_nat a) = toRadix 10 (N.of_nat a).
Proof.
  unfold numberToString. destruct (Z.of_nat a) eqn:E; try lia;
    f_equal; lia.
Qed.

Lemma numberToString_nat_inj (a b : nat) :
  numberToString (Z.of_nat a) = numberToString (Z.of_nat b) -> a = b.
Proof.
  rewrite !numberToString_nat. intros Heq%toRadix_inj; lia.
Qed.

Lemma hashString_no_colon (t : jsstring) : 58 ∉ hashString t.
Proof. apply toRadix_no_colon. lia. Qed.

(** ** Identifiers *)

Example hashString_samples :
  hashString [] = js "ztntfp" /\ hashString (js "a") = js "1r9wi7g"
  /\ hashString (js "Rename x.") = js "1rzigrb".
Proof. repeat split; vm_compute; reflexivity. Qed.

Example suggestionId_sample :
  suggestionId (js "review-thread-or-comment-id-1") 0 1 (js "Rename x.")
  = js "review-thread-or-comment-id-1:0:1:1rzigrb".
Proof. vm_compute. reflexivity. Qed.

(** A string is cut in one way only at its last colon. *)
Lemma split_last_colon (x x' y y' : jsstring) :
  x ++ 58 :: y = x' ++ 58 :: y' -> 58 ∉ y -> 58 ∉ y' -> x = x' /\ y = y'.
Proof.
  revert x'. induction x as [|a x IH]; intros [|a' x'] Heq Hy Hy'; cbn in Heq.
  - by injection Heq as ->.
  - injection Heq as _ Hr. exfalso. apply Hy. rewrite Hr.
    apply elem_of_app. right. left.
  - injection Heq as _ Hr. exfalso. apply Hy'. rewrite <- Hr.
    apply elem_of_app. right. left.
  - injection Heq as -> Heq. destruct (IH x' Heq Hy Hy') as [-> ->]. done.
Qed.

Lemma suggestionId_cut (frameId : jsstring) (idx i : nat) (text : jsstring) :
  suggestionId frameId idx i text
  = ((frameId ++ 58 :: numberToString (Z.of_nat idx))
       ++ 58 :: numberToString (Z.of_nat i))
      ++ 58 :: hashString text.
Proof. unfold suggestionId, colon. rewrite <- !app_assoc. reflexivity. Qed.

Lemma suggestionId_inj (frameId frameId' : jsstring) (idx idx' i i' : nat)
      (text text' : jsstring) :
  suggestionId frameId idx i text = suggestionId frameId' idx' i' text' ->
  frameId = frameId' /\ idx = idx' /\ i = i'
  /\ hashString text = hashString text'.
Proof.
  rewrite !suggestionId_cut. intros Heq.
  assert (forall n : nat, 58 ∉ numberToString (Z.of_nat n)) as Hnum.
  { intros n. rewrite numberToString_nat. apply toRadix_no_colon. lia. }
  apply split_last_colon in Heq as [Heq Hh]; [|apply hashString_no_colon..].
  apply split_last_colon in Heq as [Heq Hi]; [|apply Hnum..].
  apply split_last_colon in Heq as [Heq Hidx]; [|apply Hnum..].
  apply numberToString_nat_inj in Hi, Hidx. done.
Qed.

Lemma suggestionId_same_position (frameId : jsstring) (idx i : nat)
      (text text' : jsstring) :
  suggestionId frameId idx i text = suggestionId frameId idx i text'
  <-> hashString text = hashString text'.
Proof.
  split; [by intros (_ & _ & _ & ?)%suggestionId_inj|].
  unfold suggestionId. by intros ->.
Qed.

Lemma NoDup_imap_positions {A B} (f : nat -> A -> B) (l : list A) :
  (forall i j x y, l !! i = Some x -> l !! j = Some y -> f i x = f j y -> i = j) ->
  NoDup (imap f l).
Proof.
  intros Hinj. apply NoDup_alt. intros i j z.
  rewrite !list_lookup_imap.
  destruct (l !! i) as [x|] eqn:Ei; [|done].
  destruct (l !! j) as [y|] eqn:Ej; [|done].
  cbn. intros [= <-] [= Hz]. by apply (Hinj i j x y).
Qed.

Section IdsOfFrame.
Variables (frameId : jsstring) (g : nat -> CommentView -> list Suggestion).
Hypothesis g_ids : forall idx c s, s ∈ g idx c ->
  exists i t, sg_id s = suggestionId frameId idx i t.
Hypothesis g_NoDup : forall idx c, NoDup (sg_id <$> g idx c).

Lemma join_imap_ids (off : nat) (comments : list CommentView) (s : Suggestion) :
  s ∈ mjoin (imap (fun idx c => g (off + idx) c) comments) ->
  exists idx i t, (off <= idx)%nat /\ sg_id s = suggestionId frameId idx i t.
Proof.
  intros (l & Hs & Hl)%list_elem_of_join.
  apply elem_of_lookup_imap in Hl as (idx & c & -> & _).
  destruct (g_ids _ _ _ Hs) as (i & t & Hid).
  exists (off + idx)%nat, i, t. split; [lia | done].
Qed.

Lemma join_imap_NoDup (off : nat) (comments : list CommentView) :
  NoDup (sg_id <$> mjoin (imap (fun idx c => g (off + idx) c) comments)).
Proof.
  revert off. induction comments as [|c comments IH]; intros off.
  - constructor.
  - rewrite imap_cons. cbn [mjoin list_join]. rewrite fmap_app.
    apply NoDup_app. split; [apply g_NoDup|]. split.
    + intros id (s & -> & Hs)%list_elem_of_fmap (s' & Hid & Hs')%list_elem_of_fmap.
      destruct (g_ids _ _ _ Hs) as (i & t & Hi).
      assert (s' ∈ mjoin (imap (fun idx c => g (S off + idx) c) comments)) as Hs''.
      { erewrite imap_ext; [exact Hs'|]. intros; cbn. f_equal. lia. }
      apply join_imap_ids in Hs'' as (idx' & i' & t' & Hle & Hi').
      rewrite Hi, Hi' in Hid. apply suggestionId_inj in Hid. lia.
    + erewrite imap_ext; [apply (IH (S off))|]. intros; cbn. f_equal. lia.
Qed.

End IdsOfFrame.

Section Ids.
Context `{Platform}.

(** The candidates of one frame. *)
#[local] Abbreviation candidatesOf href frame :=
  (mjoin (imap (fun idx commentRoot =>
            imap (fun i text => makeSuggestion href frame idx commentRoot i text)
                 (extractSuggestionsFromComment commentRoot))
          (f_comments frame))).

Lemma item_ids (href : jsstring) (frame : FrameView) (idx : nat)
      (c : CommentView) (s : Suggestion) :
  s ∈ imap (fun i text => makeSuggestion href frame idx c i text)
           (extractSuggestionsFromComment c) ->
  exists i t, sg_id s = suggestionId (frameIdOf frame) idx i t.
Proof. intros (i & t & -> & _)%elem_of_lookup_imap. by exists i, t. Qed.

Lemma item_ids_NoDup (href : jsstring) (frame : FrameView) (idx : nat)
      (c : CommentView) :
  NoDup (sg_id <$> imap (fun i text => makeSuggestion href frame idx c i text)
                        (extractSuggestionsFromComment c)).
Proof.
  rewrite fmap_imap. apply NoDup_imap_positions.
  intros i j x y _ _ Heq.
  change (suggestionId (frameIdOf frame) idx i x
          = suggestionId (frameIdOf frame) idx j y) in Heq.
  by apply suggestionId_inj in Heq as (_ & _ & ? & _).
Qed.

Lemma frame_ids (href : jsstring) (frame : FrameView) (s : Suggestion) :
  s ∈ candidatesOf href frame ->
  exists idx i t, sg_id s = suggestionId (frameIdOf frame) idx i t.
Proof.
  intros Hs.
  destruct (join_imap_ids (frameIdOf frame)
              (fun idx c => imap (fun i text => makeSuggestion href frame idx c i text)
                                 (extractSuggestionsFromComment c))
              (item_ids href frame) 0 (f_comments frame) s Hs)
    as (idx & i & t & _ & Hid).
  by exists idx, i, t.
Qed.

Lemma frame_ids_NoDup (href : jsstring) (frame : FrameView) :
  NoDup (sg_id <$> candidatesOf href frame).
Proof.
  apply (join_imap_NoDup (frameIdOf frame)
           (fun idx c => imap (fun i text => makeSuggestion href frame idx c i text)
                              (extractSuggestionsFromComment c))
           (item_ids href frame) (item_ids_NoDup href frame) 0).
Qed.

Lemma candidates_ids_NoDup (href : jsstring) (frames : list FrameView) :
  NoDup (frameIdOf <$> frames) ->
  NoDup (sg_id <$> flat_map (fun frame => candidatesOf href frame) frames).
Proof.
  induction frames as [|frame frames IH]; [constructor|].
  rewrite fmap_cons. intros [Hfresh Hrest]%NoDup_cons.
  cbn [flat_map]. rewrite fmap_app. apply NoDup_app.
  split; [apply frame_ids_NoDup|]. split; [|by apply IH].
  intros id (s & -> & Hs)%list_elem_of_fmap (s' & Hid & Hs')%list_elem_of_fmap.
  apply frame_ids in Hs as (idx & i & t & Hi).
  apply list_elem_of_In, in_flat_map in Hs' as (frame' & Hf' & Hs').
  apply list_elem_of_In in Hs'. apply frame_ids in Hs' as (idx' & i' & t' & Hi').
  rewrite Hi, Hi' in Hid. apply suggestionId_inj in Hid as (Hframe & _).
  apply Hfresh. rewrite Hframe. apply list_elem_of_fmap_2.
  by apply list_elem_of_In.
Qed.

Lemma filterCopilot_sublist (all : list Suggestion) :
  sublist (filterCopilot all) all.
Proof.
  unfold filterCopilot. destruct (existsb _ _); [apply filter_bool_sublist|done].
Qed.

End Ids.

(** C6 (as amended): in one pass over frames with pairwise distinct
    identifiers no two suggestions share an id; and two ids made for the
    same frame, comment index and item index are equal exactly when the
    32-bit hashes of the two texts are. *)
Theorem ids_unique_in_pass `{Platform} (page : Page) :
  NoDup (frameIdOf <$> page_frames page) ->
  NoDup (sg_id <$> extractAllSuggestions page)
  /\ (forall frameId idx i text text',
        suggestionId frameId idx i text = suggestionId frameId idx i text'
        <-> hashString text = hashString text').
Proof.
  intros Hframes. split; [|apply suggestionId_same_position].
  eapply sublist_NoDup;
    [|apply fmap_sublist, filterCopilot_sublist].
  by apply candidates_ids_NoDup.
Qed.

Lemma ids_unique_in_pass_witness :
  NoDup (frameIdOf <$> page_frames samplePage)
  /\ NoDup (sg_id <$> @extractAllSuggestions asciiPlatform samplePage).
Proof.
  assert (NoDup (frameIdOf <$> page_frames samplePage)) as Hframes.
  { apply (bool_decide_unpack (NoDup (frameIdOf <$> page_frames samplePage))).
    vm_compute. exact I. }
  split; [exact Hframes|].
  exact (proj1 (@ids_unique_in_pass asciiPlatform samplePage Hframes)).
Defined.

(** C6, as first stated, fails: "costarring" and "liquid" have the same
    32-bit FNV-1a hash, so two suggestions that differ in their text only
    (same frame, same comment index, same item index, same review text)
    get the same id: across two passes, when the item of a comment is
    edited from one word to the other, and also inside one pass, when the
    document holds two frames under one identifier. *)
Lemma id_collision_costarring_liquid :
  js "costarring" <> js "liquid"
  /\ hashString (js "costarring") = hashString (js "liquid")
  /\ (exists s1 s2 : Suggestion,
        @extractAllSuggestions asciiPlatform (foldedItemPage (js "costarring")) = [s1]
        /\ @extractAllSuggestions asciiPlatform (foldedItemPage (js "liquid")) = [s2]
        /\ sg_text s1 = js "costarring" /\ sg_text s2 = js "liquid"
        /\ sameButText s1 s2)
  /\ (exists s1 s2 : Suggestion,
        @extractAllSuggestions asciiPlatform
          (twinPage (js "costarring") (js "liquid")) = [s1; s2]
        /\ sg_text s1 = js "costarring" /\ sg_text s2 = js "liquid"
        /\ sameButText s1 s2).
Proof.
  split; [by intros [=]|]. split; [vm_compute; reflexivity|]. split.
  - eexists _, _. split; [vm_compute; reflexivity|].
    split; [vm_compute; reflexivity|].
    vm_compute. repeat split; reflexivity.
  - eexists _, _. split; [vm_compute; reflexivity|].
    vm_compute. repeat split; reflexivity.
Qed.

(** ** Prompt builder *)

Lemma join_snoc (sep : jsstring) (l : list jsstring) (b : jsstring) :
  l <> [] -> join sep (l ++ [b]) = join sep l ++ sep ++ b.
Proof.
  induction l as [|x l IH]; [done|]. intros _.
  destruct l as [|y l]; [done|].
  change (join sep ((x :: y :: l) ++ [b]))
    with (x ++ sep ++ join sep ((y :: l) ++ [b])).
  rewrite IH by done.
  change (join sep (x :: y :: l)) with (x ++ sep ++ join sep (y :: l)).
  by rewrite <- !app_assoc.
Qed.

Lemma promptItem_parts (idx : nat) (s : Suggestion) :
  promptItem idx s
  = join newline (filterBoolean (promptItemHead idx s ++ [suggestionBlock s; Some []])).
Proof. reflexivity. Qed.

Lemma promptItemHead_nonempty (idx : nat) (s : Suggestion) :
  filterBoolean (promptItemHead idx s) <> [].
Proof. done. Qed.

Lemma promptItem_with_block (idx : nat) (s : Suggestion) (b : jsstring) :
  suggestionBlock s = Some b -> b <> [] ->
  promptItem idx s
  = join newline (filterBoolean (promptItemHead idx s)) ++ newline ++ b.
Proof.
  intros Hb Hne. rewrite promptItem_parts. unfold filterBoolean.
  rewrite omap_app, Hb. cbn [omap list_omap orNull].
  destruct b as [|c b]; [done|]. cbn [orNull].
  apply join_snoc, promptItemHead_nonempty.
Qed.

Lemma promptItem_without_block (idx : nat) (s : Suggestion) :
  suggestionBlock s = None ->
  promptItem idx s = join newline (filterBoolean (promptItemHead idx s)).
Proof.
  intros Hb. rewrite promptItem_parts. unfold filterBoolean.
  rewrite omap_app, Hb. cbn [omap list_omap orNull]. by rewrite app_nil_r.
Qed.

Lemma prefixedBlock_nonempty (c : jsstring) : c <> [] -> prefixedBlock c <> [].
Proof. unfold prefixedBlock. by destruct (startsWith _ _). Qed.

Lemma jsstring_eqb_false (a b : jsstring) : jsstring_eqb a b = false <-> a <> b.
Proof. unfold jsstring_eqb. apply bool_decide_eq_false. Qed.

Example prompt_of_diff_page :
  buildPrompt (page_href diffPage)
    (take 1 (@extractAllSuggestions asciiPlatform diffPage))
  = promptHeader (js "https://github.com/octo/repo/pull/7") ++ newline
    ++ js "#1 Please apply this." ++ newline
    ++ js "File: src/app.js (L42-L45)" ++ newline
    ++ js "Review:" ++ newline
    ++ js "Please apply this." ++ newline
    ++ js "Suggested diff:" ++ newline ++ oldNewDiff.
Proof. vm_compute. reflexivity. Qed.

(** C7 (as amended): the block of an item of the prompt comes from
    [suggestedChange] when that field holds a string that is not empty;
    otherwise from [text], when [text] is not empty and is not the summary
    already printed in the heading; otherwise there is no block. The chosen
    string is printed as it is when, once trimmed, it starts with
    "Suggested", and after the line "Suggested change:" otherwise; the
    block is the last part of the item. *)
Theorem prompt_suggestion_block (idx : nat) (s : Suggestion) :
  (forall c, sg_suggestedChange s = Some c -> c <> [] ->
     suggestionBlock s = Some (prefixedBlock c)
     /\ promptItem idx s
        = join newline (filterBoolean (promptItemHead idx s))
            ++ newline ++ prefixedBlock c)
  /\ (orNull (sg_suggestedChange s) = None ->
      sg_text s <> [] -> sg_text s <> sg_summary s ->
      suggestionBlock s = Some (prefixedBlock (sg_text s))
      /\ promptItem idx s
         = join newline (filterBoolean (promptItemHead idx s))
             ++ newline ++ prefixedBlock (sg_text s))
  /\ (orNull (sg_suggestedChange s) = None ->
      sg_text s = [] \/ sg_text s = sg_summary s ->
      suggestionBlock s = None
      /\ promptItem idx s = join newline (filterBoolean (promptItemHead idx s))).
Proof.
  split; [|split].
  - intros c Hc Hne.
    assert (suggestionBlock s = Some (prefixedBlock c)) as Hb.
    { unfold suggestionBlock, prefixedBlock. rewrite Hc.
      destruct c as [|a c]; [done|]. cbn [orNull]. by destruct (startsWith _ _). }
    split; [done|].
    by apply promptItem_with_block, prefixedBlock_nonempty.
  - intros Hc Ht Hts.
    assert (suggestionBlock s = Some (prefixedBlock (sg_text s))) as Hb.
    { unfold suggestionBlock, prefixedBlock. rewrite Hc.
      apply isEmpty_false in Ht. apply jsstring_eqb_false in Hts.
      rewrite Ht, Hts. cbn [negb andb]. by destruct (startsWith _ _). }
    split; [done|].
    by apply promptItem_with_block, prefixedBlock_nonempty.
  - intros Hc Ht.
    assert (suggestionBlock s = None) as Hb.
    { unfold suggestionBlock. rewrite Hc. destruct Ht as [Ht|Ht].
      - by rewrite Ht.
      - unfold jsstring_eqb. rewrite (bool_decide_eq_true_2 _ Ht).
        by rewrite andb_false_r. }
    split; [done|]. by apply promptItem_without_block.
Qed.

(** C7, as first stated, fails twice. A suggestion whose text is its own
    summary gets no block from its text; and a chosen string that starts
    with "Suggested diff:" is printed without the line "Suggested change:",
    though it does not start with that prefix. *)
Lemma prompt_block_not_always_prefixed :
  (exists s : Suggestion,
     @extractAllSuggestions asciiPlatform shortPage = [s]
     /\ sg_suggestedChange s = None /\ sg_text s = js "Rename x."
     /\ suggestionBlock s = None
     /\ includes (js "Suggested change:") (promptItem 0 s) = false)
  /\ (exists (s : Suggestion) (rest : list Suggestion),
        @extractAllSuggestions asciiPlatform diffPage = s :: rest
        /\ sg_suggestedChange s = Some (js "Suggested diff:" ++ newline ++ oldNewDiff)
        /\ suggestionBlock s = sg_suggestedChange s
        /\ startsWith (js "Suggested change:")
             (js "Suggested diff:" ++ newline ++ oldNewDiff) = false
        /\ includes (js "Suggested change:") (promptItem 0 s) = false).
Proof.
  split.
  - eexists. split; [vm_compute; reflexivity|].
    repeat split; vm_compute; reflexivity.
  - eexists _, _. split; [vm_compute; reflexivity|].
    repeat split; vm_compute; reflexivity.
Qed.

(** ** Selection-state store *)

Section StoreProperties.
Context {St : Type} `{StorageArea St}.
Variables (origin pathname suffix : jsstring).

Lemma getStoredSet_returns (st : St) :
  exists set, getStoredSet origin pathname suffix st = Ok set.
Proof.
  unfold getStoredSet, tryCatch. destruct (bindResult _ _); eauto.
Qed.

Lemma getStoredSet_read_failure (st : St) :
  getItem st (currentPRKey origin pathname ++ suffix) = Throw ->
  getStoredSet origin pathname suffix st = Ok [].
Proof. unfold getStoredSet. by intros ->. Qed.

Lemma getStoredSet_parse_failure (st : St) (raw : jsstring) :
  getItem st (currentPRKey origin pathname ++ suffix) = Ok (Some raw) ->
  JSON_parse raw = None ->
  getStoredSet origin pathname suffix st = Ok [].
Proof.
  unfold getStoredSet. intros -> Hp. cbn. destruct raw; [done|].
  cbn. by rewrite Hp.
Qed.

Lemma saveStoredSet_returns (st : St) (set : list json) :
  exists st', saveStoredSet origin pathname suffix st set = Ok st'.
Proof.
  unfold saveStoredSet, tryCatch. destruct (setItem _ _ _); eauto.
Qed.

Lemma saveStoredSet_write_failure (st : St) (set : list json) :
  setItem st (currentPRKey origin pathname ++ suffix)
          (JSON_stringify (JArray set) 0) = Throw ->
  saveStoredSet origin pathname suffix st set = Ok st.
Proof. unfold saveStoredSet. by intros ->. Qed.

End StoreProperties.

(** C9: whatever the storage area does, the four operations of the store
    return and never throw. A read that throws, or that finds text that
    is not JSON, gives the empty set; a write that throws is dropped and
    leaves the state as it was. *)
Theorem storage_never_throws {St : Type} `{StorageArea St}
        (origin pathname : jsstring) (st : St) (set : list json) :
  let key := fun suffix => currentPRKey origin pathname ++ suffix in
  ((exists s, getDeselectedSet origin pathname st = Ok s)
   /\ (exists s, getIgnoredSet origin pathname st = Ok s)
   /\ (exists st', saveDeselectedSet origin pathname st set = Ok st')
   /\ (exists st', saveIgnoredSet origin pathname st set = Ok st'))
  /\ (getItem st (key (js ":deselected")) = Throw ->
      getDeselectedSet origin pathname st = Ok [])
  /\ (getItem st (key (js ":ignored")) = Throw ->
      getIgnoredSet origin pathname st = Ok [])
  /\ (forall raw, getItem st (key (js ":deselected")) = Ok (Some raw) ->
        JSON_parse raw = None -> getDeselectedSet origin pathname st = Ok [])
  /\ (forall raw, getItem st (key (js ":ignored")) = Ok (Some raw) ->
        JSON_parse raw = None -> getIgnoredSet origin pathname st = Ok [])
  /\ (setItem st (key (js ":deselected")) (JSON_stringify (JArray set) 0) = Throw ->
      saveDeselectedSet origin pathname st set = Ok st)
  /\ (setItem st (key (js ":ignored")) (JSON_stringify (JArray set) 0) = Throw ->
      saveIgnoredSet origin pathname st set = Ok st).
Proof.
  cbv zeta. unfold getDeselectedSet, getIgnoredSet, saveDeselectedSet, saveIgnoredSet.
  repeat split;
    eauto using getStoredSet_returns, saveStoredSet_returns,
      getStoredSet_read_failure, getStoredSet_parse_failure,
      saveStoredSet_write_failure.
Qed.

Example quota_error_is_ignored :
  saveDeselectedSet (js "https://github.com") (js "/octo/repo/pull/7")
    fullStorage [JString (js "review-thread-or-comment-id-1:0:0:ykbijb")]
  = Ok fullStorage.
Proof. vm_compute. reflexivity. Qed.

Example denied_read_is_empty :
  getIgnoredSet (js "https://github.com") (js "/octo/repo/pull/7") deniedStorage
  = Ok [].
Proof. vm_compute. reflexivity. Qed.

Example garbled_read_is_empty :
  getDeselectedSet (js "https://github.com") (js "/octo/repo/pull/7") garbledStorage
  = Ok [].
Proof. vm_compute. reflexivity. Qed.

(** ** JSON: strings *)

Lemma hexValue_digitChar (d : N) : d < 16 -> hexValue (digitChar d) = Some d.
Proof.
  intros Hd.
  assert (d = 0 \/ d = 1 \/ d = 2 \/ d = 3 \/ d = 4 \/ d = 5 \/ d = 6 \/ d = 7
          \/ d = 8 \/ d = 9 \/ d = 10 \/ d = 11 \/ d = 12 \/ d = 13 \/ d = 14
          \/ d = 15) as Hcases by lia.
  repeat (destruct Hcases as [->|Hcases]; [reflexivity|]). by subst.
Qed.

Lemma hex_digits_value (c : N) :
  c < 65536 ->
  ((c / 4096 mod 16 * 16 + c / 256 mod 16) * 16 + c / 16 mod 16) * 16 + c mod 16
  = c.
Proof.
  intros Hc. zify. Z.to_euclidean_division_equations. lia.
Qed.

Lemma parseHex4_hex4 (c : N) :
  c < 65536 ->
  parseHex4 (digitChar (c / 4096 mod 16)) (digitChar (c / 256 mod 16))
            (digitChar (c / 16 mod 16)) (digitChar (c mod 16))
  = Some c.
Proof.
  intros Hc. unfold parseHex4.
  rewrite !hexValue_digitChar by (apply N.mod_lt; lia).
  by rewrite hex_digits_value.
Qed.

Lemma parse_unicodeEscape (c : N) (tail : jsstring) :
  c < 65536 ->
  parseStringBody (unicodeEscape c ++ tail)
  = consParsed c (parseStringBody tail).
Proof.
  intros Hc. unfold unicodeEscape, hex4.
  cbn [app parseStringBody].
  change (92 =? 34) with false. change (92 =? 92) with true.
  change (117 =? 117) with true. cbn iota.
  rewrite (parseHex4_hex4 c Hc). reflexivity.
Qed.

Lemma parse_literal (c : N) (tail : jsstring) :
  32 <= c -> c <> 34 -> c <> 92 ->
  parseStringBody (c :: tail) = consParsed c (parseStringBody tail).
Proof.
  intros H32 H34 H92. cbn [parseStringBody].
  rewrite (proj2 (N.eqb_neq c 34) H34), (proj2 (N.eqb_neq c 92) H92).
  by rewrite (proj2 (N.ltb_ge c 32) H32).
Qed.

Lemma parse_quoteChar (c : N) (tail : jsstring) :
  parseStringBody (quoteChar c ++ tail) = consParsed c (parseStringBody tail).
Proof.
  unfold quoteChar.
  repeat match goal with
         | |- context [N.eqb c ?k] =>
             destruct (N.eqb_spec c k) as [->|?]; [reflexivity|]
         end.
  destruct (N.ltb_spec c 32).
  - apply parse_unicodeEscape. lia.
  - by apply parse_literal.
Qed.

Lemma parse_quoteBody (s tail : jsstring) :
  parseStringBody (quoteBody s ++ 34 :: tail) = Some (s, tail).
Proof.
  remember (length s) as n eqn:Hn. revert s Hn.
  induction n as [n IH] using lt_wf_ind. intros s ->.
  destruct s as [|c r]; [reflexivity|]. cbn [quoteBody].
  assert (parseStringBody (quoteBody r ++ 34 :: tail) = Some (r, tail)) as Hr.
  { apply (IH (length r)); [cbn; lia | done]. }
  destruct (isHighSurrogate c) eqn:Hhi.
  - apply andb_true_iff in Hhi as [Hlo%N.leb_le Hup%N.leb_le].
    destruct r as [|d r'].
    + rewrite parse_unicodeEscape by lia. reflexivity.
    + destruct (isLowSurrogate d) eqn:Hlow.
      * apply andb_true_iff in Hlow as [Hlo'%N.leb_le Hup'%N.leb_le].
        cbn [app]. rewrite !parse_literal by lia.
        rewrite (IH (length r')); [reflexivity | cbn; lia | done].
      * rewrite <- app_assoc, parse_unicodeEscape by lia. by rewrite Hr.
  - destruct (isLowSurrogate c) eqn:Hlow.
    + apply andb_true_iff in Hlow as [Hlo%N.leb_le Hup%N.leb_le].
      rewrite <- app_assoc, parse_unicodeEscape by lia. by rewrite Hr.
    + rewrite <- app_assoc, parse_quoteChar. by rewrite Hr.
Qed.

(** ** JSON: numbers *)

Lemma isDigit_digitChar (d : N) : d < 10 -> isDigit (digitChar d) = true.
Proof.
  intros Hd. unfold isDigit, digitChar. rewrite (proj2 (N.ltb_lt d 10) Hd).
  apply andb_true_iff. split; apply N.leb_le; lia.
Qed.

Lemma digitChar_value (d : N) :
  d < 10 -> (Z.of_N (digitChar d) - 48 = Z.of_N d)%Z.
Proof.
  intros Hd. unfold digitChar. rewrite (proj2 (N.ltb_lt d 10) Hd). lia.
Qed.

Lemma takeWhile_app_stop (p : N -> bool) (l rest : jsstring) :
  forallb p l = true ->
  (forall c, head rest = Some c -> p c = false) ->
  takeWhile p (l ++ rest) = l /\ dropWhile p (l ++ rest) = rest.
Proof.
  intros Hl Hrest. induction l as [|a l IH]; cbn.
  - destruct rest as [|c rest]; [done|]. cbn. by rewrite (Hrest c eq_refl).
  - cbn in Hl. apply andb_true_iff in Hl as [Ha Hl]. rewrite Ha.
    destruct (IH Hl) as [-> ->]. done.
Qed.

Lemma readDigits_digits (ds : list N) (acc : Z) :
  Forall (fun d => d < 10) ds ->
  readDigits acc (map digitChar ds)
  = fold_left (fun a d => (10 * a + Z.of_N d)%Z) ds acc.
Proof.
  intros Hds. revert acc. induction Hds as [|d ds Hd _ IH]; intros acc; [done|].
  cbn [map readDigits fold_left].
  by rewrite (isDigit_digitChar d Hd), (digitChar_value d Hd), IH.
Qed.

Lemma fold_digits_reverse (ds : list N) :
  fold_left (fun a d => (10 * a + Z.of_N d)%Z) (reverse ds) 0%Z
  = Z.of_N (digitsValue 10 ds).
Proof.
  induction ds as [|d ds IH]; [done|].
  rewrite reverse_cons, fold_left_app, IH. cbn [fold_left digitsValue]. lia.
Qed.

Lemma decimal_digits (n : N) :
  Forall (fun d => d < 10)
         (reverse (digitsRev 10 (S (N.to_nat (N.log2 n))) n)).
Proof. apply Forall_reverse, digitsRev_bound. lia. Qed.

Lemma readDigits_toRadix (n : N) : readDigits 0 (toRadix 10 n) = Z.of_N n.
Proof.
  unfold toRadix. rewrite readDigits_digits by apply decimal_digits.
  rewrite fold_digits_reverse, digitsRev_value; [done | lia | apply log2_fuel].
Qed.

Lemma toRadix_all_digits (n : N) : forallb isDigit (toRadix 10 n) = true.
Proof.
  unfold toRadix. apply forallb_forall. intros c (d & <- & Hd)%in_map_iff.
  apply isDigit_digitChar.
  pose proof (decimal_digits n) as Hall. rewrite Forall_forall in Hall.
  apply Hall. by apply list_elem_of_In.
Qed.

Lemma digitsRev_last (base : N) (fuel : nat) (n : N) :
  2 <= base -> 0 < n -> n < 2 ^ N.of_nat fuel ->
  exists d, last (digitsRev base fuel n) = Some d /\ 0 < d.
Proof.
  intros Hb. revert n. induction fuel as [|f IH]; intros n Hpos Hn.
  - cbn in Hn. lia.
  - cbn [digitsRev]. destruct (N.ltb_spec n base) as [Hlt|Hge].
    + exists n. by split.
    + destruct (IH (n / base)) as (d & Hd & Hdpos).
      * apply N.div_str_pos. lia.
      * apply N.Div0.div_lt_upper_bound.
        rewrite Nat2N.inj_succ, N.pow_succ_r' in Hn. nia.
      * exists d. split; [|done].
        destruct (digitsRev base f (n / base)) as [|e l]; [done|].
        by rewrite last_cons_cons.
Qed.

(** The decimal text of a number is the single digit 0, or starts with a
    digit that is not 0. *)
Lemma toRadix_head (n : N) :
  toRadix 10 n = [48]
  \/ exists d more, toRadix 10 n = digitChar d :: more /\ 0 < d < 10.
Proof.
  destruct (N.eq_dec n 0) as [->|Hn]; [by left|]. right.
  destruct (digitsRev_last 10 (S (N.to_nat (N.log2 n))) n)
    as (d & Hd & Hpos); [lia | lia | apply log2_fuel|].
  apply last_Some in Hd as [l' Hl]. unfold toRadix.
  rewrite Hl, reverse_snoc. cbn [map]. exists d, (map digitChar (reverse l')).
  split; [done|]. split; [done|].
  pose proof (digitsRev_bound 10 (S (N.to_nat (N.log2 n))) n ltac:(lia)) as Hall.
  rewrite Hl, Forall_app, Forall_singleton in Hall. by destruct Hall.
Qed.

Lemma delimited_not_digit (rest : jsstring) (c : N) :
  delimited rest -> head rest = Some c ->
  isDigit c = false /\ ((c =? 46) || (c =? 101) || (c =? 69)) = false.
Proof.
  destruct rest as [|a rest]; [done|]. cbn. intros Hd [= <-].
  destruct Hd as [-> | [-> | [-> | ->]]]; by split.
Qed.

Lemma parseJsonDigits_toRadix (n : N) (rest : jsstring) :
  delimited rest ->
  parseJsonDigits (toRadix 10 n ++ rest) = Some (Z.of_N n, rest).
Proof.
  intros Hrest. unfold parseJsonDigits.
  destruct (takeWhile_app_stop isDigit (toRadix 10 n) rest
              (toRadix_all_digits n)) as [-> ->].
  { intros c Hc. by destruct (delimited_not_digit rest c Hrest Hc). }
  assert (match rest with
          | [] => true
          | c :: _ => negb ((c =? 46) || (c =? 101) || (c =? 69))
          end = true) as ->.
  { destruct rest as [|c rest']; [done|].
    by destruct (delimited_not_digit (c :: rest') c Hrest eq_refl) as [_ ->]. }
  pose proof (readDigits_toRadix n) as Hval.
  destruct (toRadix_head n) as [E|(d & more & E & Hd)]; rewrite E in *.
  - cbn. by rewrite <- Hval.
  - assert ((digitChar d =? 48) = false) as ->.
    { apply N.eqb_neq. unfold digitChar.
      rewrite (proj2 (N.ltb_lt d 10)) by lia. lia. }
    cbn [andb]. by rewrite Hval.
Qed.

(** ** JSON: values *)

Lemma json_nested_ind (P : json -> Prop) :
  P JNull -> (forall b, P (JBool b)) -> (forall z, P (JNumber z)) ->
  (forall s, P (JString s)) ->
  (forall items, Forall P items -> P (JArray items)) ->
  (forall members, Forall (fun m => P (snd m)) members -> P (JObject members)) ->
  forall v, P v.
Proof.
  intros Hnull Hbool Hnum Hstr Harr Hobj. fix IH 1.
  intros [|b|z|s|items|members]; [done..| |].
  - apply Harr. revert items. fix IHl 1.
    intros [|x items]; constructor; [apply IH | apply IHl].
  - apply Hobj. revert members. fix IHl 1.
    intros [|m members]; constructor; [apply IH | apply IHl].
Qed.

Lemma skip_spaces (pre s : jsstring) :
  forallb isJsonSpace pre = true ->
  (forall c, head s = Some c -> isJsonSpace c = false) ->
  dropWhile isJsonSpace (pre ++ s) = s.
Proof. intros Hpre Hs. by destruct (takeWhile_app_stop _ pre s Hpre Hs). Qed.

Lemma spaces_are_spaces (n : nat) : forallb isJsonSpace (spaces n) = true.
Proof. induction n; [done|]. cbn. done. Qed.

Lemma breakLine_spaces (gap indent : nat) :
  forallb isJsonSpace (breakLine gap indent) = true.
Proof. destruct gap; [done|]. cbn. apply spaces_are_spaces. Qed.

Lemma isDigit_range (c : N) : isDigit c = true -> 48 <= c <= 57.
Proof. unfold isDigit. intros [?%N.leb_le ?%N.leb_le]%andb_true_iff. lia. Qed.

Lemma toRadix_cons (n : N) :
  exists c tail, toRadix 10 n = c :: tail /\ isDigit c = true.
Proof.
  destruct (toRadix_head n) as [E|(d & more & E & Hd)].
  - by exists 48, [].
  - exists (digitChar d), more. split; [done|]. apply isDigit_digitChar. lia.
Qed.

Lemma serialize_head (gap indent : nat) (v : json) :
  exists c tail, serialize gap indent v = c :: tail /\ opensValue c.
Proof.
  destruct v as [|[|]|z|s|[|x items]|[|m members]];
    try (eexists _, _; split; [reflexivity|]; by repeat split).
  destruct z as [|p|p].
  - eexists _, _. split; [reflexivity|]. by repeat split.
  - destruct (toRadix_cons (Z.to_N (Z.pos p))) as (c & tail & E & Hc).
    exists c, tail. split; [exact E|]. apply isDigit_range in Hc.
    unfold opensValue, isJsonSpace.
    repeat split; try lia.
    repeat (apply orb_false_iff; split); apply N.eqb_neq; lia.
  - eexists _, _. split; [reflexivity|]. by repeat split.
Qed.

Lemma skip_to_value (gap indent : nat) (v : json) (pre rest : jsstring) :
  forallb isJsonSpace pre = true ->
  dropWhile isJsonSpace (pre ++ serialize gap indent v ++ rest)
  = serialize gap indent v ++ rest.
Proof.
  intros Hpre. apply skip_spaces; [done|].
  destruct (serialize_head gap indent v) as (c & tail & -> & Hc & _).
  cbn. by intros ? [= <-].
Qed.

Lemma layoutItems_one (gap indent : nat) (t : jsstring) :
  layoutItems gap indent [t] = t ++ breakLine gap indent.
Proof. reflexivity. Qed.

Lemma layoutItems_more (gap indent : nat) (t u : jsstring) (r : list jsstring) :
  layoutItems gap indent (t :: u :: r)
  = t ++ 44 :: breakLine gap (indent + gap) ++ layoutItems gap indent (u :: r).
Proof. reflexivity. Qed.

Lemma delimited_break (gap indent : nat) (close : N) (rest : jsstring) :
  close = 93 \/ close = 125 ->
  delimited (breakLine gap indent ++ close :: rest).
Proof. destruct gap; cbn; tauto. Qed.

Lemma skip_break (gap indent : nat) (c : N) (rest : jsstring) :
  isJsonSpace c = false ->
  dropWhile isJsonSpace (breakLine gap indent ++ c :: rest) = c :: rest.
Proof.
  intros Hc. apply skip_spaces; [apply breakLine_spaces|].
  cbn. by intros ? [= <-].
Qed.

Lemma parseElements_layout (gap indent : nat) (items : list json) :
  Forall roundTrips items -> items <> [] ->
  forall (fuel : nat) (pre rest : jsstring),
    forallb isJsonSpace pre = true ->
    (length (layoutItems gap indent (map (serialize gap (indent + gap)) items)) + 1
     < fuel)%nat ->
    parseElements fuel
      (pre ++ layoutItems gap indent (map (serialize gap (indent + gap)) items)
           ++ 93 :: rest)
    = Some (items, rest).
Proof.
  induction 1 as [|x items Hx Hitems IH]; [done|]. intros _ fuel pre rest Hpre Hfuel.
  destruct fuel as [|f]; [lia|]. cbn [parseElements].
  destruct items as [|y more].
  - cbn [map] in *. rewrite layoutItems_one in *. rewrite length_app in Hfuel.
    rewrite <- app_assoc.
    rewrite (Hx gap (indent + gap)%nat f pre
               (breakLine gap indent ++ 93 :: rest) Hpre);
      [|apply delimited_break; by left | lia].
    rewrite skip_break by done. reflexivity.
  - cbn [map] in *. rewrite layoutItems_more in *.
    rewrite length_app in Hfuel. cbn [length] in Hfuel.
    rewrite length_app in Hfuel.
    rewrite <- app_assoc. cbn [app].
    rewrite (Hx gap (indent + gap)%nat f pre _ Hpre); [|by left | lia].
    cbn [dropWhile isJsonSpace]. change (isJsonSpace 44) with false. cbn iota.
    change (44 =? 93) with false. change (44 =? 44) with true. cbn iota.
    rewrite <- app_assoc.
    rewrite (IH ltac:(done) f (breakLine gap (indent + gap)) rest);
      [done | apply breakLine_spaces | lia].
Qed.

Lemma skip_colon (gap : nat) (s : jsstring) :
  exists pre, forallb isJsonSpace pre = true
              /\ dropWhile isJsonSpace (colonSep gap ++ s) = 58 :: pre ++ s.
Proof. destruct gap; [by exists [] | by exists [32]]. Qed.

Lemma parseMembers_layout (gap indent : nat) (members : list (jsstring * json)) :
  Forall (fun m => roundTrips (snd m)) members -> members <> [] ->
  forall (fuel : nat) (pre rest : jsstring),
    forallb isJsonSpace pre = true ->
    (length (layoutItems gap indent
               (map (fun m => quoteJSONString (fst m) ++ colonSep gap
                                ++ serialize gap (indent + gap) (snd m))
                    members)) + 1
     < fuel)%nat ->
    parseMembers fuel
      (pre ++ layoutItems gap indent
                (map (fun m => quoteJSONString (fst m) ++ colonSep gap
                                 ++ serialize gap (indent + gap) (snd m))
                     members)
           ++ 125 :: rest)
    = Some (members, rest).
Proof.
  induction 1 as [|[key v] members Hv Hmembers IH]; [done|].
  intros _ fuel pre rest Hpre Hfuel. cbn [fst snd] in Hv.
  destruct fuel as [|f]; [lia|]. cbn [parseMembers].
  assert (forall tail,
    dropWhile isJsonSpace
      (pre ++ (quoteJSONString key ++ colonSep gap
                 ++ serialize gap (indent + gap) v) ++ tail)
    = 34 :: quoteBody key ++ 34 :: colonSep gap
         ++ serialize gap (indent + gap) v ++ tail) as Hskip.
  { intros tail. rewrite skip_spaces; [|done|by intros ? [= <-]].
    unfold quoteJSONString. cbn [app]. f_equal.
    rewrite <- !app_assoc. reflexivity. }
  destruct (skip_colon gap (serialize gap (indent + gap) v ++ breakLine gap indent
                              ++ 125 :: rest)) as (sp1 & Hsp1 & Hcolon1).
  destruct members as [|[key' v'] more].
  - cbn [map fst snd] in *. rewrite layoutItems_one in *.
    rewrite !length_app in Hfuel. unfold quoteJSONString in Hfuel.
    cbn [length] in Hfuel. rewrite length_app in Hfuel.
    rewrite <- (app_assoc _ (breakLine gap indent)), Hskip.
    cbn [startsWithChar drop]. rewrite drop_0.
    change (34 =? 34) with true. cbn iota.
    rewrite parse_quoteBody.
    rewrite Hcolon1.
    cbn [startsWithChar drop]. rewrite drop_0.
    change (58 =? 58) with true. cbn iota.
    rewrite (Hv gap (indent + gap)%nat f sp1
               (breakLine gap indent ++ 125 :: rest) Hsp1);
      [|apply delimited_break; by right | lia].
    rewrite skip_break by done. reflexivity.
  - cbn [map fst snd] in *. rewrite layoutItems_more in *.
    set (restText := layoutItems gap indent
           ((quoteJSONString key' ++ colonSep gap ++ serialize gap (indent + gap) v')
            :: map (fun m => quoteJSONString (fst m) ++ colonSep gap
                               ++ serialize gap (indent + gap) (snd m)) more)) in *.
    rewrite !length_app in Hfuel. cbn [length] in Hfuel.
    rewrite length_app in Hfuel. unfold quoteJSONString in Hfuel.
    cbn [length] in Hfuel. rewrite length_app in Hfuel.
    destruct (skip_colon gap
                (serialize gap (indent + gap) v
                   ++ 44 :: breakLine gap (indent + gap) ++ restText ++ 125 :: rest))
      as (sp2 & Hsp2 & Hcolon2).
    rewrite <- (app_assoc _ (44 :: _)), Hskip.
    cbn [startsWithChar drop]. rewrite drop_0.
    change (34 =? 34) with true. cbn iota.
    rewrite parse_quoteBody. cbn [app].
    rewrite <- (app_assoc (breakLine gap (indent + gap))). rewrite Hcolon2.
    cbn [startsWithChar drop]. rewrite drop_0.
    change (58 =? 58) with true. cbn iota.
    rewrite (Hv gap (indent + gap)%nat f sp2 _ Hsp2); [|by left | lia].
    cbn [dropWhile isJsonSpace]. change (isJsonSpace 44) with false. cbn iota.
    change (44 =? 125) with false. change (44 =? 44) with true. cbn iota.
    rewrite (IH ltac:(done) f (breakLine gap (indent + gap)) rest);
      [done | apply breakLine_spaces | lia].
Qed.

Lemma digit_not_keyword (c : N) :
  isDigit c = true ->
  (c =? 110) = false /\ (c =? 116) = false /\ (c =? 102) = false
  /\ (c =? 34) = false /\ (c =? 45) = false.
Proof.
  intros Hc%isDigit_range. repeat split; apply N.eqb_neq; lia.
Qed.

Lemma parse_number (z : Z) : roundTrips (JNumber z).
Proof.
  intros gap indent fuel pre rest Hpre Hrest Hfuel.
  destruct fuel as [|f]; [lia|]. cbn [parseValue].
  rewrite skip_to_value by done. cbn [serialize].
  destruct z as [|p|p]; unfold numberToString.
  1, 2: match goal with
        | |- context [toRadix 10 ?n] =>
            destruct (toRadix_cons n) as (c & tail & E & Hc); rewrite E;
            cbn [app];
            destruct (digit_not_keyword c Hc) as (-> & -> & -> & -> & ->);
            rewrite Hc;
            change (c :: tail ++ rest) with ((c :: tail) ++ rest);
            rewrite <- E, parseJsonDigits_toRadix by done
        end.
  - reflexivity.
  - reflexivity.
  - cbn [app].
    change (45 =? 110) with false. change (45 =? 116) with false.
    change (45 =? 102) with false. change (45 =? 34) with false.
    change (45 =? 45) with true. cbn iota.
    rewrite parseJsonDigits_toRadix by done. reflexivity.
Qed.

Lemma parse_string (s : jsstring) : roundTrips (JString s).
Proof.
  intros gap indent fuel pre rest Hpre Hrest Hfuel.
  destruct fuel as [|f]; [lia|]. cbn [parseValue].
  rewrite skip_to_value by done. cbn [serialize]. unfold quoteJSONString.
  cbn [app]. rewrite <- app_assoc. cbn [app].
  change (34 =? 110) with false. change (34 =? 116) with false.
  change (34 =? 102) with false. change (34 =? 34) with true. cbn iota.
  by rewrite parse_quoteBody.
Qed.

Lemma parse_array (items : list json) :
  Forall roundTrips items -> roundTrips (JArray items).
Proof.
  intros Hitems gap indent fuel pre rest Hpre Hrest Hfuel.
  destruct fuel as [|f]; [lia|]. cbn [parseValue].
  rewrite skip_to_value by done.
  destruct items as [|x items]; [reflexivity|].
  change (serialize gap indent (JArray (x :: items)))
    with (91 :: breakLine gap (indent + gap)
             ++ layoutItems gap indent
                  (map (serialize gap (indent + gap)) (x :: items))
             ++ [93]) in *.
  cbn [length] in Hfuel. rewrite !length_app in Hfuel. cbn [length] in Hfuel.
  cbn [app]. rewrite <- !app_assoc. cbn [app].
  change (91 =? 110) with false. change (91 =? 116) with false.
  change (91 =? 102) with false. change (91 =? 34) with false.
  change (91 =? 45) with false. change (isDigit 91) with false.
  change (91 =? 91) with true. cbn iota.
  destruct (serialize_head gap (indent + gap) x) as (c & tail & E & Hc).
  assert (startsWithChar 93
            (dropWhile isJsonSpace
               (breakLine gap (indent + gap)
                  ++ layoutItems gap indent
                       (map (serialize gap (indent + gap)) (x :: items))
                  ++ 93 :: rest)) = false) as ->.
  { destruct Hc as (Hsp & H93 & _).
    cbn [map]. destruct items as [|y more].
    - rewrite layoutItems_one, E. cbn [app map]. rewrite skip_break by done.
      cbn. by apply N.eqb_neq.
    - cbn [map]. rewrite layoutItems_more, E. cbn [app].
      rewrite skip_break by done. cbn. by apply N.eqb_neq. }
  rewrite (parseElements_layout gap indent (x :: items) Hitems ltac:(done) f
             (breakLine gap (indent + gap)) rest (breakLine_spaces _ _));
    [done | lia].
Qed.

Lemma parse_object (members : list (jsstring * json)) :
  Forall (fun m => roundTrips (snd m)) members -> roundTrips (JObject members).
Proof.
  intros Hmembers gap indent fuel pre rest Hpre Hrest Hfuel.
  destruct fuel as [|f]; [lia|]. cbn [parseValue].
  rewrite skip_to_value by done.
  destruct members as [|m members]; [reflexivity|].
  change (serialize gap indent (JObject (m :: members)))
    with (123 :: breakLine gap (indent + gap)
              ++ layoutItems gap indent
                   (map (fun m => quoteJSONString (fst m) ++ colonSep gap
                                    ++ serialize gap (indent + gap) (snd m))
                        (m :: members))
              ++ [125]) in *.
  cbn [length] in Hfuel. rewrite !length_app in Hfuel. cbn [length] in Hfuel.
  cbn [app]. rewrite <- !app_assoc. cbn [app].
  change (123 =? 110) with false. change (123 =? 116) with false.
  change (123 =? 102) with false. change (123 =? 34) with false.
  change (123 =? 45) with false. change (isDigit 123) with false.
  change (123 =? 91) with false. change (123 =? 123) with true. cbn iota.
  assert (startsWithChar 125
            (dropWhile isJsonSpace
               (breakLine gap (indent + gap)
                  ++ layoutItems gap indent
                       (map (fun m => quoteJSONString (fst m) ++ colonSep gap
                                        ++ serialize gap (indent + gap) (snd m))
                            (m :: members))
                  ++ 125 :: rest)) = false) as ->.
  { cbn [map]. destruct members as [|m' more].
    - rewrite layoutItems_one. unfold quoteJSONString. cbn [app].
      by rewrite skip_break.
    - cbn [map]. rewrite layoutItems_more. unfold quoteJSONString. cbn [app].
      by rewrite skip_break. }
  rewrite (parseMembers_layout gap indent (m :: members) Hmembers ltac:(done) f
             (breakLine gap (indent + gap)) rest (breakLine_spaces _ _));
    [done | lia].
Qed.

(** The parser reads back the text of every value. *)
Lemma serialize_roundTrips (v : json) : roundTrips v.
Proof.
  induction v using json_nested_ind.
  - intros gap indent [|f] pre rest Hpre Hrest Hfuel; [cbn in Hfuel; lia|].
    cbn [parseValue]. by rewrite skip_to_value.
  - intros gap indent [|f] pre rest Hpre Hrest Hfuel; [cbn in Hfuel; lia|].
    cbn [parseValue]. rewrite skip_to_value by done. by destruct b.
  - apply parse_number.
  - apply parse_string.
  - by apply parse_array.
  - by apply parse_object.
Qed.

(** [JSON.parse(JSON.stringify(v, null, gap))] is [v]. *)
Lemma JSON_parse_stringify (v : json) (gap : nat) :
  JSON_parse (JSON_stringify v gap) = Some v.
Proof.
  unfold JSON_parse, JSON_stringify.
  pose proof (serialize_roundTrips v gap 0%nat
                (S (length (serialize gap 0 v))) [] [] eq_refl I) as Hp.
  cbn [app] in Hp. rewrite app_nil_r in Hp. rewrite Hp; [done | lia].
Qed.

(** ** JSON builder *)

Lemma normalize_names (s : Suggestion) : memberNames (normalize s) = recordKeys.
Proof. reflexivity. Qed.

Lemma normalize_absent (s : Suggestion) :
  (sg_filePath s = None -> getMember (js "filePath") (normalize s) = Some JNull)
  /\ (sg_lineStart s = None -> getMember (js "lineStart") (normalize s) = Some JNull)
  /\ (sg_lineEnd s = None -> getMember (js "lineEnd") (normalize s) = Some JNull)
  /\ (sg_codeMentioned s = None ->
      getMember (js "codeMentioned") (normalize s) = Some JNull)
  /\ (sg_reviewText s = None ->
      getMember (js "reviewText") (normalize s) = Some JNull)
  /\ (sg_suggestedChange s = None ->
      getMember (js "suggestedChange") (normalize s) = Some JNull).
Proof.
  unfold normalize. repeat split; intros ->; vm_compute; reflexivity.
Qed.

(** C4: parsing the text of [buildJSON] gives an object whose member
    [suggestions] is an array with one record per suggestion, in the same
    order; every record has the same nine members, and a member whose
    field is absent is there with the value [null]. *)
Theorem buildJSON_roundtrip (href : jsstring) (items : list Suggestion) :
  exists (parsed : json) (records : list json),
    JSON_parse (buildJSON href items) = Some parsed
    /\ getMember (js "suggestions") parsed = Some (JArray records)
    /\ length records = length items
    /\ Forall2
         (fun s r =>
            r = normalize s
            /\ memberNames r = recordKeys
            /\ (sg_filePath s = None -> getMember (js "filePath") r = Some JNull)
            /\ (sg_lineStart s = None -> getMember (js "lineStart") r = Some JNull)
            /\ (sg_lineEnd s = None -> getMember (js "lineEnd") r = Some JNull)
            /\ (sg_codeMentioned s = None ->
                getMember (js "codeMentioned") r = Some JNull)
            /\ (sg_reviewText s = None ->
                getMember (js "reviewText") r = Some JNull)
            /\ (sg_suggestedChange s = None ->
                getMember (js "suggestedChange") r = Some JNull))
         items records.
Proof.
  exists (JObject [ (js "pr", JString href);
                    (js "suggestions", JArray (map normalize items)) ]),
         (map normalize items).
  split; [apply JSON_parse_stringify|].
  split; [vm_compute; reflexivity|].
  split; [apply length_map|].
  induction items as [|s items IH]; constructor; [|exact IH].
  split; [done|]. split; [apply normalize_names | apply normalize_absent].
Qed.

Example buildJSON_empty_selection :
  JSON_parse (buildJSON (js "https://github.com/octo/repo/pull/7") [])
  = Some (JObject [ (js "pr", JString (js "https://github.com/octo/repo/pull/7"));
                    (js "suggestions", JArray []) ]).
Proof. vm_compute. reflexivity. Qed.

Example buildJSON_sample_page :
  (fun parsed => getMember (js "suggestions") parsed)
    <$> JSON_parse (buildJSON (page_href samplePage)
                      (@extractAllSuggestions asciiPlatform samplePage))
  = Some (Some (JArray (map normalize
                          (@extractAllSuggestions asciiPlatform samplePage)))).
Proof. vm_compute. reflexivity. Qed.

(** What is saved for a page is what the next read gives back. *)
Example saved_ids_are_read_back :
  bindResult
    (saveDeselectedSet (js "https://github.com") (js "/octo/repo/pull/7")
       {| qs_denied := false; qs_quota := 1000; qs_items := ∅ |}
       [JString (js "review-thread-or-comment-id-1:0:0:ykbijb")])
    (fun st => getDeselectedSet (js "https://github.com") (js "/octo/repo/pull/7") st)
  = Ok [JString (js "review-thread-or-comment-id-1:0:0:ykbijb")].
Proof. vm_compute. reflexivity. Qed.

(** ** Page guard *)

Lemma takeWhile_dropWhile (p : N -> bool) (s : jsstring) :
  takeWhile p s ++ dropWhile p s = s.
Proof.
  induction s as [|c r IH]; [reflexivity|].
  cbn. destruct (p c); [cbn; by rewrite IH|reflexivity].
Qed.

Lemma takeWhile_all (p : N -> bool) (s : jsstring) :
  forallb p (takeWhile p s) = true.
Proof.
  induction s as [|c r IH]; [reflexivity|].
  cbn. destruct (p c) eqn:Hc; [cbn; by rewrite Hc|reflexivity].
Qed.

Lemma startsWith_app (p s : jsstring) : startsWith p (p ++ s) = true.
Proof.
  induction p as [|a p IH]; [reflexivity|].
  cbn. by rewrite N.eqb_refl.
Qed.

Lemma startsWith_split (p s : jsstring) :
  startsWith p s = true -> s = p ++ drop (length p) s.
Proof.
  revert s. induction p as [|a p IH]; intros [|b s] Hs; try done.
  cbn in Hs. apply andb_true_iff in Hs as [Hab Hs].
  apply N.eqb_eq in Hab as ->. cbn. f_equal. by apply IH.
Qed.

(** X1: [isPRPage] accepts exactly the paths [/owner/repo/pull/number],
    where [owner] and [repo] are not empty and hold no slash and [number]
    is a non-empty run of digits, and the same paths followed by a slash
    and by anything that holds no line terminator. *)
Theorem isPRPage_paths (pathname : jsstring) :
  isPRPage pathname = true <->
  exists owner repo number tail,
    pathname = prPath owner repo number tail
    /\ owner <> [] /\ forallb notSlash owner = true
    /\ repo <> [] /\ forallb notSlash repo = true
    /\ number <> [] /\ forallb isDigit number = true
    /\ (tail = []
        \/ exists rest, tail = 47 :: rest
                        /\ forallb notLineTerminator rest = true).
Proof.
  split.
  - destruct pathname as [|c r]; [done|]. unfold isPRPage.
    rewrite !andb_true_iff. intros [[Hc Ho] Hrest].
    apply N.eqb_eq in Hc as ->.
    destruct (dropWhile notSlash r) as [|s1 r2] eqn:Hr1; [done|].
    apply andb_true_iff in Hrest as [Hrest Hnum].
    apply andb_true_iff in Hrest as [Hrepo Hpull].
    cbv zeta in Hnum. apply andb_true_iff in Hnum as [Hnum Htail].
    assert (s1 = 47) as ->.
    { pose proof (dropWhile_head notSlash r s1) as Hh. rewrite Hr1 in Hh.
      specialize (Hh eq_refl). unfold notSlash in Hh.
      apply negb_false_iff, N.eqb_eq in Hh. done. }
    exists (takeWhile notSlash r), (takeWhile notSlash r2),
           (takeWhile isDigit (drop 6 (dropWhile notSlash r2))),
           (dropWhile isDigit (drop 6 (dropWhile notSlash r2))).
    repeat split.
    + unfold prPath. rewrite takeWhile_dropWhile.
      change (length (js "/pull/")) with 6%nat in *.
      pose proof (startsWith_split _ _ Hpull) as Hp.
      change (length (js "/pull/")) with 6%nat in Hp. rewrite <- Hp.
      rewrite takeWhile_dropWhile. cbn [app]. f_equal.
      rewrite <- Hr1. by rewrite takeWhile_dropWhile.
    + apply isEmpty_false. by apply negb_true_iff.
    + apply takeWhile_all.
    + apply isEmpty_false. by apply negb_true_iff.
    + apply takeWhile_all.
    + apply isEmpty_false. by apply negb_true_iff.
    + apply takeWhile_all.
    + destruct (dropWhile isDigit _) as [|d tail]; [by left|].
      apply andb_true_iff in Htail as [Hd Htail].
      apply N.eqb_eq in Hd as ->. right. by exists tail.
  - intros (owner & repo & number & tail & -> & Ho & Hos & Hr & Hrs & Hn & Hns & Ht).
    unfold prPath. cbn [app]. unfold isPRPage.
    destruct (takeWhile_app_stop notSlash owner (47 :: repo ++ js "/pull/" ++ number ++ tail) Hos)
      as [Ht1 Hd1]; [by intros c [= <-]|].
    rewrite Ht1, Hd1, N.eqb_refl.
    destruct (takeWhile_app_stop notSlash repo (js "/pull/" ++ number ++ tail) Hrs)
      as [Ht2 Hd2]; [by intros c [= <-]|].
    rewrite Ht2, Hd2. rewrite startsWith_app.
    rewrite drop_app_length'; [|reflexivity].
    assert (takeWhile isDigit (number ++ tail) = number
            /\ dropWhile isDigit (number ++ tail) = tail) as [Ht3 Hd3].
    { apply takeWhile_app_stop; [done|].
      destruct Ht as [->|(rest & -> & _)]; [done|]. by intros c [= <-]. }
    cbv zeta. rewrite Ht3, Hd3.
    apply isEmpty_false in Ho, Hr, Hn. rewrite Ho, Hr, Hn. cbn [negb andb].
    destruct Ht as [->|(rest & -> & Hrest)]; [done|].
    by rewrite N.eqb_refl.
Qed.

Example isPRPage_samples :
  isPRPage (js "/octo/repo/pull/7") = true
  /\ isPRPage (js "/octo/repo/pull/7/files") = true
  /\ isPRPage (js "/octo/repo/pull/7/") = true
  /\ isPRPage (js "/octo/repo/pulls") = false
  /\ isPRPage (js "/octo/repo/pull/") = false
  /\ isPRPage (js "/octo/repo/pull/7a") = false
  /\ isPRPage (js "/octo/pull/7") = false
  /\ isPRPage (js "/octo/repo/pull/7/files" ++ newline) = false.
Proof. repeat split; vm_compute; reflexivity. Qed.

(** ** Format of the hash *)

Lemma digitsRev_length (base : N) (fuel : nat) (n : N) (k : nat) :
  2 <= base -> n < base ^ N.of_nat (S k) ->
  (length (digitsRev base fuel n) <= S k)%nat.
Proof.
  intros Hb. revert n k. induction fuel as [|f IH]; intros n k Hn; cbn [digitsRev].
  - cbn. lia.
  - destruct (n <? base) eqn:Hlt; [cbn; lia|].
    apply N.ltb_ge in Hlt. cbn [length].
    destruct k as [|k].
    + change (N.of_nat 1) with 1 in Hn. rewrite N.pow_1_r in Hn. lia.
    + apply le_n_S, IH.
      replace (N.of_nat (S (S k))) with (N.succ (N.of_nat (S k))) in Hn by lia.
      rewrite N.pow_succ_r' in Hn.
      apply N.Div0.div_lt_upper_bound. lia.
Qed.

Lemma digitsRev_nonempty (base : N) (fuel : nat) (n : N) :
  (1 <= length (digitsRev base (S fuel) n))%nat.
Proof. cbn [digitsRev]. destruct (n <? base); cbn; lia. Qed.

Lemma digitChar_base36 (d : N) : d < 36 -> isBase36 (digitChar d) = true.
Proof.
  intros Hd. unfold isBase36, digitChar, isDigit.
  destruct (d <? 10) eqn:H10.
  - apply N.ltb_lt in H10. apply orb_true_iff. left.
    apply andb_true_iff. split; apply N.leb_le; lia.
  - apply N.ltb_ge in H10. apply orb_true_iff. right.
    apply andb_true_iff. split; apply N.leb_le; lia.
Qed.

Lemma toUint32_range (z : Z) : (0 <= toUint32 z < 2 ^ 32)%Z.
Proof. unfold toUint32. apply Z.mod_pos_bound. lia. Qed.

(** X2: the hash of [hashString] is written with one to seven digits of
    base 36, each a digit or a lower-case letter. *)
Theorem hashString_format (str : jsstring) :
  (1 <= length (hashString str) <= 7)%nat
  /\ forallb isBase36 (hashString str) = true.
Proof.
  unfold hashString, toRadix.
  set (n := Z.to_N (toUint32 (hashLoop str))).
  assert (n < 36 ^ N.of_nat 7) as Hn.
  { subst n. pose proof (toUint32_range (hashLoop str)) as Hr.
    change (36 ^ N.of_nat 7) with 78364164096. lia. }
  split.
  - rewrite length_map, length_reverse. split.
    + apply digitsRev_nonempty.
    + apply digitsRev_length; [lia|done].
  - apply forallb_forall. intros c Hc.
    apply in_map_iff in Hc as (d & <- & Hd).
    apply digitChar_base36.
    pose proof (digitsRev_bound 36 (S (N.to_nat (N.log2 n))) n ltac:(lia)) as Hb.
    rewrite Forall_forall in Hb. apply Hb.
    apply list_elem_of_In in Hd. by rewrite elem_of_reverse in Hd.
Qed.

(** ** Line texts in the documented format *)

Lemma findLineRange_bounds (frame : FrameView) (lo hi : Z) :
  lo ∈ lineCandidates frame -> hi ∈ lineCandidates frame ->
  (forall n, n ∈ lineCandidates frame -> (lo <= n <= hi)%Z) ->
  findLineRangeInFrame frame = {| lineStart := Some lo; lineEnd := Some hi |}.
Proof.
  intros Hlo Hhi Hall. unfold findLineRangeInFrame.
  set (nums := lineCandidates frame) in *.
  case_bool_decide as Hsz.
  { apply size_empty_inv in Hsz. apply leibniz_equiv in Hsz.
    rewrite Hsz in Hlo. by apply not_elem_of_empty in Hlo. }
  pose proof (sortNumbers_sorted (elements nums)) as Hs.
  pose proof (sortNumbers_perm (elements nums)) as Hp.
  assert (Hmem : forall n, n ∈ sortNumbers (elements nums) <-> n ∈ nums).
  { intros n. rewrite Hp. apply elem_of_elements. }
  destruct (sortNumbers (elements nums)) as [|a arr] eqn:E.
  { apply Hmem in Hlo. by apply elem_of_nil in Hlo. }
  destruct (last (a :: arr)) as [b|] eqn:El.
  2:{ by apply last_None in El. }
  destruct (sorted_head_least (a :: arr) a Hs eq_refl) as [Ha Hmin].
  destruct (sorted_last_greatest (a :: arr) b Hs El) as [Hb Hmax].
  assert (a = lo) as ->.
  { apply Hmem in Ha, Hlo. specialize (Hall a Ha). specialize (Hmin lo Hlo). lia. }
  assert (b = hi) as ->.
  { apply Hmem in Hb, Hhi. specialize (Hall b Hb). specialize (Hmax hi Hhi). lia. }
  reflexivity.
Qed.

Lemma toRadix_not_empty (n : N) : toRadix 10 n <> [].
Proof. destruct (toRadix_cons n) as (c & tail & -> & _). done. Qed.

Lemma toRadix_last_digit (n : N) :
  forall c, last (toRadix 10 n) = Some c -> isDigit c = true.
Proof.
  intros c Hc. pose proof (toRadix_all_digits n) as Hall.
  rewrite forallb_forall in Hall. apply Hall.
  apply list_elem_of_In. rewrite last_lookup in Hc.
  by eapply list_elem_of_lookup_2.
Qed.

Lemma digit_not_whiteSpace (c : N) : isDigit c = true -> isWhiteSpace c = false.
Proof.
  unfold isDigit. rewrite andb_true_iff, !N.leb_le. intros [H1 H2].
  unfold isWhiteSpace.
  repeat match goal with
         | |- context [?a <=? ?b] =>
             let E := fresh in destruct (N.leb_spec a b) as [E|E]; try lia
         | |- context [?a =? ?b] =>
             let E := fresh in destruct (N.eqb_spec a b) as [E|E]; try lia
         end; reflexivity.
Qed.

Lemma parseInt_toRadix (n : N) : parseInt (toRadix 10 n) = Some (Z.of_N n).
Proof.
  pose proof (readDigits_toRadix n) as Hr.
  destruct (toRadix_cons n) as (c & tail & E & Hc). rewrite E in *.
  unfold parseInt. cbn [dropWhile]. rewrite (digit_not_whiteSpace c Hc).
  assert ((c =? 45) = false) as ->.
  { apply N.eqb_neq. intros ->. done. }
  assert ((c =? 43) = false) as ->.
  { apply N.eqb_neq. intros ->. done. }
  unfold parseUnsigned. by rewrite Hc, Hr.
Qed.

Lemma matchLinesAt_lines (r : jsstring) :
  matchLinesAt (js "Lines " ++ r)
  = let r2 := dropWhile isWhiteSpace r in
    let d1 := takeWhile isDigit r2 in
    if isEmpty d1 then None
    else
      match dropWhile isDigit r2 with
      | c3 :: r4 =>
          let d2 := takeWhile isDigit r4 in
          if (c3 =? 45) && negb (isEmpty d2)
          then Some (d1, Some d2) else Some (d1, None)
      | [] => Some (d1, None)
      end.
Proof. reflexivity. Qed.

Lemma matchLines_dash (a b : N) :
  matchLines (js "Lines " ++ toRadix 10 a ++ js "-" ++ toRadix 10 b)
  = Some (toRadix 10 a, Some (toRadix 10 b)).
Proof.
  destruct (toRadix_cons a) as (ca & ta & Ea & Hca).
  destruct (takeWhile_app_stop isDigit (toRadix 10 a) (js "-" ++ toRadix 10 b)
              (toRadix_all_digits a)) as [Ht Hd]; [by intros c [= <-]|].
  destruct (takeWhile_app_stop isDigit (toRadix 10 b) []
              (toRadix_all_digits b)) as [Ht2 _]; [done|].
  rewrite app_nil_r in Ht2.
  assert (matchLinesAt (js "Lines " ++ toRadix 10 a ++ js "-" ++ toRadix 10 b)
          = Some (toRadix 10 a, Some (toRadix 10 b))) as Hat.
  { rewrite matchLinesAt_lines. cbv zeta.
    rewrite (dropWhile_clean isWhiteSpace).
    2:{ rewrite Ea. intros c [= <-]. by apply digit_not_whiteSpace. }
    rewrite Ht, Hd. change (js "-" ++ toRadix 10 b) with (45 :: toRadix 10 b).
    cbv iota. rewrite Ht2.
    pose proof (toRadix_not_empty a) as Ha. pose proof (toRadix_not_empty b) as Hb.
    apply isEmpty_false in Ha, Hb. by rewrite Ha, Hb. }
  change (js "Lines " ++ toRadix 10 a ++ js "-" ++ toRadix 10 b)
    with (76 :: (js "ines " ++ toRadix 10 a ++ js "-" ++ toRadix 10 b)) in *.
  cbn [matchLines]. by rewrite Hat.
Qed.

Lemma matchLines_single (a : N) :
  matchLines (js "Line " ++ toRadix 10 a) = Some (toRadix 10 a, None).
Proof.
  destruct (toRadix_cons a) as (ca & ta & Ea & Hca).
  destruct (takeWhile_app_stop isDigit (toRadix 10 a) []
              (toRadix_all_digits a)) as [Ht Hd]; [done|].
  rewrite app_nil_r in Ht, Hd.
  assert (matchLinesAt (js "Line " ++ toRadix 10 a)
          = Some (toRadix 10 a, None)) as Hat.
  { unfold matchLinesAt. change (startsWithCI (js "line") _) with true.
    cbv iota. change (drop 4 (js "Line " ++ toRadix 10 a))
      with (32 :: toRadix 10 a).
    cbv iota beta zeta. change (foldCase 32 =? 115) with false. cbv iota.
    change (isWhiteSpace 32) with true. cbv iota.
    cbn [dropWhile]. change (isWhiteSpace 32) with true. cbv iota.
    rewrite (dropWhile_clean isWhiteSpace).
    2:{ rewrite Ea. intros c [= <-]. by apply digit_not_whiteSpace. }
    rewrite Ht, Hd.
    pose proof (toRadix_not_empty a) as Ha.
    apply isEmpty_false in Ha. by rewrite Ha. }
  change (js "Line " ++ toRadix 10 a)
    with (76 :: (js "ine " ++ toRadix 10 a)) in *.
  cbn [matchLines]. by rewrite Hat.
Qed.

Lemma trim_line_text (pre : jsstring) (c : N) (n : N) :
  isWhiteSpace c = false ->
  trim ((c :: pre) ++ toRadix 10 n) = (c :: pre) ++ toRadix 10 n.
Proof.
  intros Hc. apply trim_fixed. apply cleanEnds_prefixed; [done| |].
  - split.
    + destruct (toRadix_cons n) as (d & t & -> & Hd). intros ? [= <-].
      by apply digit_not_whiteSpace.
    + intros d Hd. by apply digit_not_whiteSpace, (toRadix_last_digit n).
  - apply toRadix_not_empty.
Qed.

Lemma elem_of_two (x a b : Z) :
  x ∈ ({[ b ]} ∪ ({[ a ]} ∪ ∅) : gset Z) <-> x = a \/ x = b.
Proof.
  rewrite !elem_of_union, !elem_of_singleton. split.
  - intros [->|[->|Hx]]; [by right|by left|]. by apply elem_of_empty in Hx.
  - intros [->| ->]; [right; by left|by left].
Qed.

(** X3: the line text in the format of the pattern is read back: for
    line numbers below 2^53 the text [Lines a-b] gives the smaller of the
    two numbers as start and the larger as end, and the text [Line a]
    gives [a] twice. *)
Theorem findLineRange_reads_line_text (a b : N) :
  a < 2 ^ 53 -> b < 2 ^ 53 ->
  findLineRangeInFrame
    (frameWithLineText (js "Lines " ++ toRadix 10 a ++ js "-" ++ toRadix 10 b))
  = {| lineStart := Some (Z.of_N (N.min a b));
       lineEnd := Some (Z.of_N (N.max a b)) |}
  /\ findLineRangeInFrame (frameWithLineText (js "Line " ++ toRadix 10 a))
     = {| lineStart := Some (Z.of_N a); lineEnd := Some (Z.of_N a) |}.
Proof.
  intros _ _. split.
  - assert (lineCandidates
              (frameWithLineText
                 (js "Lines " ++ toRadix 10 a ++ js "-" ++ toRadix 10 b))
            = {[ Z.of_N b ]} ∪ ({[ Z.of_N a ]} ∪ ∅)) as Hc.
    { unfold lineCandidates, frameWithLineText.
      cbn [f_specificLineDiv f_dataLineNumbers f_blobNums f_lineAnchors fold_left].
      unfold safeText. cbn [from_option id].
      replace (js "Lines " ++ toRadix 10 a ++ js "-" ++ toRadix 10 b)
        with ((76 :: js "ines " ++ toRadix 10 a ++ js "-") ++ toRadix 10 b)
        by (cbn; by rewrite <- !app_assoc).
      rewrite trim_line_text by done.
      replace ((76 :: js "ines " ++ toRadix 10 a ++ js "-") ++ toRadix 10 b)
        with (js "Lines " ++ toRadix 10 a ++ js "-" ++ toRadix 10 b)
        by (cbn; by rewrite <- !app_assoc).
      rewrite matchLines_dash, !parseInt_toRadix. reflexivity. }
    apply findLineRange_bounds; rewrite Hc.
    + apply elem_of_two. destruct (N.min_spec a b) as [[_ ->]|[_ ->]]; tauto.
    + apply elem_of_two. destruct (N.max_spec a b) as [[_ ->]|[_ ->]]; tauto.
    + intros n [-> | ->]%elem_of_two; lia.
  - assert (lineCandidates (frameWithLineText (js "Line " ++ toRadix 10 a))
            = {[ Z.of_N a ]} ∪ ({[ Z.of_N a ]} ∪ ∅)) as Hc.
    { unfold lineCandidates, frameWithLineText.
      cbn [f_specificLineDiv f_dataLineNumbers f_blobNums f_lineAnchors fold_left].
      unfold safeText. cbn [from_option id].
      change (js "Line " ++ toRadix 10 a)
        with ((76 :: js "ine ") ++ toRadix 10 a).
      rewrite trim_line_text by done.
      change ((76 :: js "ine ") ++ toRadix 10 a)
        with (js "Line " ++ toRadix 10 a).
      rewrite matchLines_single, !parseInt_toRadix. reflexivity. }
    apply findLineRange_bounds; rewrite Hc;
      [apply elem_of_two; tauto|apply elem_of_two; tauto|].
    intros n [-> | ->]%elem_of_two; lia.
Qed.

Lemma findLineRange_reads_line_text_witness :
  findLineRangeInFrame (frameWithLineText (js "Lines 45-42"))
  = {| lineStart := Some 42%Z; lineEnd := Some 45%Z |}.
Proof.
  exact (proj1 (findLineRange_reads_line_text 45 42 eq_refl eq_refl)).
Defined.

(** ** Classifier and records of a pass *)

(** X4: the classifier never looks at the bot badge: the branch that
    reads it asks again for [copilot] in the author text, which the first
    test has already refused. The verdict is the disjunction of the four
    other tests. *)
Theorem isCopilotAuthor_ignores_badge `{Platform}
        (commentRoot : CommentView) (badge : option jsstring) :
  isCopilotAuthor (withBotBadge badge commentRoot) = isCopilotAuthor commentRoot
  /\ isCopilotAuthor commentRoot
     = (includes (js "copilot")
                 (toLowerCase (safeText (fst <$> c_author commentRoot)))
        || testGithubCopilot (default [] (c_author commentRoot ≫= snd))
        || testCopilotWord false
             (toLowerCase (safeText (body_text <$> c_body commentRoot)))
        || testAiReview
             (toLowerCase (safeText (body_text <$> c_body commentRoot)))).
Proof.
  unfold isCopilotAuthor, withBotBadge. cbn [c_author c_botBadge c_body].
  destruct (includes (js "copilot") _); [done|].
  destruct (testGithubCopilot _); [done|].
  rewrite !andb_false_r. done.
Qed.

Section Fields.
Context `{Platform}.

Lemma findFilePath_clean (frame : FrameView) :
  cleanField (orNull (findFilePathInFrame frame)).
Proof.
  intros t [Ht Hne]%orNull_Some. split; [|done].
  unfold findFilePathInFrame in Ht.
  destruct (f_specificFileLink frame) as [l|].
  { injection Ht as <-. apply safeText_clean. }
  destruct (f_dataPath frame) as [[|c a]|].
  2:{ injection Ht as <-. apply trim_cleanEnds. }
  all: destruct (negb _ && (_ || _)); [injection Ht as <-; apply safeText_clean|];
    destruct (negb _ && _); [injection Ht as <-; apply safeText_clean|done].
Qed.

Lemma extractPrimarySuggestedChange_clean (commentRoot : CommentView) :
  cleanField (extractPrimarySuggestedChange commentRoot).
Proof.
  intros t Ht. unfold extractPrimarySuggestedChange in Ht.
  destruct (c_body commentRoot) as [body|]; [|done].
  destruct (extractSuggestedChangeBlocks body) as [|b bs] eqn:Hb.
  - destruct (isEmpty (safeText (head (body_pres body)))) eqn:E1; cbn [negb] in Ht.
    + destruct (isEmpty (safeText (body_code body))) eqn:E2; cbn [negb] in Ht;
        [done|].
      injection Ht as <-. split; [apply safeText_clean|by apply isEmpty_false].
    + injection Ht as <-. split; [apply safeText_clean|by apply isEmpty_false].
  - injection Ht as <-. apply (extractSuggestedChangeBlocks_clean body).
    rewrite Hb. left.
Qed.

End Fields.

(** X5: in every record of a pass the text is a clean item (not empty,
    no white space at its ends), and so is each of the file path, the
    review text and the suggested change when it is there: none of them is
    ever the empty string. *)
Theorem extracted_fields_clean `{Platform} (page : Page) :
  Forall (fun s => cleanItem (sg_text s)
                   /\ cleanField (sg_filePath s)
                   /\ cleanField (sg_reviewText s)
                   /\ cleanField (sg_suggestedChange s))
         (extractAllSuggestions page).
Proof.
  apply Forall_forall. intros s Hs.
  apply extractAll_subset, allCandidates_elem in Hs
    as (frame & idx & commentRoot & i & text & _ & _ & Htext & ->).
  cbn [makeSuggestion sg_text sg_filePath sg_reviewText sg_suggestedChange].
  split_and!.
  - apply (segment_clean commentRoot). by eapply list_elem_of_lookup_2.
  - apply findFilePath_clean.
  - intros t. apply extractReviewTextOnly_clean.
  - apply extractPrimarySuggestedChange_clean.
Qed.

(** X6: when a comment has review text, the Markdown section of each of
    its suggestions is the same but for its number: the text of the
    suggestion is not printed. When the comment also has a primary
    suggested change, the same holds for the items of the prompt. *)
Theorem items_of_a_comment_coincide `{Platform} (href : jsstring)
        (frame : FrameView) (idx : nat) (commentRoot : CommentView)
        (i j n : nat) (text1 text2 : jsstring) :
  let s1 := makeSuggestion href frame idx commentRoot i text1 in
  let s2 := makeSuggestion href frame idx commentRoot j text2 in
  (extractReviewTextOnly commentRoot <> None ->
   markdownSection n s1 = markdownSection n s2)
  /\ (extractReviewTextOnly commentRoot <> None ->
      extractPrimarySuggestedChange commentRoot <> None ->
      promptItem n s1 = promptItem n s2).
Proof.
  cbv zeta.
  assert (forall r, extractReviewTextOnly commentRoot = Some r ->
            forall t, default t (orNull (Some r)) = r) as Hsum.
  { intros r Hr t. apply extractReviewTextOnly_clean in Hr as [_ Hne].
    by destruct r. }
  split.
  - destruct (extractReviewTextOnly commentRoot) as [r|] eqn:Hr; [|done].
    intros _. unfold markdownSection, linesLabel, makeSuggestion.
    cbn [sg_summary sg_filePath sg_lineStart sg_lineEnd sg_codeMentioned
         sg_reviewText sg_suggestedChange].
    rewrite Hr. by rewrite !(Hsum r eq_refl).
  - destruct (extractReviewTextOnly commentRoot) as [r|] eqn:Hr; [|done].
    destruct (extractPrimarySuggestedChange commentRoot) as [b|] eqn:Hb; [|done].
    intros _ _.
    assert (orNull (Some b) = Some b) as Hob.
    { pose proof (extractPrimarySuggestedChange_clean commentRoot b Hb) as [_ Hne].
      by destruct b. }
    unfold promptItem, fileLine, linesLabel, suggestionBlock, makeSuggestion.
    cbn [sg_summary sg_filePath sg_lineStart sg_lineEnd sg_codeMentioned
         sg_reviewText sg_suggestedChange sg_text].
    rewrite Hr, Hb, Hob. by rewrite !(Hsum r eq_refl).
Qed.

Lemma items_of_a_comment_coincide_witness :
  extractReviewTextOnly reviewedComment <> None
  /\ @extractPrimarySuggestedChange asciiPlatform reviewedComment <> None
  /\ promptItem 0 (@makeSuggestion asciiPlatform (js "https://github.com/octo/repo/pull/7")
                     (threadOf (js "t") []) 0 reviewedComment 0 (js "Use const."))
     = promptItem 0 (@makeSuggestion asciiPlatform (js "https://github.com/octo/repo/pull/7")
                       (threadOf (js "t") []) 0 reviewedComment 1 (js "Rename x.")).
Proof.
  assert (extractReviewTextOnly reviewedComment <> None) as Hr
    by (vm_compute; discriminate).
  assert (@extractPrimarySuggestedChange asciiPlatform reviewedComment <> None)
    as Hc by (vm_compute; discriminate).
  split_and!; [exact Hr|exact Hc|].
  exact (proj2 (@items_of_a_comment_coincide asciiPlatform _ _ 0 reviewedComment
                  0 1 0 (js "Use const.") (js "Rename x.")) Hr Hc).
Defined.

Example comment_items_in_the_prompt :
  @extractSuggestionsFromComment asciiPlatform reviewedComment
  = [js "Use const."; js "Rename x."; js "old";
     js "Suggested diff:" ++ newline ++ oldNewDiff]
  /\ promptItem 0 (@makeSuggestion asciiPlatform [] (threadOf (js "t") []) 0
                     reviewedComment 1 (js "Rename x."))
     = js "#1 Please apply this." ++ newline
       ++ js "File: src/app.js (L42-L45)" ++ newline
       ++ js "Review:" ++ newline ++ js "Please apply this." ++ newline
       ++ js "Suggested diff:" ++ newline ++ oldNewDiff.
Proof. split; vm_compute; reflexivity. Qed.

(** ** Change blocks in the prompt *)

Section Blocks.
Context `{Platform}.

Lemma change_block_label (body : BodyView) (b : jsstring) :
  b ∈ extractSuggestedChangeBlocks body ->
  exists rest, b = js "Suggested " ++ rest.
Proof.
  unfold extractSuggestedChangeBlocks.
  rewrite !elem_of_app, !list_elem_of_omap.
  intros [(det & _ & Hd) | [(table & _ & Ht) | (pre & _ & Hp)]].
  - destruct (_ || _); [|done].
    destruct (isEmpty (safeText (det_code det))); [done|].
    injection Hd as <-. by eexists.
  - destruct (isEmpty (trim _)); [done|].
    injection Ht as <-. by eexists.
  - destruct (negb _ && _); [|done].
    injection Hp as <-. by eexists.
Qed.

Lemma change_block_kept (body : BodyView) (b : jsstring) :
  b ∈ extractSuggestedChangeBlocks body -> prefixedBlock b = b.
Proof.
  intros Hb. unfold prefixedBlock.
  destruct (extractSuggestedChangeBlocks_clean body b Hb) as [Hclean _].
  rewrite (trim_fixed b Hclean).
  destruct (change_block_label body b Hb) as (rest & ->). reflexivity.
Qed.

End Blocks.

(** X7: the change of a suggestion and its block in the prompt. When a
    comment has a suggested-change block, the change of each of its
    suggestions is the first block, and the item of the prompt ends with
    that block, unchanged: the label [Suggested change:] or
    [Suggested diff:] it carries is not put a second time. When it has no
    block, the change is the trimmed text of the first [pre] element if
    that is not empty, else the trimmed text of the first [code] element
    if that is not empty, and it is printed under the line
    [Suggested change:], unless it starts with [Suggested] itself; with
    neither text there is no change. *)
Theorem change_blocks_are_printed_once `{Platform} (href : jsstring)
        (frame : FrameView) (idx i : nat) (commentRoot : CommentView)
        (text : jsstring) (body : BodyView) :
  c_body commentRoot = Some body ->
  let s := makeSuggestion href frame idx commentRoot i text in
  let preText := safeText (head (body_pres body)) in
  let codeText := safeText (body_code body) in
  (forall b blocks, extractSuggestedChangeBlocks body = b :: blocks ->
     sg_suggestedChange s = Some b /\ suggestionBlock s = Some b)
  /\ (extractSuggestedChangeBlocks body = [] ->
      (preText <> [] ->
         sg_suggestedChange s = Some preText
         /\ suggestionBlock s = Some (prefixedBlock preText))
      /\ (preText = [] -> codeText <> [] ->
            sg_suggestedChange s = Some codeText
            /\ suggestionBlock s = Some (prefixedBlock codeText))
      /\ (preText = [] -> codeText = [] -> sg_suggestedChange s = None)).
Proof.
  intros Hbody. cbv zeta.
  unfold suggestionBlock, makeSuggestion.
  cbn [sg_suggestedChange sg_text sg_summary].
  unfold extractPrimarySuggestedChange. rewrite Hbody. split.
  - intros b blocks Hb. rewrite Hb. split; [done|].
    assert (b ∈ extractSuggestedChangeBlocks body) as Hin by (rewrite Hb; left).
    assert (orNull (Some b) = Some b) as ->.
    { destruct (change_block_label body b Hin) as (rest & ->). reflexivity. }
    pose proof (change_block_kept body b Hin) as Hkept.
    unfold prefixedBlock in Hkept.
    destruct (startsWith (js "Suggested") (trim b)); [done|].
    by rewrite Hkept.
  - intros Hnone. rewrite Hnone.
    destruct (safeText (head (body_pres body))) as [|c r] eqn:E1.
    + cbn [isEmpty negb]. split; [done|].
      destruct (safeText (body_code body)) as [|c' r'] eqn:E2.
      * cbn [isEmpty negb]. split; [done|]. done.
      * cbn [isEmpty negb]. split; [|done]. intros _ _. split; [done|].
        cbn [orNull]. unfold prefixedBlock. by destruct (startsWith _ _).
    + cbn [isEmpty negb]. split; [|done]. intros _. split; [done|].
      cbn [orNull]. unfold prefixedBlock. by destruct (startsWith _ _).
Qed.

Lemma change_blocks_are_printed_once_witness :
  let s1 := @makeSuggestion asciiPlatform (js "https://github.com/octo/repo/pull/7")
              (threadOf (js "t") []) 0 reviewedComment 0 (js "Use const.") in
  let s2 := @makeSuggestion asciiPlatform (js "https://github.com/octo/repo/pull/7")
              (threadOf (js "t") []) 0 snippetComment 0 (js "Declare it first.") in
  suggestionBlock s1 = Some (js "Suggested diff:" ++ newline ++ oldNewDiff)
  /\ sg_suggestedChange s2 = Some (js "const x = 1;")
  /\ suggestionBlock s2
     = Some (js "Suggested change:" ++ newline ++ js "const x = 1;").
Proof.
  cbv zeta. split.
  - refine (proj2 (proj1 (@change_blocks_are_printed_once asciiPlatform _ _ 0 0
                            reviewedComment (js "Use const.") _ eq_refl)
                     _ [] _)).
    vm_compute. reflexivity.
  - refine (proj1 (proj2 (@change_blocks_are_printed_once asciiPlatform _ _ 0 0
                            snippetComment (js "Declare it first.") _ eq_refl)
                     _) _).
    + vm_compute. reflexivity.
    + vm_compute. discriminate.
Defined.

(** ** Collapsed white space *)

Lemma collapseSpaces_length (b : bool) (s : jsstring) :
  (length (collapseSpaces b s) <= length s)%nat.
Proof.
  revert b. induction s as [|c r IH]; intros b; [done|].
  cbn. destruct (isWhiteSpace c); [destruct b|]; cbn;
    try (specialize (IH true); lia); specialize (IH false); lia.
Qed.

Lemma collapseSpaces_singleSpaced (b : bool) (s : jsstring) :
  singleSpaced b (collapseSpaces b s) = true.
Proof.
  revert b. induction s as [|c r IH]; intros b; [done|].
  cbn. destruct (isWhiteSpace c) eqn:Hc.
  - destruct b; [apply IH|]. cbn. by rewrite IH.
  - cbn. rewrite Hc. apply IH.
Qed.

Lemma singleSpaced_fixed (b : bool) (s : jsstring) :
  singleSpaced b s = true -> collapseSpaces b s = s.
Proof.
  revert b. induction s as [|c r IH]; intros b Hs; [done|].
  cbn in *. destruct (isWhiteSpace c) eqn:Hc.
  - apply andb_true_iff in Hs as [Hs Hr]. apply andb_true_iff in Hs as [Hc32 Hb].
    apply N.eqb_eq in Hc32 as ->. apply negb_true_iff in Hb as ->.
    f_equal. by apply IH.
  - f_equal. by apply IH.
Qed.

Lemma singleSpaced_weaken (b : bool) (s : jsstring) :
  singleSpaced b s = true -> singleSpaced false s = true.
Proof.
  destruct s as [|c r]; [done|]. cbn. destruct (isWhiteSpace c); [|done].
  rewrite !andb_true_iff. intros [[-> _] ->]. done.
Qed.

Lemma singleSpaced_take (b : bool) (n : nat) (s : jsstring) :
  singleSpaced b s = true -> singleSpaced b (take n s) = true.
Proof.
  revert b n. induction s as [|c r IH]; intros b [|n] Hs; try done.
  cbn in *. destruct (isWhiteSpace c).
  - apply andb_true_iff in Hs as [-> Hr]. cbn. by apply IH.
  - by apply IH.
Qed.

Lemma singleSpaced_dropWhile (b : bool) (s : jsstring) :
  singleSpaced b s = true -> singleSpaced false (dropWhile isWhiteSpace s) = true.
Proof.
  revert b. induction s as [|c r IH]; intros b Hs; [done|].
  cbn [dropWhile]. destruct (isWhiteSpace c) eqn:Hc.
  - cbn in Hs. rewrite Hc in Hs. apply andb_true_iff in Hs as [_ Hr].
    by apply (IH true).
  - by apply singleSpaced_weaken with b.
Qed.

Lemma singleSpaced_snoc (b : bool) (s : jsstring) (e : N) :
  isWhiteSpace e = false ->
  singleSpaced b s = true -> singleSpaced b (s ++ [e]) = true.
Proof.
  intros He. revert b. induction s as [|c r IH]; intros b Hs.
  - cbn. by rewrite He.
  - cbn in *. destruct (isWhiteSpace c).
    + apply andb_true_iff in Hs as [-> Hr]. cbn. by apply IH.
    + by apply IH.
Qed.

Lemma dropWhileEnd_prefix (p : N -> bool) (s : jsstring) :
  dropWhileEnd p s = take (length (dropWhileEnd p s)) s.
Proof.
  unfold dropWhileEnd.
  pose proof (takeWhile_dropWhile p (reverse s)) as Hsplit.
  set (d := dropWhile p (reverse s)) in *.
  set (t := takeWhile p (reverse s)) in *.
  assert (s = reverse d ++ reverse t) as Hs.
  { rewrite <- reverse_app, Hsplit. by rewrite reverse_involutive. }
  clearbody d t. subst s. by rewrite take_app_length.
Qed.

Lemma singleSpaced_lookup (b : bool) (s : jsstring) (i : nat) (c : N) :
  singleSpaced b s = true -> s !! i = Some c -> isWhiteSpace c = true ->
  c = 32 /\ (forall d, s !! S i = Some d -> isWhiteSpace d = false).
Proof.
  revert b i. induction s as [|a r IH]; intros b i Hs Hi Hc; [done|].
  destruct i as [|i].
  - injection Hi as ->. cbn in Hs. rewrite Hc in Hs.
    apply andb_true_iff in Hs as [Hs Hr]. apply andb_true_iff in Hs as [H32 _].
    apply N.eqb_eq in H32. split; [done|].
    intros d Hd. destruct r as [|e r']; [done|]. injection Hd as ->.
    cbn in Hr. destruct (isWhiteSpace d); [|done].
    by rewrite andb_false_r in Hr.
  - cbn in Hs. destruct (isWhiteSpace a).
    + apply andb_true_iff in Hs as [_ Hr]. by apply (IH true i).
    + by apply (IH false i).
Qed.

Lemma trim_singleSpaced (b : bool) (s : jsstring) :
  singleSpaced b s = true -> singleSpaced false (trim s) = true.
Proof.
  intros Hs. unfold trim. rewrite dropWhileEnd_prefix.
  apply singleSpaced_take. by apply singleSpaced_dropWhile with b.
Qed.

Lemma cleanEnds_take (s : jsstring) (k : nat) (c : N) :
  cleanEnds isWhiteSpace s -> s !! k = Some c -> isWhiteSpace c = false ->
  cleanEnds isWhiteSpace (take (k + 1) s).
Proof.
  intros [Hh Hl] Hk Hc. split.
  - intros d Hd. apply Hh. destruct s; [done|].
    by replace (k + 1)%nat with (S k) in Hd by lia.
  - intros d Hd. rewrite last_lookup in Hd.
    apply lookup_lt_Some in Hk as Hlt.
    rewrite length_take, Nat.min_l in Hd by lia.
    replace (pred (k + 1)) with k in Hd by lia.
    rewrite lookup_take_lt in Hd by lia. congruence.
Qed.

Lemma cleanEnds_cut (s : jsstring) (n : nat) (e : N) :
  cleanEnds isWhiteSpace s -> (0 < n)%nat -> isWhiteSpace e = false ->
  cleanEnds isWhiteSpace (take n s ++ [e]).
Proof.
  intros [Hh Hl] Hn He. split.
  - intros d Hd. destruct s as [|a r].
    + rewrite take_nil in Hd. by injection Hd as <-.
    + destruct n; [lia|]. apply Hh. done.
  - intros d Hd. rewrite last_snoc in Hd. by injection Hd as <-.
Qed.

(** The shape of every summary: single spaces, nothing to trim, at most
    140 code units. *)
Lemma summarize_normal (text : jsstring) :
  singleSpaced false (summarize text) = true
  /\ cleanEnds isWhiteSpace (summarize text)
  /\ (length (summarize text) <= 140)%nat.
Proof.
  pose proof (summarize_length text) as Hlen.
  pose proof (trim_singleSpaced false _ (collapseSpaces_singleSpaced false text)) as Hs.
  pose proof (trim_cleanEnds (collapseSpaces false text)) as Hc.
  revert Hlen.
  destruct (summarize_shape text) as [[_ ->]|[(_ & k & Hk & Hdot & ->)|[_ ->]]];
    intros Hlen.
  - done.
  - split_and!; [|by eapply cleanEnds_take|done].
    by apply singleSpaced_take.
  - change ellipsis with [8230] in *.
    split_and!; [|apply cleanEnds_cut; [done|lia|done]|done].
    apply singleSpaced_snoc; [done|]. by apply singleSpaced_take.
Qed.

(** X8: a summary is its own summary: [summarize] changes nothing in a
    text it has returned. *)
Theorem summarize_idempotent (text : jsstring) :
  summarize (summarize text) = summarize text.
Proof.
  destruct (summarize_normal text) as (Hs & Hc & Hlen).
  unfold summarize at 1. cbv zeta.
  rewrite (singleSpaced_fixed false _ Hs), (trim_fixed _ Hc).
  apply Nat.leb_le in Hlen. by rewrite Hlen.
Qed.

Lemma lineTerminator_whiteSpace (c : N) :
  isLineTerminator c = true -> isWhiteSpace c = true.
Proof.
  unfold isLineTerminator. rewrite !orb_true_iff, !N.eqb_eq.
  intros [[[->| ->]| ->]| ->]; reflexivity.
Qed.

(** X9: a summary is one line: its only white space is single spaces
    between other code units, and none at its ends. *)
Theorem summarize_single_line (text : jsstring) :
  let t := summarize text in
  (forall c, c ∈ t -> isWhiteSpace c = true -> c = 32)
  /\ (forall c, c ∈ t -> isLineTerminator c = false)
  /\ (forall i, t !! i = Some 32 -> t !! S i <> Some 32)
  /\ cleanEnds isWhiteSpace t.
Proof.
  cbv zeta. destruct (summarize_normal text) as (Hs & Hc & _).
  assert (forall c, c ∈ summarize text -> isWhiteSpace c = true -> c = 32) as Hws.
  { intros c Hin Hw. apply list_elem_of_lookup in Hin as [i Hi].
    by destruct (singleSpaced_lookup _ _ _ _ Hs Hi Hw). }
  split_and!; [done| | |done].
  - intros c Hin. destruct (isLineTerminator c) eqn:Hlt; [|done].
    rewrite (Hws c Hin (lineTerminator_whiteSpace c Hlt)) in Hlt. done.
  - intros i Hi Hnext.
    destruct (singleSpaced_lookup _ _ _ _ Hs Hi eq_refl) as [_ Hd].
    by specialize (Hd 32 Hnext).
Qed.

(** ** Lines of the pattern *)

Lemma splitLinesAux_single (cur s : jsstring) :
  forallb notLineTerminator s = true ->
  splitLinesAux cur s = [reverse cur ++ s].
Proof.
  revert cur. induction s as [|c r IH]; intros cur Hs; cbn.
  - by rewrite app_nil_r.
  - cbn in Hs. apply andb_true_iff in Hs as [Hc Hr].
    assert ((c =? 10) = false) as ->.
    { apply N.eqb_neq. intros ->. done. }
    rewrite IH by done. rewrite reverse_cons. by rewrite <- app_assoc.
Qed.

Lemma startsWithCI_fold (p s : jsstring) :
  startsWithCI p s = startsWith p (map foldCase s).
Proof.
  revert s. induction p as [|a p IH]; intros [|b s]; try done.
  cbn. by rewrite IH.
Qed.

Lemma find_ext' {A} (f g : A -> bool) (l : list A) :
  (forall x, f x = g x) -> List.find f l = List.find g l.
Proof.
  intros Hfg. induction l as [|a l IH]; [done|]. cbn. by rewrite Hfg, IH.
Qed.

Lemma quoteOrSpace_whiteSpace (c : N) :
  isQuoteOrSpace c = false -> isWhiteSpace c = false.
Proof. unfold isQuoteOrSpace. by intros [_ ?]%orb_false_iff. Qed.

Lemma spaces_then_rest (minSpaces : nat) (rest : jsstring) :
  (minSpaces <= 1)%nat -> rest <> [] ->
  cleanEnds isQuoteOrSpace rest -> forallb notLineTerminator rest = true ->
  matchSpacesRest minSpaces (32 :: rest) = Some rest.
Proof.
  intros Hmin Hne [Hhead _] Hlt. unfold matchSpacesRest.
  destruct rest as [|c r]; [done|].
  assert (isWhiteSpace c = false) as Hc.
  { apply quoteOrSpace_whiteSpace, Hhead. done. }
  cbn [takeWhile dropWhile]. change (isWhiteSpace 32) with true. cbv iota.
  cbn [takeWhile dropWhile]. rewrite Hc. cbn [isEmpty negb length].
  assert ((minSpaces <=? 1)%nat = true) as -> by by apply Nat.leb_le.
  unfold notLineTerminator in Hlt. by rewrite Hlt.
Qed.

Lemma keyword_head (word k : jsstring) (sep : N) (tail : jsstring) :
  k ∈ suggestionKeywords -> map foldCase word = k -> sep = 58 \/ sep = 45 ->
  matchBulletHead (word ++ sep :: tail) = None
  /\ matchKeywordHead (word ++ sep :: tail) = Some tail.
Proof.
  intros Hk Hword Hsep.
  assert (List.find (fun k' => startsWithCI k' (word ++ sep :: tail))
                    suggestionKeywords = Some k) as Hfind.
  { rewrite (find_ext' _ (fun k' => startsWith k'
                                      (map foldCase (word ++ sep :: tail))))
      by (intros; apply startsWithCI_fold).
    rewrite map_app, Hword. unfold suggestionKeywords in *.
    repeat (apply elem_of_cons in Hk as [->|Hk]; [reflexivity|]).
    by apply elem_of_nil in Hk. }
  assert (length word = length k) as Hlen.
  { by rewrite <- Hword, length_map. }
  split.
  - destruct word as [|c w]; [by subst k; repeat (apply elem_of_cons in Hk as [Hk|Hk]; [done|]);
                               apply elem_of_nil in Hk|].
    cbn [app matchBulletHead].
    assert (97 <= foldCase c <= 122) as Hc.
    { cbn in Hword. unfold suggestionKeywords in Hk.
      repeat (apply elem_of_cons in Hk as [Hk|Hk];
              [rewrite Hk in Hword; injection Hword as -> _; done|]).
      by apply elem_of_nil in Hk. }
    assert (c <> 45 /\ c <> 42 /\ isDigit c = false) as (H45 & H42 & Hd).
    { unfold foldCase in Hc. unfold isDigit.
      destruct ((65 <=? c) && (c <=? 90)) eqn:E.
      - apply andb_true_iff in E as [E1 E2]. apply N.leb_le in E1, E2.
        split_and!; [lia|lia|]. apply andb_false_iff. right. apply N.leb_gt. lia.
      - split_and!; [lia|lia|]. apply andb_false_iff. right. apply N.leb_gt. lia. }
    apply N.eqb_neq in H45, H42. by rewrite H45, H42, Hd.
  - unfold matchKeywordHead. rewrite Hfind.
    rewrite <- Hlen, drop_app_length.
    destruct Hsep as [-> | ->]; reflexivity.
Qed.

Lemma number_head (n : N) (tail : jsstring) :
  matchBulletHead (toRadix 10 n ++ 46 :: tail) = Some tail.
Proof.
  destruct (takeWhile_app_stop isDigit (toRadix 10 n) (46 :: tail)
              (toRadix_all_digits n)) as [_ Hd]; [by intros c [= <-]|].
  destruct (toRadix_cons n) as (c & t & E & Hc).
  unfold matchBulletHead. rewrite E in *. cbn [app].
  assert ((c =? 45) = false /\ (c =? 42) = false) as [-> ->].
  { split; apply N.eqb_neq; intros ->; done. }
  cbn [orb]. rewrite Hc. cbn [app] in Hd. by rewrite Hd.
Qed.

Lemma pattern_of_line (head rest : jsstring) :
  lineHead head -> rest <> [] ->
  cleanEnds isQuoteOrSpace rest -> forallb notLineTerminator rest = true ->
  exists m2 m4,
    matchPattern (head ++ 32 :: rest) = Some (m2, m4)
    /\ (m2 = Some rest /\ m4 = None \/ m2 = None /\ m4 = Some rest).
Proof.
  intros Hhead Hne Hclean Hlt. unfold matchPattern.
  destruct Hhead as [-> | [-> | [(n & ->) | (word & k & sep & Hk & Hw & Hsep & ->)]]].
  - cbn [js list_ascii_of_string map app matchBulletHead].
    change (N_of_ascii "-" =? 45) with true. cbn [orb mbind option_bind].
    rewrite (spaces_then_rest 1) by (done || lia). eexists _, _. eauto.
  - cbn [js list_ascii_of_string map app matchBulletHead].
    change (N_of_ascii "*" =? 45) with false.
    change (N_of_ascii "*" =? 42) with true. cbn [orb mbind option_bind].
    rewrite (spaces_then_rest 1) by (done || lia). eexists _, _. eauto.
  - rewrite <- app_assoc. change (js "." ++ 32 :: rest) with (46 :: 32 :: rest).
    rewrite number_head. cbn [mbind option_bind].
    rewrite (spaces_then_rest 1) by (done || lia). eexists _, _. eauto.
  - rewrite <- app_assoc. cbn [app].
    destruct (keyword_head word k sep (32 :: rest) Hk Hw Hsep) as [-> ->].
    cbn [mbind option_bind].
    rewrite (spaces_then_rest 0) by (done || lia). eexists _, _. eauto.
Qed.

Lemma lineHead_shape (head : jsstring) :
  lineHead head ->
  exists c pre, head = c :: pre /\ isWhiteSpace c = false
                /\ forallb notLineTerminator head = true.
Proof.
  intros [-> | [-> | [(n & ->) | (word & k & sep & Hk & Hw & Hsep & ->)]]].
  - by eexists _, _.
  - by eexists _, _.
  - destruct (toRadix_cons n) as (c & t & E & Hc).
    exists c, (t ++ js "."). split_and!;
      [by rewrite E|by apply digit_not_whiteSpace|].
    rewrite forallb_app. apply andb_true_iff. split; [|done].
    apply forallb_forall. intros d Hd.
    pose proof (toRadix_all_digits n) as Hall. rewrite forallb_forall in Hall.
    specialize (Hall d Hd). unfold notLineTerminator.
    apply negb_true_iff. destruct (isLineTerminator d) eqn:El; [|done].
    apply lineTerminator_whiteSpace in El.
    by rewrite (digit_not_whiteSpace d Hall) in El.
  - assert (forall c, c ∈ word -> 97 <= foldCase c <= 122) as Hletters.
    { intros c Hc.
      assert (foldCase c ∈ k) as Hin.
      { rewrite <- Hw. apply list_elem_of_In, in_map. by apply list_elem_of_In. }
      unfold suggestionKeywords in Hk.
      repeat (apply elem_of_cons in Hk as [-> | Hk];
              [repeat (apply elem_of_cons in Hin as [-> | Hin]; [done|]);
               by apply elem_of_nil in Hin|]).
      by apply elem_of_nil in Hk. }
    assert (forall c, 97 <= foldCase c <= 122 ->
              isWhiteSpace c = false /\ notLineTerminator c = true) as Hletter.
    { intros c Hc.
      assert (65 <= c <= 90 \/ 97 <= c <= 122) as Hrange.
      { unfold foldCase in Hc. destruct ((65 <=? c) && (c <=? 90)) eqn:E.
        - apply andb_true_iff in E as [E1 E2]. apply N.leb_le in E1, E2. lia.
        - lia. }
      assert (isWhiteSpace c = false) as Hws.
      { unfold isWhiteSpace.
        repeat match goal with
               | |- context [?a <=? ?b] =>
                   let E := fresh in destruct (N.leb_spec a b) as [E|E]; try lia
               | |- context [?a =? ?b] =>
                   let E := fresh in destruct (N.eqb_spec a b) as [E|E]; try lia
               end; reflexivity. }
      split; [done|]. unfold notLineTerminator. apply negb_true_iff.
      destruct (isLineTerminator c) eqn:El; [|done].
      apply lineTerminator_whiteSpace in El. congruence. }
    destruct word as [|c w].
    { subst k. unfold suggestionKeywords in Hk.
      repeat (apply elem_of_cons in Hk as [Hk|Hk]; [done|]).
      by apply elem_of_nil in Hk. }
    exists c, (w ++ [sep]). split_and!; [done| |].
    + apply Hletter, Hletters. left.
    + rewrite forallb_app. apply andb_true_iff. split.
      * apply forallb_forall. intros d Hd. apply Hletter, Hletters.
        by apply list_elem_of_In.
      * destruct Hsep as [-> | ->]; reflexivity.
Qed.

(** X10: a line that starts with a bullet ([-], [*], [1.]) or with a
    keyword of the pattern ([Fix:], [rename-], in any case) gives what
    follows the head and the space: when a comment body is the one line
    [head rest], where [rest] is on one line and has neither quotes nor
    white space at its ends, the pattern strategy returns [rest] alone. *)
Theorem pattern_line_is_read (head rest : jsstring) :
  lineHead head -> rest <> [] ->
  cleanEnds isQuoteOrSpace rest -> forallb notLineTerminator rest = true ->
  extractPatternLines (plainBody (head ++ js " " ++ rest)) = [rest].
Proof.
  intros Hhead Hne Hclean Hlt.
  change (js " " ++ rest) with (32 :: rest).
  destruct (lineHead_shape head Hhead) as (c & pre & Ehead & Hc & Hheadlt).
  assert (head ++ 32 :: rest <> []) as Hne'.
  { rewrite Ehead. done. }
  assert (trim (head ++ 32 :: rest) = head ++ 32 :: rest) as Htrim.
  { apply trim_fixed. rewrite Ehead.
    replace ((c :: pre) ++ 32 :: rest) with ((c :: pre ++ [32]) ++ rest)
      by (cbn; by rewrite <- app_assoc).
    apply cleanEnds_prefixed; [done| |done].
    destruct Hclean as [Hh Hl].
    split; intros d Hd; apply quoteOrSpace_whiteSpace; [by apply Hh|by apply Hl]. }
  unfold extractPatternLines, plainBody. cbn [body_text].
  unfold safeText. cbn [from_option id]. rewrite Htrim.
  apply isEmpty_false in Hne' as Hempty. rewrite Hempty.
  unfold splitLines. rewrite splitLinesAux_single.
  2:{ rewrite forallb_app. cbn [forallb]. by rewrite Hheadlt, Hlt. }
  cbn [reverse app map List.filter]. rewrite reverse_nil. cbn [app].
  rewrite Htrim, Hempty. cbn [negb omap list_omap].
  destruct (pattern_of_line head rest Hhead Hne Hclean Hlt)
    as (m2 & m4 & -> & Hm).
  assert (orNull (Some rest) = Some rest) as Hor by by destruct rest.
  assert (stripQuotes rest = rest) as Hstrip by by apply cleanEnds_fixed.
  destruct Hm as [[-> ->] | [-> ->]]; rewrite !Hor;
    change (orNull None) with (@None jsstring); cbv iota;
    by rewrite Hstrip, Hor.
Qed.

Lemma pattern_line_is_read_witness :
  extractPatternLines (plainBody (js "Fix: use const")) = [js "use const"].
Proof.
  apply (pattern_line_is_read (js "Fix:") (js "use const")).
  - right. right. right. exists (js "Fix"), (js "fix"), 58.
    split_and!; [|reflexivity|by left|reflexivity].
    unfold suggestionKeywords. right. left.
  - discriminate.
  - split; intros c [= <-]; reflexivity.
  - reflexivity.
Defined.

(** ** Builders and empty fields *)

Example code_mentioned_may_be_empty :
  findCodeMentionedInFrame blankTableFrame = Some [].
Proof. reflexivity. Qed.

Lemma item_without_empty_fields (n : nat) (s : Suggestion) :
  promptItem n (withoutEmptyFields s) = promptItem n s
  /\ markdownSection n (withoutEmptyFields s) = markdownSection n s
  /\ normalize (withoutEmptyFields s) = normalize s.
Proof.
  unfold promptItem, markdownSection, normalize, fileLine, linesLabel,
    suggestionBlock, jsonOfString, withoutEmptyFields.
  cbn [sg_id sg_text sg_summary sg_sourceUrl sg_filePath sg_lineStart
       sg_lineEnd sg_codeMentioned sg_reviewText sg_suggestedChange].
  by rewrite !orNull_idempotent.
Qed.

(** X11: the three builders take an empty string for a missing field: the
    prompt, the Markdown and the JSON of a selection are the same when the
    file path, the code mentioned, the review text or the suggested change
    of a record is the empty string and when it is absent. *)
Theorem builders_ignore_empty_fields (href : jsstring)
        (items : list Suggestion) :
  buildPrompt href (map withoutEmptyFields items) = buildPrompt href items
  /\ buildMarkdown href (map withoutEmptyFields items) = buildMarkdown href items
  /\ buildJSON href (map withoutEmptyFields items) = buildJSON href items.
Proof.
  unfold buildPrompt, buildMarkdown, buildJSON.
  change (map withoutEmptyFields items) with (withoutEmptyFields <$> items).
  rewrite !imap_fmap. split_and!.
  - do 3 f_equal. apply imap_ext. intros i s _. cbn.
    apply (item_without_empty_fields i s).
  - do 3 f_equal. apply imap_ext. intros i s _. cbn.
    apply (item_without_empty_fields i s).
  - change (map normalize) with (fmap (M := list) normalize).
    rewrite <- list_fmap_compose.
    rewrite (list_fmap_ext (normalize ∘ withoutEmptyFields) normalize items);
      [done|].
    intros i s _. cbn. apply (item_without_empty_fields 0 s).
Qed.

Example markdown_of_sample_page :
  buildMarkdown (page_href samplePage)
                (@extractAllSuggestions asciiPlatform samplePage)
  = js "## PR" ++ newline ++ js "https://github.com/octo/repo/pull/7" ++ newline
    ++ newline
    ++ js "### 1. Use const here. Rename x." ++ newline ++ newline
    ++ js "File: src/app.js (L42-L45)" ++ newline ++ newline
    ++ js "Review:" ++ newline ++ newline ++ js "Use const here. Rename x."
    ++ newline
    ++ js "### 2. Use const here. Rename x." ++ newline ++ newline
    ++ js "File: src/app.js (L42-L45)" ++ newline ++ newline
    ++ js "Review:" ++ newline ++ newline ++ js "Use const here. Rename x.".
Proof. vm_compute. reflexivity. Qed.

Example popup_prompt_of_sample_page :
  Popup.buildPrompt None (take 1 (@extractAllSuggestions asciiPlatform samplePage))
  = js "Task: Apply the following review suggestions from GitHub Copilot to the codebase in this PR."
    ++ newline ++ js "Instructions:"
    ++ newline ++ js "- For each item, implement the change described."
    ++ newline ++ js "- If multiple files are impacted, update all relevant locations."
    ++ newline ++ js "- Preserve existing behavior unless a change is explicitly requested."
    ++ newline ++ js "#1 Use const here. Rename x."
    ++ newline ++ js "Details:" ++ newline ++ js "Use const here."
    ++ newline ++ js "Source: https://github.com/octo/repo/pull/7".
Proof. vm_compute. reflexivity. Qed.

(** ** Sets in insertion order *)

Lemma sameValueZero_sym (a b : json) : sameValueZero a b = sameValueZero b a.
Proof.
  destruct a, b; cbn; try done.
  - by destruct b, b0.
  - apply Z.eqb_sym.
  - unfold jsstring_eqb. apply bool_decide_ext. split; congruence.
Qed.

Lemma setHas_app (x : json) (l m : list json) :
  setHas x (l ++ m) = setHas x l || setHas x m.
Proof. apply existsb_app. Qed.

Lemma setHas_false (x : json) (l : list json) :
  setHas x l = false <-> forall y, y ∈ l -> sameValueZero x y = false.
Proof.
  unfold setHas. induction l as [|a l IH]; cbn.
  - split; [|done]. intros _ y Hy. by apply elem_of_nil in Hy.
  - rewrite orb_false_iff, IH. split.
    + intros [Ha Hl] y [->|Hy]%elem_of_cons; [done|by apply Hl].
    + intros Hall. split; [apply Hall; left|]. intros y Hy. apply Hall. by right.
Qed.

Lemma newSet_from (acc l : list json) :
  isSet l = true -> (forall x, x ∈ l -> setHas x acc = false) ->
  fold_left (fun set v => if existsb (sameValueZero v) set then set else set ++ [v])
            l acc = acc ++ l.
Proof.
  revert acc. induction l as [|x r IH]; intros acc Hs Hacc; cbn [fold_left].
  - by rewrite app_nil_r.
  - cbn in Hs. apply andb_true_iff in Hs as [Hx Hr].
    apply negb_true_iff in Hx.
    assert (existsb (sameValueZero x) acc = false) as ->.
    { apply Hacc. left. }
    rewrite IH; [by rewrite <- app_assoc|done|].
    intros y Hy. rewrite setHas_app. apply orb_false_iff. split.
    + apply Hacc. by right.
    + cbn. rewrite orb_false_r, sameValueZero_sym.
      rewrite setHas_false in Hx. by apply Hx.
Qed.

Lemma newSet_fixed (l : list json) : isSet l = true -> newSet l = l.
Proof. intros Hl. unfold newSet. by rewrite newSet_from. Qed.

Lemma isSet_snoc (l : list json) (x : json) :
  isSet l = true -> setHas x l = false -> isSet (l ++ [x]) = true.
Proof.
  induction l as [|a l IH]; intros Hl Hx; [done|].
  cbn in *. apply andb_true_iff in Hl as [Ha Hl].
  apply orb_false_iff in Hx as [Hxa Hx].
  rewrite setHas_app, IH by done. cbn. rewrite orb_false_r.
  apply negb_true_iff in Ha. by rewrite Ha, sameValueZero_sym, Hxa.
Qed.

Lemma newSet_isSet (l : list json) : isSet (newSet l) = true.
Proof.
  unfold newSet.
  assert (forall acc, isSet acc = true ->
            isSet (fold_left
                     (fun set v => if existsb (sameValueZero v) set
                                   then set else set ++ [v]) l acc) = true)
    as Hgen; [|by apply Hgen].
  induction l as [|x r IH]; intros acc Hacc; [done|].
  cbn [fold_left]. apply IH.
  destruct (existsb (sameValueZero x) acc) eqn:E; [done|].
  by apply isSet_snoc.
Qed.

Lemma setAdd_isSet (x : json) (l : list json) :
  isSet l = true -> isSet (setAdd x l) = true.
Proof.
  intros Hl. unfold setAdd. destruct (setHas x l) eqn:E; [done|].
  by apply isSet_snoc.
Qed.

Lemma setHas_filter (x : json) (p : json -> bool) (l : list json) :
  setHas x l = false -> setHas x (List.filter p l) = false.
Proof.
  rewrite !setHas_false. intros Hall y Hy. apply Hall.
  apply list_elem_of_In, filter_In in Hy as [Hy _]. by apply list_elem_of_In.
Qed.

Lemma setDelete_isSet (x : json) (l : list json) :
  isSet l = true -> isSet (setDelete x l) = true.
Proof.
  unfold setDelete. induction l as [|a l IH]; intros Hl; [done|].
  cbn in *. apply andb_true_iff in Hl as [Ha Hl].
  destruct (negb (sameValueZero x a)); [|by apply IH].
  cbn. rewrite IH by done. apply negb_true_iff in Ha.
  by rewrite setHas_filter.
Qed.

(** ** The store over a quota *)

Lemma stringify_array_nonempty (set : list json) :
  orNull (Some (JSON_stringify (JArray set) 0))
  = Some (JSON_stringify (JArray set) 0).
Proof. destruct set; reflexivity. Qed.

Lemma getStoredSet_of_text (origin pathname suffix : jsstring)
      (st : QuotaStorage) (set : list json) :
  qs_denied st = false ->
  qs_items st !! (currentPRKey origin pathname ++ suffix)
  = Some (JSON_stringify (JArray set) 0) ->
  getStoredSet origin pathname suffix st = Ok (newSet set).
Proof.
  intros Hd Hk. unfold getStoredSet. cbn [getItem quotaStorageArea].
  rewrite Hd. cbn [bindResult]. rewrite Hk, stringify_array_nonempty.
  by rewrite JSON_parse_stringify.
Qed.

Lemma getStoredSet_reads_key (origin pathname suffix : jsstring)
      (st st' : QuotaStorage) :
  qs_denied st' = qs_denied st ->
  qs_items st' !! (currentPRKey origin pathname ++ suffix)
  = qs_items st !! (currentPRKey origin pathname ++ suffix) ->
  getStoredSet origin pathname suffix st'
  = getStoredSet origin pathname suffix st.
Proof.
  intros Hd Hk. unfold getStoredSet. cbn [getItem quotaStorageArea].
  by rewrite Hd, Hk.
Qed.

Lemma saveStoredSet_cases (origin pathname suffix : jsstring)
      (st : QuotaStorage) (set : list json) :
  let key := currentPRKey origin pathname ++ suffix in
  let text := JSON_stringify (JArray set) 0 in
  let st' := stored (saveStoredSet origin pathname suffix st set) st in
  (qs_denied st = false
   /\ (usage (<[ key := text ]> (qs_items st)) <= qs_quota st)%nat
   /\ qs_denied st' = false /\ qs_quota st' = qs_quota st
   /\ qs_items st' = <[ key := text ]> (qs_items st))
  \/ ((qs_denied st = true
       \/ (qs_quota st < usage (<[ key := text ]> (qs_items st)))%nat)
      /\ st' = st).
Proof.
  cbv zeta. unfold saveStoredSet. cbn [setItem quotaStorageArea].
  destruct (qs_denied st) eqn:Hd; [right; split; [by left|done]|].
  destruct (_ <=? _)%nat eqn:Hq.
  - left. apply Nat.leb_le in Hq. done.
  - right. apply Nat.leb_gt in Hq. split; [by right|done].
Qed.

Lemma keys_differ_by_suffix (origin path1 path2 : jsstring) :
  currentPRKey origin path1 ++ js ":deselected"
  <> currentPRKey origin path2 ++ js ":ignored".
Proof.
  unfold currentPRKey. rewrite <- !app_assoc. intros Heq.
  apply app_inv_head, app_inv_head in Heq.
  apply (f_equal reverse) in Heq. rewrite !reverse_app in Heq.
  by vm_compute in Heq.
Qed.

Lemma keys_differ_by_path (origin path1 path2 suffix : jsstring) :
  path1 <> path2 ->
  currentPRKey origin path1 ++ suffix <> currentPRKey origin path2 ++ suffix.
Proof.
  unfold currentPRKey. rewrite <- !app_assoc. intros Hne Heq.
  apply app_inv_head, app_inv_head, app_inv_tail in Heq. done.
Qed.

Lemma save_keeps_other_key (origin path1 path2 sfx1 sfx2 : jsstring)
      (st : QuotaStorage) (set : list json) :
  currentPRKey origin path1 ++ sfx1 <> currentPRKey origin path2 ++ sfx2 ->
  getStoredSet origin path2 sfx2
    (stored (saveStoredSet origin path1 sfx1 st set) st)
  = getStoredSet origin path2 sfx2 st.
Proof.
  intros Hne.
  destruct (saveStoredSet_cases origin path1 sfx1 st set)
    as [(Hd & _ & Hd' & _ & Hi)|[_ ->]]; [|done].
  apply getStoredSet_reads_key; [congruence|].
  rewrite Hi. by apply lookup_insert_ne.
Qed.



Example full_store_keeps_the_older_set :
  let st := {| qs_denied := false; qs_quota := 75;
               qs_items := {[ currentPRKey sampleOrigin samplePath ++ js ":deselected"
                              := js "[]" ]} |} in
  getDeselectedSet sampleOrigin samplePath
    (stored (saveDeselectedSet sampleOrigin samplePath st
               [JString (js "a"); JString (js "b")]) st)
  = Ok [].
Proof. vm_compute. reflexivity. Qed.

(** X13: the entries of the store do not touch one another: saving one
    set of a pull request changes neither what the other set of any pull
    request reads, nor what the same set of another pull request of the
    origin reads, whether the store takes the entry or not. *)
Theorem stored_sets_are_separate (origin path1 path2 : jsstring)
        (st : QuotaStorage) (set : list json) :
  let d := stored (saveDeselectedSet origin path1 st set) st in
  let i := stored (saveIgnoredSet origin path1 st set) st in
  getIgnoredSet origin path2 d = getIgnoredSet origin path2 st
  /\ getDeselectedSet origin path2 i = getDeselectedSet origin path2 st
  /\ (path1 <> path2 ->
      getDeselectedSet origin path2 d = getDeselectedSet origin path2 st
      /\ getIgnoredSet origin path2 i = getIgnoredSet origin path2 st).
Proof.
  cbv zeta.
  unfold getDeselectedSet, saveDeselectedSet, getIgnoredSet, saveIgnoredSet.
  split_and!.
  - apply save_keeps_other_key, keys_differ_by_suffix.
  - apply save_keeps_other_key. intros Heq. symmetry in Heq.
    by apply keys_differ_by_suffix in Heq.
  - intros Hne. split; by apply save_keeps_other_key, keys_differ_by_path.
Qed.

(** ** The panel: what it shows *)

Section PanelProperties.
Context {St : Type} `{StorageArea St} `{Platform}.

#[local] Abbreviation persisted := setsPersisted.

Lemma filter_filter_and {A} (f g : A -> bool) (l : list A) :
  List.filter g (List.filter f l) = List.filter (fun x => f x && g x) l.
Proof.
  induction l as [|a l IH]; [done|].
  cbn. destruct (f a); cbn; [destruct (g a)|]; by rewrite IH.
Qed.

Lemma selected_of_visible (p : Panel St) :
  List.filter (fun s => negb (isDeselected p s)) (visibleItems p)
  = selectedItems p.
Proof. apply filter_filter_and. Qed.

Lemma renderHeaderInfo_sync (p : Panel St) : headerInSync (renderHeaderInfo p).
Proof.
  split; [done|]. cbn [renderHeaderInfo p_selected].
  rewrite selected_of_visible. done.
Qed.

Lemma renderList_sync (p : Panel St) :
  headerInSync (renderList p) /\ rowsInSync (renderList p)
  /\ boxesAgree (renderList p).
Proof.
  split_and!.
  - apply renderHeaderInfo_sync.
  - unfold rowsInSync, renderList. cbn. rewrite map_map. cbn. apply map_id.
  - unfold boxesAgree, renderList. cbn. apply Forall_forall.
    intros row (s & -> & _)%list_elem_of_fmap. done.
Qed.


Lemma sameValueZero_eq (a b : json) : sameValueZero a b = true -> a = b.
Proof.
  destruct a, b; cbn; try done.
  - destruct b, b0; done.
  - intros ->%Z.eqb_eq. done.
  - unfold jsstring_eqb. intros ->%bool_decide_eq_true. done.
Qed.

Lemma setHas_setAdd (x y : json) (l : list json) :
  setHas x (setAdd y l) = setHas x l || sameValueZero x y.
Proof.
  unfold setAdd. destruct (setHas y l) eqn:Hy.
  - destruct (sameValueZero x y) eqn:Hxy; [|by rewrite orb_false_r].
    apply sameValueZero_eq in Hxy as ->. by rewrite Hy.
  - rewrite setHas_app. cbn. by rewrite orb_false_r.
Qed.

Lemma setHas_setDelete (x y : json) (l : list json) :
  setHas x (setDelete y l) = setHas x l && negb (sameValueZero x y).
Proof.
  unfold setDelete, setHas. induction l as [|z l IH]; [done|].
  cbn. destruct (sameValueZero y z) eqn:Hyz; cbn; rewrite IH.
  - destruct (sameValueZero x z) eqn:Hxz; [|done]. cbn.
    apply sameValueZero_eq in Hxz as ->.
    rewrite sameValueZero_sym, Hyz. cbn. by rewrite andb_false_r.
  - destruct (sameValueZero x z) eqn:Hxz; [|done]. cbn.
    apply sameValueZero_eq in Hxz as ->.
    by rewrite sameValueZero_sym, Hyz.
Qed.

Lemma setHas_add_all (x : json) (ids l : list json) :
  setHas x (fold_left (fun set id => setAdd id set) ids l)
  = setHas x l || setHas x ids.
Proof.
  revert l. induction ids as [|y ids IH]; intros l; cbn [fold_left].
  - by rewrite orb_false_r.
  - rewrite IH, setHas_setAdd. cbn. by rewrite orb_assoc.
Qed.

Lemma setHas_delete_all (x : json) (ids l : list json) :
  setHas x (fold_left (fun set id => setDelete id set) ids l)
  = setHas x l && negb (setHas x ids).
Proof.
  revert l. induction ids as [|y ids IH]; intros l; cbn [fold_left].
  - by rewrite andb_true_r.
  - rewrite IH, setHas_setDelete. cbn. rewrite negb_orb. by rewrite andb_assoc.
Qed.

Lemma setHas_ids (a : jsstring) (items : list Suggestion) :
  setHas (JString a) (map (fun s => JString (sg_id s)) items) = true
  <-> exists s, s ∈ items /\ sg_id s = a.
Proof.
  unfold setHas. rewrite existsb_exists. split.
  - intros (y & Hy & Heq). apply in_map_iff in Hy as (s & <- & Hs).
    exists s. split; [by apply list_elem_of_In|].
    apply sameValueZero_eq in Heq. congruence.
  - intros (s & Hs & <-). exists (JString (sg_id s)). split.
    + apply in_map_iff. exists s. split; [done|by apply list_elem_of_In].
    + cbn. unfold jsstring_eqb. by apply bool_decide_eq_true.
Qed.


Lemma filter_all {A} (f : A -> bool) (l : list A) :
  List.filter f l = l <-> forallb f l = true.
Proof.
  induction l as [|a l IH]; [done|]. cbn. destruct (f a) eqn:Ha; cbn.
  - rewrite <- IH. split; [by intros [= ->]|by intros ->].
  - split; [|done]. intros Heq.
    pose proof (filter_length_le f l) as Hlen. rewrite Heq in Hlen. cbn in Hlen. lia.
Qed.

Lemma forallb_map' {A B} (f : A -> B) (g : B -> bool) (l : list A) :
  forallb g (map f l) = forallb (fun x => g (f x)) l.
Proof. induction l as [|a l IH]; [done|]. cbn. by rewrite IH. Qed.

Lemma filter_none {A} (f : A -> bool) (l : list A) :
  (forall x, x ∈ l -> f x = false) -> List.filter f l = [].
Proof.
  induction l as [|a l IH]; intros Hall; [done|].
  cbn. rewrite (Hall a) by left. apply IH. intros x Hx. apply Hall. by right.
Qed.

Lemma filter_ext_elem {A} (f g : A -> bool) (l : list A) :
  (forall x, x ∈ l -> f x = g x) -> List.filter f l = List.filter g l.
Proof.
  induction l as [|a l IH]; intros Hall; [done|].
  cbn. rewrite (Hall a) by left. rewrite IH; [done|].
  intros x Hx. apply Hall. by right.
Qed.

Lemma visible_elem (p : Panel St) (s : Suggestion) :
  s ∈ visibleItems p <-> s ∈ p_suggestions p /\ isIgnored p s = false.
Proof.
  unfold visibleItems. rewrite list_elem_of_In, filter_In, <- list_elem_of_In.
  by rewrite negb_true_iff.
Qed.

Lemma ignored_by_id (p : Panel St) (s s' : Suggestion) :
  sg_id s = sg_id s' -> isIgnored p s = isIgnored p s'.
Proof. unfold isIgnored. by intros ->. Qed.

(** X14: [Select All/None] on a panel: when every listed item is
    selected, all of them get deselected; otherwise all of them get
    selected. The list, the ignored ids and the selection state of the
    ignored items stay as they are, and the panel is drawn anew. *)
Theorem onSelectAll_toggles (p : Panel St) :
  let q := onSelectAll p in
  p_suggestions q = p_suggestions p
  /\ p_ignored q = p_ignored p
  /\ visibleItems q = visibleItems p
  /\ (selectedItems p = visibleItems p -> selectedItems q = [])
  /\ (selectedItems p <> visibleItems p -> selectedItems q = visibleItems p)
  /\ (forall s, isIgnored p s = true -> isDeselected q s = isDeselected p s)
  /\ headerInSync q /\ rowsInSync q /\ boxesAgree q.
Proof.
  cbv zeta. unfold onSelectAll.
  set (ids := map (fun s => JString (sg_id s)) (visibleItems p)).
  set (allSelected := forallb _ ids).
  set (deselected := if allSelected then _ else _).
  set (q := renderList _).
  assert (p_suggestions q = p_suggestions p) as Hsug by done.
  assert (p_ignored q = p_ignored p) as Hign by done.
  assert (p_deselected q = deselected) as Hdes by done.
  assert (visibleItems q = visibleItems p) as Hvis.
  { unfold visibleItems, isIgnored. by rewrite Hsug, Hign. }
  assert (allSelected = true <-> selectedItems p = visibleItems p) as Hall.
  { rewrite <- selected_of_visible, filter_all. subst allSelected ids.
    rewrite forallb_map'. done. }
  assert (forall s, s ∈ visibleItems p ->
            setHas (JString (sg_id s)) ids = true) as Hin.
  { intros s Hs. apply setHas_ids. by exists s. }
  assert (forall s, isIgnored p s = true ->
            setHas (JString (sg_id s)) ids = false) as Hout.
  { intros s Hs. destruct (setHas _ ids) eqn:E; [|done].
    apply setHas_ids in E as (s' & [_ Hs']%visible_elem & Hid).
    rewrite (ignored_by_id p s' s Hid) in Hs'. congruence. }
  split_and!; try done; try apply renderList_sync.
  - intros Hsel. apply Hall in Hsel.
    unfold selectedItems, isIgnored, isDeselected. rewrite Hsug, Hign, Hdes.
    apply filter_none. intros s Hs.
    destruct (setHas (JString (sg_id s)) (p_ignored p)) eqn:Hi; [done|].
    cbn. apply negb_false_iff. subst deselected. rewrite Hsel.
    rewrite setHas_add_all, Hin; [by rewrite orb_true_r|].
    by apply visible_elem.
  - intros Hsel. assert (allSelected = false) as Hf.
    { destruct allSelected; [|done]. by destruct Hsel, (proj1 Hall). }
    unfold selectedItems, visibleItems, isIgnored, isDeselected.
    rewrite Hsug, Hign, Hdes. apply filter_ext_elem. intros s Hs.
    destruct (setHas (JString (sg_id s)) (p_ignored p)) eqn:Hi; [done|].
    cbn. subst deselected. rewrite Hf.
    rewrite setHas_delete_all, Hin; [by rewrite andb_false_r|].
    by apply visible_elem.
  - intros s Hs. unfold isDeselected. rewrite Hdes. subst deselected.
    destruct allSelected.
    + rewrite setHas_add_all, (Hout s Hs). by rewrite orb_false_r.
    + rewrite setHas_delete_all, (Hout s Hs). by rewrite andb_true_r.
Qed.


Lemma copySelection_frame (build : list Suggestion -> jsstring)
      (done : nat -> jsstring) (outcome : ClipboardOutcome) (p : Panel St) :
  let q := copySelection build done outcome p in
  p_suggestions q = p_suggestions p /\ p_deselected q = p_deselected p
  /\ p_ignored q = p_ignored p /\ p_rows q = p_rows p
  /\ p_found q = p_found p /\ p_selected q = p_selected p
  /\ p_store q = p_store p /\ p_location q = p_location p
  /\ p_open q = p_open p.
Proof.
  cbv zeta. unfold copySelection.
  destruct (_ =? _)%nat; [done|]. by destruct outcome.
Qed.

Lemma onMessage_frame (msg : Message) (p : Panel St) :
  let q := fst (onMessage msg p) in
  p_suggestions q = p_suggestions p /\ p_deselected q = p_deselected p
  /\ p_ignored q = p_ignored p /\ p_rows q = p_rows p
  /\ p_found q = p_found p /\ p_selected q = p_selected p
  /\ p_store q = p_store p /\ p_location q = p_location p.
Proof. by destruct msg. Qed.

(** The listeners that only write the status line, the clipboard or the
    class of the panel, or only ask for a refresh, leave the rest of the
    state alone; a move of the page changes the address only. *)
Lemma quiet_steps (e : PanelEvent) (p : Panel St) :
  match e with
  | Navigated _ _ | TurboLoad | PjaxEnd | PopState
  | RefreshClicked | CopyClicked _ | CopyMdClicked _ | CopyJsonClicked _
  | MessageReceived _ =>
      let q := step e p in
      p_suggestions q = p_suggestions p /\ p_deselected q = p_deselected p
      /\ p_ignored q = p_ignored p /\ p_rows q = p_rows p
      /\ p_found q = p_found p /\ p_selected q = p_selected p
      /\ p_store q = p_store p
  | _ => True
  end.
Proof.
  destruct e; try exact I; cbn [step].
  - done.
  - done.
  - done.
  - unfold onPopState. by destruct (isPRPage _).
  - done.
  - pose proof (copySelection_frame (buildPrompt (currentHref p))
      (fun n => js "Copied " ++ numberToString (Z.of_nat n)
                  ++ js " suggestion(s) to clipboard") outcome p) as Hf.
    cbv zeta in *. unfold onCopy. tauto.
  - pose proof (copySelection_frame (buildMarkdown (currentHref p))
      (fun n => js "Copied MD for " ++ numberToString (Z.of_nat n)
                  ++ js " suggestion(s)") outcome p) as Hf.
    cbv zeta in *. unfold onCopyMd. tauto.
  - pose proof (copySelection_frame (buildJSON (currentHref p))
      (fun n => js "Copied JSON for " ++ numberToString (Z.of_nat n)
                  ++ js " suggestion(s)") outcome p) as Hf.
    cbv zeta in *. unfold onCopyJson. tauto.
  - pose proof (onMessage_frame msg p) as Hf. cbv zeta in *. tauto.
Qed.

(** Only a move of the page changes the address the script reads, and it
    keeps the origin. *)
Lemma step_location (e : PanelEvent) (p : Panel St) :
  currentOrigin (step e p) = currentOrigin p
  /\ match e with
     | Navigated path url =>
         currentPathname (step e p) = path /\ currentHref (step e p) = url
     | _ => p_location (step e p) = p_location p
     end.
Proof.
  destruct e; cbn [step]; try done.
  - unfold onPopState. by destruct (isPRPage _).
  - unfold onCheckboxChange. by destruct (p_rows p !! k).
  - unfold onIgnoreClick. by destruct (p_rows p !! k).
  - pose proof (copySelection_frame (buildPrompt (currentHref p))
      (fun n => js "Copied " ++ numberToString (Z.of_nat n)
                  ++ js " suggestion(s) to clipboard") outcome p) as Hf.
    cbv zeta in Hf. unfold onCopy, currentOrigin.
    destruct Hf as (_ & _ & _ & _ & _ & _ & _ & -> & _). done.
  - pose proof (copySelection_frame (buildMarkdown (currentHref p))
      (fun n => js "Copied MD for " ++ numberToString (Z.of_nat n)
                  ++ js " suggestion(s)") outcome p) as Hf.
    cbv zeta in Hf. unfold onCopyMd, currentOrigin.
    destruct Hf as (_ & _ & _ & _ & _ & _ & _ & -> & _). done.
  - pose proof (copySelection_frame (buildJSON (currentHref p))
      (fun n => js "Copied JSON for " ++ numberToString (Z.of_nat n)
                  ++ js " suggestion(s)") outcome p) as Hf.
    cbv zeta in Hf. unfold onCopyJson, currentOrigin.
    destruct Hf as (_ & _ & _ & _ & _ & _ & _ & -> & _). done.
  - pose proof (onMessage_frame msg p) as Hf. cbv zeta in Hf.
    unfold currentOrigin.
    destruct Hf as (_ & _ & _ & _ & _ & _ & _ & ->). done.
Qed.

Lemma sync_transfer (p q : Panel St) :
  p_suggestions q = p_suggestions p -> p_deselected q = p_deselected p ->
  p_ignored q = p_ignored p -> p_rows q = p_rows p ->
  p_found q = p_found p -> p_selected q = p_selected p ->
  (headerInSync p -> headerInSync q) /\ (rowsInSync p -> rowsInSync q)
  /\ (boxesAgree p -> boxesAgree q).
Proof.
  intros Hs Hd Hi Hr Hf Hn.
  unfold headerInSync, rowsInSync, boxesAgree, visibleItems, selectedItems,
    isIgnored, isDeselected.
  by rewrite Hs, Hd, Hi, Hr, Hf, Hn.
Qed.

Lemma map_row_item_insert (rows : list Row) (k : nat) (row : Row) (b : bool) :
  rows !! k = Some row ->
  map row_item (<[ k := {| row_item := row_item row; row_checked := b |} ]> rows)
  = map row_item rows.
Proof.
  intros Hk. change (map row_item) with (fmap (M := list) row_item).
  rewrite list_fmap_insert. cbn. apply list_insert_id.
  by rewrite list_lookup_fmap, Hk.
Qed.

Lemma step_header (e : PanelEvent) (p : Panel St) :
  headerInSync p -> headerInSync (step e p).
Proof.
  intros Hp. pose proof (quiet_steps e p) as Hq.
  destruct e; cbn [step] in *; cbv zeta in Hq;
    try (destruct Hq as (? & ? & ? & ? & ? & ? & ?);
         by apply (sync_transfer p)).
  - apply (sync_transfer (setSuggestions (extractAllSuggestions page) p));
      try done. apply renderList_sync.
  - unfold onCheckboxChange. destruct (p_rows p !! k); [|done].
    apply renderHeaderInfo_sync.
  - unfold onIgnoreClick. destruct (p_rows p !! k); [|done].
    apply renderHeaderInfo_sync.
  - apply renderList_sync.
Qed.

Lemma step_rows (e : PanelEvent) (p : Panel St) :
  rowsInSync p -> rowsInSync (step e p).
Proof.
  intros Hp. pose proof (quiet_steps e p) as Hq.
  destruct e; cbn [step] in *; cbv zeta in Hq;
    try (destruct Hq as (? & ? & ? & ? & ? & ? & ?);
         by apply (sync_transfer p)).
  - apply (sync_transfer (setSuggestions (extractAllSuggestions page) p));
      try done. apply renderList_sync.
  - unfold onCheckboxChange. destruct (p_rows p !! k) as [row|] eqn:Hk; [|done].
    unfold rowsInSync in *. cbn.
    rewrite (map_row_item_insert _ _ _ _ Hk). exact Hp.
  - unfold onIgnoreClick. destruct (p_rows p !! k) as [row|]; [|done].
    apply (sync_transfer (renderList
             (saveIgnored
                (withIgnored (setAdd (JString (sg_id (row_item row))) (p_ignored p)) p))));
      try done.
    apply renderList_sync.
  - apply renderList_sync.
Qed.

Lemma run_invariant (I : Panel St -> Prop) (es : list PanelEvent) (p : Panel St) :
  (forall e q, I q -> I (step e q)) -> I p -> I (run es p).
Proof.
  intros Hstep. revert p. induction es as [|e es IH]; intros p Hp; [done|].
  cbn. apply IH. by apply Hstep.
Qed.

Lemma mount_sync (loc : Location) (st : St) :
  headerInSync (mount loc st)
  /\ rowsInSync (mount loc st)
  /\ boxesAgree (mount loc st).
Proof.
  unfold mount. set (p0 := Build_Panel _ _ _ _ _ _ _ _ _ _ _ _).
  split; [apply renderHeaderInfo_sync|].
  destruct (renderList_sync (renderHeaderInfo (setStatus [] p0)))
    as (_ & Hr & Hb).
  split.
  - by apply (sync_transfer (renderPanel p0)).
  - by apply (sync_transfer (renderPanel p0)).
Qed.

Lemma run_header (loc : Location) (st : St) (es : list PanelEvent) :
  headerInSync (run es (mount loc st)).
Proof. apply run_invariant; [apply step_header|apply mount_sync]. Qed.

(** X15: whatever the user and the page do, the panel shows its state:
    after any run of events from the start of the script, the pill [Found]
    counts the suggestions that are not ignored, the pill [Selected] those
    of them that are not deselected, and the rows of the list are the
    suggestions that are not ignored, in their order. *)
Theorem panel_shows_its_state (loc : Location) (st : St)
        (es : list PanelEvent) :
  let p := run es (mount loc st) in
  p_found p = length (visibleItems p)
  /\ p_selected p = length (selectedItems p)
  /\ map row_item (p_rows p) = visibleItems p.
Proof.
  cbv zeta. destruct (run_header loc st es) as [Hf Hs].
  assert (rowsInSync (run es (mount loc st))) as Hr.
  { apply run_invariant; [apply step_rows|apply mount_sync]. }
  done.
Qed.


Lemma extractAll_ids_NoDup (page : Page) :
  NoDup (frameIdOf <$> page_frames page) ->
  NoDup (sg_id <$> extractAllSuggestions page).
Proof.
  intros Hframes.
  eapply sublist_NoDup; [|apply fmap_sublist, filterCopilot_sublist].
  by apply candidates_ids_NoDup.
Qed.

Lemma visible_sublist (p : Panel St) : sublist (visibleItems p) (p_suggestions p).
Proof. apply filter_bool_sublist. Qed.

Lemma tidy_transfer (p q : Panel St) :
  p_suggestions q = p_suggestions p -> p_deselected q = p_deselected p ->
  p_ignored q = p_ignored p -> p_rows q = p_rows p ->
  tidy p -> tidy q.
Proof.
  intros Hs Hd Hi Hr. unfold tidy, rowsInSync, boxesAgree, visibleItems,
    isIgnored, isDeselected.
  by rewrite Hs, Hd, Hi, Hr.
Qed.

Lemma renderList_tidy (p : Panel St) :
  NoDup (sg_id <$> p_suggestions p) -> tidy (renderList p).
Proof.
  intros Hn. destruct (renderList_sync p) as (_ & Hr & Hb). done.
Qed.

Lemma checkbox_tidy (k : nat) (p : Panel St) :
  tidy p -> tidy (onCheckboxChange k p).
Proof.
  intros (Hb & Hr & Hn). unfold onCheckboxChange.
  destruct (p_rows p !! k) as [row|] eqn:Hk; [|done].
  set (id := JString (sg_id (row_item row))).
  set (deselected := if negb (row_checked row) then _ else _).
  split_and!; [|unfold rowsInSync in *; cbn;
                 by rewrite (map_row_item_insert _ _ _ _ Hk)|done].
  assert (NoDup (sg_id <$> map row_item (p_rows p))) as Hrows.
  { rewrite Hr. eapply sublist_NoDup; [done|]. apply fmap_sublist, visible_sublist. }
  unfold boxesAgree in *. cbn [renderHeaderInfo saveDeselection p_rows].
  apply Forall_lookup. intros j r Hj.
  unfold isDeselected. cbn [renderHeaderInfo saveDeselection p_deselected].
  destruct (decide (j = k)) as [->|Hjk].
  - rewrite list_lookup_insert_eq in Hj by (by eapply lookup_lt_Some).
    injection Hj as <-. cbn [row_item row_checked]. subst deselected id.
    destruct (row_checked row); cbn [negb].
    + rewrite setHas_setAdd. cbn. unfold jsstring_eqb.
      rewrite bool_decide_eq_true_2 by done. by rewrite orb_true_r.
    + rewrite setHas_setDelete. cbn. unfold jsstring_eqb.
      rewrite bool_decide_eq_true_2 by done. by rewrite andb_false_r.
  - rewrite list_lookup_insert_ne in Hj by done.
    rewrite Forall_lookup in Hb. rewrite (Hb j r Hj).
    assert (sg_id (row_item r) <> sg_id (row_item row)) as Hne.
    { intros Heq. apply Hjk.
      eapply (NoDup_lookup _ j k (sg_id (row_item r))); [exact Hrows| |].
      - by rewrite list_lookup_fmap, (list_lookup_fmap row_item), Hj.
      - by rewrite list_lookup_fmap, (list_lookup_fmap row_item), Hk, Heq. }
    unfold isDeselected. f_equal. subst deselected id.
    assert (sameValueZero (JString (sg_id (row_item r)))
                          (JString (sg_id (row_item row))) = false) as Hsvz.
    { cbn. unfold jsstring_eqb. by apply bool_decide_eq_false. }
    destruct (negb (row_checked row)).
    + rewrite setHas_setDelete, Hsvz. by rewrite andb_true_r.
    + rewrite setHas_setAdd, Hsvz. by rewrite orb_false_r.
Qed.

Lemma step_tidy (e : PanelEvent) (p : Panel St) :
  distinctFrames e -> tidy p -> tidy (step e p).
Proof.
  intros He Hp. pose proof (quiet_steps e p) as Hq.
  destruct e; cbn [step] in *; cbv zeta in Hq;
    try (destruct Hq as (? & ? & ? & ? & ? & ? & ?);
         by apply (tidy_transfer p)).
  - apply (tidy_transfer (setSuggestions (extractAllSuggestions page) p));
      try done.
    apply renderList_tidy. cbn. by apply extractAll_ids_NoDup.
  - by apply checkbox_tidy.
  - unfold onIgnoreClick. destruct (p_rows p !! k) as [row|]; [|done].
    apply (tidy_transfer (renderList
             (saveIgnored
                (withIgnored (setAdd (JString (sg_id (row_item row))) (p_ignored p)) p))));
      try done.
    apply renderList_tidy. by destruct Hp as (_ & _ & Hn).
  - apply renderList_tidy. by destruct Hp as (_ & _ & Hn).
Qed.

(** X16: when the frames of every document that is read have identifiers
    of their own, every check box of the list tells the truth after any run
    of events: it is ticked exactly when its suggestion is not deselected. *)
Theorem boxes_tell_the_selection (loc : Location) (st : St)
        (es : list PanelEvent) :
  Forall distinctFrames es ->
  boxesAgree (run es (mount loc st)).
Proof.
  intros Hes.
  assert (tidy (mount loc st)) as Hm.
  { destruct (mount_sync loc st) as (_ & Hr & Hb). split_and!; [done|done|].
    cbn. constructor. }
  revert Hm. generalize (mount loc st).
  induction Hes as [|e es He Hes IH]; intros p Hp; [by destruct Hp|].
  cbn. apply IH. by apply step_tidy.
Qed.


Lemma step_keeps_ignored (x : json) (e : PanelEvent) (p : Panel St) :
  setHas x (p_ignored p) = true -> setHas x (p_ignored (step e p)) = true.
Proof.
  intros Hx. pose proof (quiet_steps e p) as Hq.
  destruct e; cbn [step] in *; cbv zeta in Hq;
    try (destruct Hq as (? & ? & Hi & ?); by rewrite Hi); try done.
  - unfold onCheckboxChange. by destruct (p_rows p !! k).
  - unfold onIgnoreClick. destruct (p_rows p !! k) as [row|]; [|done].
    cbn [renderHeaderInfo renderList saveIgnored withIgnored p_ignored].
    by rewrite setHas_setAdd, Hx.
Qed.

(** X17: [Skip] is for good: once the button of a row is pressed, and
    whatever happens next (refreshes that find the suggestion again,
    [Select All/None], messages of the popup), the id of that suggestion
    stays in the ignored set, and no suggestion with that id is listed,
    counted or selected. *)
Theorem skipped_stays_hidden (p : Panel St) (k : nat) (row : Row)
        (es : list PanelEvent) :
  p_rows p !! k = Some row ->
  let id := sg_id (row_item row) in
  let q := run es (step (SkipClicked k) p) in
  setHas (JString id) (p_ignored q) = true
  /\ Forall (fun s => sg_id s <> id) (visibleItems q)
  /\ Forall (fun s => sg_id s <> id) (selectedItems q)
  /\ Forall (fun r => sg_id (row_item r) <> id) (p_rows q)
  /\ Forall (fun s => sg_id s <> id) (qi_suggestions (queryAnswer q))
  /\ id ∉ qi_selectedIds (queryAnswer q).
Proof.
  intros Hk. cbv zeta.
  set (id := sg_id (row_item row)).
  set (q := run es (step (SkipClicked k) p)).
  assert (setHas (JString id) (p_ignored q) = true) as Hign.
  { apply (run_invariant (fun q => setHas (JString id) (p_ignored q) = true)).
    - intros e q0. apply step_keeps_ignored.
    - cbn [step]. unfold onIgnoreClick. rewrite Hk.
      cbn [renderHeaderInfo renderList saveIgnored withIgnored p_ignored].
      rewrite setHas_setAdd. cbn. unfold jsstring_eqb.
      rewrite bool_decide_eq_true_2 by done. by rewrite orb_true_r. }
  assert (rowsInSync q) as Hrows.
  { apply run_invariant; [apply step_rows|].
    cbn [step]. unfold onIgnoreClick. rewrite Hk.
    apply (sync_transfer (renderList
             (saveIgnored
                (withIgnored (setAdd (JString (sg_id (row_item row))) (p_ignored p)) p))));
      try done.
    apply renderList_sync. }
  assert (Forall (fun s => sg_id s <> id) (visibleItems q)) as Hvis.
  { apply Forall_forall. intros s [_ Hs]%visible_elem Heq.
    unfold isIgnored in Hs. rewrite Heq in Hs. congruence. }
  split_and!; try done.
  - rewrite <- selected_of_visible. apply Forall_forall. intros s Hs.
    rewrite Forall_forall in Hvis. apply Hvis.
    apply list_elem_of_In, filter_In in Hs as [Hs _]. by apply list_elem_of_In.
  - rewrite Forall_forall in Hvis. apply Forall_forall. intros r Hr.
    apply Hvis. rewrite <- Hrows. apply list_elem_of_In, in_map.
    by apply list_elem_of_In.
  - intros Hin. cbn in Hin. apply list_elem_of_In, in_map_iff in Hin
      as (s & Hid & Hs).
    apply filter_In in Hs as [Hs _]. apply list_elem_of_In in Hs.
    rewrite Forall_forall in Hvis. by apply (Hvis s).
Qed.


(** ** The panel: what a reload finds *)

Lemma getStoredSet_isSet (origin pathname suffix : jsstring) (st : St)
      (set : list json) :
  getStoredSet origin pathname suffix st = Ok set -> isSet set = true.
Proof.
  unfold getStoredSet.
  destruct (getItem st _) as [raw|]; cbn; [|by intros [= <-]].
  destruct (orNull raw) as [text|]; [|by intros [= <-]].
  destruct (JSON_parse text) as [arr|]; cbn; [|by intros [= <-]].
  intros [= <-]. apply newSet_isSet.
Qed.

Lemma fold_setAdd_isSet (ids l : list json) :
  isSet l = true -> isSet (fold_left (fun set id => setAdd id set) ids l) = true.
Proof.
  revert l. induction ids as [|x ids IH]; intros l Hl; [done|].
  cbn. by apply IH, setAdd_isSet.
Qed.

Lemma fold_setDelete_isSet (ids l : list json) :
  isSet l = true ->
  isSet (fold_left (fun set id => setDelete id set) ids l) = true.
Proof.
  revert l. induction ids as [|x ids IH]; intros l Hl; [done|].
  cbn. by apply IH, setDelete_isSet.
Qed.

Section Reliable.
Hypothesis Hreliable : reliable St.

Lemma save_then_get (origin pathname suffix : jsstring) (st : St)
      (set : list json) :
  getStoredSet origin pathname suffix
    (stored (saveStoredSet origin pathname suffix st set) st)
  = Ok (newSet set).
Proof.
  unfold saveStoredSet.
  destruct (Hreliable st (currentPRKey origin pathname ++ suffix)
              (JSON_stringify (JArray set) 0)) as (st' & -> & Hget & _).
  cbn [tryCatch stored]. unfold getStoredSet. rewrite Hget. cbn [bindResult].
  rewrite stringify_array_nonempty, JSON_parse_stringify. done.
Qed.

Lemma save_then_get_other (origin pathname sfx1 sfx2 : jsstring) (st : St)
      (set : list json) :
  currentPRKey origin pathname ++ sfx2 <> currentPRKey origin pathname ++ sfx1 ->
  getStoredSet origin pathname sfx2
    (stored (saveStoredSet origin pathname sfx1 st set) st)
  = getStoredSet origin pathname sfx2 st.
Proof.
  intros Hne. unfold saveStoredSet.
  destruct (Hreliable st (currentPRKey origin pathname ++ sfx1)
              (JSON_stringify (JArray set) 0)) as (st' & -> & _ & Hother).
  cbn [tryCatch stored]. unfold getStoredSet. by rewrite Hother.
Qed.

Lemma saveDeselection_persisted (p : Panel St) (set : list json) :
  persisted p -> isSet set = true ->
  persisted (saveDeselection (withDeselected set p)).
Proof.
  intros (Hd & Hi & Hsd & Hsi) Hset. unfold persisted, setsPersisted.
  unfold currentOrigin, currentPathname in *.
  cbn [saveDeselection withDeselected p_store p_deselected p_ignored
       p_location].
  unfold currentOrigin, currentPathname.
  cbn [withDeselected p_location].
  unfold getDeselectedSet, saveDeselectedSet, getIgnoredSet in *.
  split_and!; try done.
  - by rewrite save_then_get, newSet_fixed.
  - rewrite save_then_get_other; [done|].
    intros Heq. symmetry in Heq. by apply keys_differ_by_suffix in Heq.
Qed.

Lemma saveIgnored_persisted (p : Panel St) (set : list json) :
  persisted p -> isSet set = true ->
  persisted (saveIgnored (withIgnored set p)).
Proof.
  intros (Hd & Hi & Hsd & Hsi) Hset. unfold persisted, setsPersisted.
  unfold currentOrigin, currentPathname in *.
  cbn [saveIgnored withIgnored p_store p_deselected p_ignored p_location].
  unfold currentOrigin, currentPathname.
  cbn [withIgnored p_location].
  unfold getDeselectedSet, saveIgnoredSet, getIgnoredSet in *.
  split_and!; try done.
  - rewrite save_then_get_other; [done|]. apply keys_differ_by_suffix.
  - by rewrite save_then_get, newSet_fixed.
Qed.

Lemma persisted_transfer (p q : Panel St) :
  p_deselected q = p_deselected p -> p_ignored q = p_ignored p ->
  p_store q = p_store p ->
  currentOrigin q = currentOrigin p -> currentPathname q = currentPathname p ->
  persisted p -> persisted q.
Proof.
  intros Hd Hi Hs Ho Hp. unfold persisted, setsPersisted.
  by rewrite Hd, Hi, Hs, Ho, Hp.
Qed.

(** The sets stay under the keys of the address as long as the page stays
    on its path. *)
Lemma step_persisted (e : PanelEvent) (p : Panel St) :
  staysAt (currentPathname p) e -> persisted p -> persisted (step e p).
Proof.
  intros He Hp. pose proof (quiet_steps e p) as Hq.
  destruct (step_location e p) as [Ho Hl].
  destruct e; cbn [step staysAt] in *; cbv zeta in Hq;
    try (destruct Hq as (? & ? & ? & ? & ? & ? & ?);
         apply (persisted_transfer p); try done;
         first [by unfold currentPathname; rewrite Hl
               |by destruct Hl as [-> _]]).
  - apply (persisted_transfer p); try done.
  - unfold onCheckboxChange. destruct (p_rows p !! k) as [row|]; [|done].
    set (set := if negb (row_checked row) then _ else _).
    assert (isSet set = true) as Hset.
    { destruct Hp as (_ & _ & Hsd & _). subst set.
      destruct (negb _); [by apply setDelete_isSet|by apply setAdd_isSet]. }
    apply (persisted_transfer (saveDeselection (withDeselected set p)));
      try done.
    by apply saveDeselection_persisted.
  - unfold onIgnoreClick. destruct (p_rows p !! k) as [row|]; [|done].
    apply (persisted_transfer
             (saveIgnored
                (withIgnored (setAdd (JString (sg_id (row_item row)))
                                     (p_ignored p)) p)));
      try done.
    apply saveIgnored_persisted; [done|].
    apply setAdd_isSet. by destruct Hp as (_ & _ & _ & Hsi).
  - unfold onSelectAll.
    set (set := if forallb _ _ then _ else _).
    assert (isSet set = true) as Hset.
    { destruct Hp as (_ & _ & Hsd & _). subst set.
      destruct (forallb _ _);
        [by apply fold_setAdd_isSet|by apply fold_setDelete_isSet]. }
    apply (persisted_transfer (saveDeselection (withDeselected set p)));
      try done.
    by apply saveDeselection_persisted.
Qed.

Lemma step_stays (e : PanelEvent) (p : Panel St) :
  staysAt (currentPathname p) e ->
  currentPathname (step e p) = currentPathname p.
Proof.
  intros He. destruct (step_location e p) as [_ Hl].
  destruct e; cbn [staysAt] in He;
    first [by unfold currentPathname; rewrite Hl | by destruct Hl as [-> _]].
Qed.

Lemma mount_persisted (loc : Location) (st : St) : persisted (mount loc st).
Proof.
  unfold persisted, setsPersisted, mount. cbn.
  unfold getDeselectedSet, getIgnoredSet.
  destruct (getStoredSet_returns (loc_origin loc) (loc_pathname loc)
              (js ":deselected") st) as [d Hd].
  destruct (getStoredSet_returns (loc_origin loc) (loc_pathname loc)
              (js ":ignored") st) as [i Hi].
  unfold currentOrigin, currentPathname. cbn [p_location].
  rewrite Hd, Hi. split_and!; try done.
  - by eapply getStoredSet_isSet.
  - by eapply getStoredSet_isSet.
Qed.

Lemma run_persisted (path : jsstring) (es : list PanelEvent) (p : Panel St) :
  Forall (staysAt path) es -> currentPathname p = path ->
  persisted p -> persisted (run es p).
Proof.
  intros Hes. revert p. induction Hes as [|e es He Hes IH]; intros p <- Hp;
    [done|].
  cbn. apply IH; [by apply step_stays|by apply step_persisted].
Qed.

End Reliable.



(** ** The popup and the worker against the content script *)

Lemma buildPrompt_not_empty (href : jsstring) (items : list Suggestion) :
  exists c prompt, buildPrompt href items = c :: prompt.
Proof. by eexists _, _. Qed.

Lemma selected_ids_items (p : Panel St) :
  itemsWithIds (Some (map JString (qi_selectedIds (queryAnswer p)))) p
  = selectedItems p.
Proof.
  unfold itemsWithIds, selectedItems. apply filter_ext_elem. intros s Hs.
  cbn [default from_option id queryAnswer qi_selectedIds].
  rewrite selected_of_visible, map_map.
  destruct (negb (isIgnored p s) && negb (isDeselected p s)) eqn:E.
  - apply setHas_ids. exists s. split; [|done].
    unfold selectedItems. apply list_elem_of_In, filter_In.
    split; [by apply list_elem_of_In|done].
  - destruct (setHas _ _) eqn:E'; [|done].
    apply setHas_ids in E' as (s' & Hs' & Hid).
    unfold selectedItems in Hs'.
    apply list_elem_of_In, filter_In in Hs' as [_ Hs'].
    unfold isIgnored, isDeselected in *. rewrite Hid in Hs'. congruence.
Qed.


Section AgainstTheContentScript.
Variables (tabId : Z) (url : option jsstring).

#[local] Abbreviation browser := (contentTab (St := St) tabId).
#[local] Abbreviation theTab := {| tab_id := Some tabId; tab_url := url |}.

Lemma query_is_answered (w : Panel St) :
  tabsSendMessage (Browser := browser) w (Some tabId) CRTP_QUERY
  = (w, SendAnswered (Some (RQuery (queryAnswer w)))).
Proof. cbn. by rewrite bool_decide_eq_true_2. Qed.

Lemma queryInfo_keeps (w : Panel St) (s : Popup.State) :
  Popup.queryInfo (H := browser) w (Some tabId) s
  = (w, {| Popup.lastSuggestions := visibleItems w;
           Popup.lastSelectedIds := map sg_id (selectedItems w);
           Popup.view := Popup.updateUI (Some (queryAnswer w))
                                        (Popup.view s) |}).
Proof.
  unfold Popup.queryInfo. rewrite query_is_answered.
  cbn [Popup.failed Popup.keep Popup.infoOf].
  cbn [queryAnswer qi_suggestions qi_selectedIds].
  by rewrite selected_of_visible.
Qed.

(** X19: the popup and the panel copy the same prompt. When some
    suggestion is selected, [Copy Selected] of the popup, after its query,
    puts on the clipboard the prompt that [Copy Prompt] of the panel puts
    there, for the same selection, and reports the number of selected
    suggestions; the content script is left as it was. *)
Theorem popup_copies_the_selection (w : Panel St) (s : Popup.State) :
  selectedItems w <> [] ->
  let asked := Popup.queryInfo (H := browser) w (Some tabId) s in
  let copied :=
    Popup.copySelectedPrompt (H := browser) (fst asked) theTab (snd asked) in
  fst copied = withClipboard (buildPrompt (currentHref w) (selectedItems w)) w
  /\ p_clipboard (fst copied) = p_clipboard (onCopy ClipWritten w)
  /\ Popup.v_status (Popup.view (snd copied))
      = js "Copied " ++ numberToString (Z.of_nat (length (selectedItems w)))
          ++ js " suggestion(s).".
Proof.
  intros Hsel. cbv zeta. rewrite queryInfo_keeps. cbn [fst snd].
  unfold Popup.copySelectedPrompt. cbn [Popup.lastSelectedIds tab_id].
  rewrite length_map.
  destruct (selectedItems w) as [|s0 sel] eqn:Esel; [done|].
  cbn [length Nat.eqb].
  assert (tabsSendMessage (Browser := browser) w (Some tabId)
            (CRTP_BUILD_PROMPT (Some (map JString (map sg_id (s0 :: sel)))))
          = (w, SendAnswered
                  (Some (RPrompt (buildPrompt (currentHref w) (s0 :: sel))))))
    as ->.
  { cbn [tabsSendMessage contentTab]. rewrite bool_decide_eq_true_2 by done.
    cbn [onMessage]. rewrite <- Esel.
    pose proof (selected_ids_items w) as Hitems.
    cbn [queryAnswer qi_selectedIds] in Hitems.
    rewrite selected_of_visible in Hitems. by rewrite Hitems. }
  destruct (buildPrompt_not_empty (currentHref w) (s0 :: sel))
    as (c & prompt & Eprompt).
  rewrite Eprompt. cbn [clipboardWrite contentTab fst snd Popup.afterWrite].
  split_and!; [done| |done].
  unfold onCopy, copySelection. rewrite Esel. cbn [length Nat.eqb].
  cbn [setStatus p_clipboard withClipboard]. by rewrite Eprompt.
Qed.


(** X20: with nothing selected the popup copies everything. When every
    listed suggestion is deselected, [Copy Selected] of the popup puts on
    the clipboard the prompt of the popup for all the listed suggestions and
    reports their number, where [Copy Prompt] of the panel copies nothing
    and says so. With no listed suggestion the popup copies nothing. *)
Theorem popup_copies_all_when_none_selected (w : Panel St) (s : Popup.State) :
  selectedItems w = [] ->
  let asked := Popup.queryInfo (H := browser) w (Some tabId) s in
  let copied :=
    Popup.copySelectedPrompt (H := browser) (fst asked) theTab (snd asked) in
  (visibleItems w <> [] ->
     fst copied = withClipboard (Popup.buildPrompt url (visibleItems w)) w
     /\ Popup.v_status (Popup.view (snd copied))
         = js "Copied " ++ numberToString (Z.of_nat (length (visibleItems w)))
             ++ js " suggestion(s).")
  /\ (visibleItems w = [] ->
       fst copied = w
       /\ Popup.v_status (Popup.view (snd copied))
           = js "No suggestions available to copy.")
  /\ onCopy ClipWritten w
      = setStatus (js "No suggestions selected to copy") w.
Proof.
  intros Hsel. cbv zeta. rewrite queryInfo_keeps. cbn [fst snd].
  unfold Popup.copySelectedPrompt.
  cbn [Popup.lastSelectedIds Popup.lastSuggestions tab_url].
  rewrite Hsel. cbn [map length Nat.eqb].
  split_and!.
  - intros Hvis. destruct (visibleItems w) as [|v vis] eqn:Evis; [done|].
    cbn [length Nat.ltb Nat.leb]. done.
  - intros ->. done.
  - unfold onCopy, copySelection. by rewrite Hsel.
Qed.

(** X21: the popup shows the counts of the panel. After its query, on a
    pull-request page, the popup shows the numbers of the two pills of the
    panel, whatever run of events the panel has been through, holds the
    listed suggestions, and has its copy button disabled exactly when
    nothing is listed. Off a pull-request page it hides the counts and
    the buttons. *)
Theorem popup_shows_the_counts (loc : Location) (st : St)
        (es : list PanelEvent) (s : Popup.State) :
  let w := run es (mount loc st) in
  let asked := Popup.queryInfo (H := browser) w (Some tabId) s in
  let v := Popup.view (snd asked) in
  fst asked = w
  /\ Popup.lastSuggestions (snd asked) = visibleItems w
  /\ Popup.lastSelectedIds (snd asked) = getSelectedIds w
  /\ (if isPRPage (currentPathname w)
       then Popup.v_countsShown v = true
            /\ Popup.v_found v = numberToString (Z.of_nat (p_found w))
            /\ Popup.v_selected v = numberToString (Z.of_nat (p_selected w))
            /\ Popup.v_copyShown v = true
            /\ (Popup.v_copyDisabled v = true <-> visibleItems w = [])
       else Popup.v_countsShown v = false /\ Popup.v_copyShown v = false).
Proof.
  cbv zeta. set (w := run es (mount loc st)).
  destruct (run_header loc st es) as [Hf Hs]. fold w in Hf, Hs.
  rewrite queryInfo_keeps. cbn [fst snd Popup.lastSuggestions
    Popup.lastSelectedIds Popup.view].
  split_and!; [done|done| |].
  - unfold getSelectedIds, selectedItems, visibleItems.
    induction (p_suggestions w) as [|a l IH]; [done|].
    cbn [List.filter]. destruct (negb (isIgnored w a)); cbn [andb]; [|done].
    cbn [map List.filter]. unfold isDeselected at 1.
    destruct (negb (setHas _ _)); cbn [map]; by rewrite IH.
  - unfold Popup.updateUI. cbn [queryAnswer qi_isPR qi_hasCRTP qi_found
      qi_selected].
    destruct (isPRPage (currentPathname w)); [|done].
    cbn [Popup.v_countsShown Popup.v_found Popup.v_selected Popup.v_copyShown
         Popup.v_copyDisabled].
    rewrite length_map, selected_of_visible, Hf, Hs.
    split_and!; try done.
    rewrite Nat.eqb_eq. by destruct (visibleItems w).
Qed.

Lemma message_to_the_tab (w : Panel St) (msg : Message) :
  tabsSendMessage (Browser := browser) w (Some tabId) msg
  = match onMessage msg w with
    | (w', Some resp) => (w', SendAnswered (Some resp))
    | (w', None) => (w', SendLastError)
    end.
Proof. cbn. by rewrite bool_decide_eq_true_2. Qed.

Lemma message_to_another_tab (w : Panel St) (other : option Z) (msg : Message) :
  other <> Some tabId ->
  tabsSendMessage (Browser := browser) w other msg = (w, SendLastError).
Proof. intros Hne. cbn. by rewrite bool_decide_eq_false_2. Qed.

(** X22: a click on the action of the extension toggles the panel. On
    the tab that runs the content script, whether the browser passes the
    tab to the worker or the worker has to ask for the active tab, the
    worker sends one message: the panel changes from closed to open or
    from open to closed, nothing else changes, and the worker reports
    success. On another tab nobody answers: nothing changes and the worker
    reports failure. *)
Theorem action_click_toggles_panel (w : Panel St) (other : Z) :
  tabId <> 0%Z -> other <> 0%Z -> other <> tabId ->
  Background.handleActionClicked (H := browser) w (Some theTab)
  = (togglePanel w, Some true)
  /\ Background.handleActionClicked (H := browser) w None
      = (togglePanel w, Some true)
  /\ Background.handleActionClicked (H := browser) w
        (Some {| tab_id := None; tab_url := url |})
      = (togglePanel w, Some true)
  /\ Background.handleActionClicked (H := browser) w
        (Some {| tab_id := Some other; tab_url := url |})
      = (w, Some false)
  /\ p_open (togglePanel w) = negb (p_open w)
  /\ togglePanel (togglePanel w) = w.
Proof.
  intros Hid Hother Hne.
  assert (truthyId (Some tabId) = true) as Htruthy.
  { unfold truthyId, truthyNumber. by apply negb_true_iff, Z.eqb_neq. }
  assert (truthyId (Some other) = true) as Htruthy'.
  { unfold truthyId, truthyNumber. by apply negb_true_iff, Z.eqb_neq. }
  assert (Background.toggleOrOpenPanel (H := browser) w (Some tabId)
          = (togglePanel w, true)) as Htoggle.
  { unfold Background.toggleOrOpenPanel, Background.sendMessageSafe.
    by rewrite message_to_the_tab. }
  split_and!.
  - unfold Background.handleActionClicked. cbn [tab_id].
    by rewrite !Htruthy, Htoggle.
  - unfold Background.handleActionClicked.
    cbn [truthyId truthyNumber tabsQuery contentTab tab_id].
    fold (truthyNumber (Some tabId)). fold (truthyId (Some tabId)).
    by rewrite Htruthy, Htoggle.
  - unfold Background.handleActionClicked.
    cbn [truthyId truthyNumber tabsQuery contentTab tab_id].
    fold (truthyNumber (Some tabId)). fold (truthyId (Some tabId)).
    by rewrite Htruthy, Htoggle.
  - unfold Background.handleActionClicked. cbn [tab_id].
    rewrite !Htruthy'.
    unfold Background.toggleOrOpenPanel, Background.sendMessageSafe.
    rewrite !message_to_another_tab by congruence. done.
  - done.
  - destruct w as [? ? ? ? ? ? ? b ? ? ?]. unfold togglePanel. cbn.
    by destruct b.
Qed.

End AgainstTheContentScript.

End PanelProperties.

(** ** The worker on any browser *)

(** X23: the worker tries a toggle, then an open, then a refresh followed
    by a wait of 200 ms and an open, and stops at the first message that is
    answered: on any browser, the calls made by [toggleOrOpenPanel] and its
    result are one of five runs. It never sends a second message after an
    answered toggle or open, and never more than four messages. *)
Theorem toggleOrOpenPanel_protocol {W : Type} (B : Browser W) (w : W)
        (tabId : option Z) :
  let r := Background.toggleOrOpenPanel (H := recording B) (w, []) tabId in
  let calls := snd (fst r) in
  let T := CallSend tabId CRTP_TOGGLE_PANEL in
  let O := CallSend tabId CRTP_OPEN_PANEL in
  let R := CallSend tabId CRTP_REFRESH in
  (calls = [T true] /\ snd r = true)
  \/ (calls = [T false; O true] /\ snd r = true)
  \/ (calls = [T false; O false; R false] /\ snd r = false)
  \/ (calls = [T false; O false; R true; CallSleep 200; O true] /\ snd r = true)
  \/ (calls = [T false; O false; R true; CallSleep 200; O false]
      /\ snd r = false).
Proof.
  cbv zeta. unfold Background.toggleOrOpenPanel, Background.sendMessageSafe.
  cbn [tabsSendMessage sleepFor recording fst snd app].
  repeat match goal with
         | |- context [@tabsSendMessage W B ?v ?t ?m] =>
             is_var v + (match v with sleepFor ?u _ => is_var u end);
             destruct (@tabsSendMessage W B v t m) as [? [| |?]];
             cbn [fst snd isAnswered Background.answered app]
         end;
    first [ left; by split
          | right; left; by split
          | right; right; left; by split
          | right; right; right; left; by split
          | right; right; right; right; by split ].
Qed.

(** ** Debounce *)

Lemma clearTimeout_oneTimer {A : Type} (before : option (DebounceStep A))
      (d : Debounced A) :
  oneTimer before d -> clearTimeout (db_t d) (db_timers d) = [].
Proof.
  intros [->|(id & args & -> & -> & _)]; [by destruct (db_t d)|].
  cbn. by rewrite Nat.eqb_refl.
Qed.

Lemma callDebounced_oneTimer {A : Type} (before : option (DebounceStep A))
      (args : A) (d : Debounced A) :
  oneTimer before d -> oneTimer (Some (Called args)) (callDebounced args d).
Proof.
  intros Hd. right. exists (db_nextId d), args. unfold callDebounced. cbn.
  rewrite (clearTimeout_oneTimer before d Hd). split_and!; [done|done|lia|done].
Qed.

Lemma fireTimer_oneTimer {A : Type} (before : option (DebounceStep A))
      (id : nat) (d : Debounced A) :
  oneTimer before d ->
  match fireTimer id d with
  | (d', Some args) => before = Some (Called args) /\ db_timers d' = []
  | (d', None) => d' = d
  end.
Proof.
  intros [Hd|(id' & args & Hd & Ht & Hlt & Hb)]; unfold fireTimer; rewrite Hd.
  - done.
  - cbn. destruct (id' =? id)%nat; cbn; done.
Qed.

Lemma debounceTrace_runs {A : Type} (es : list (DebounceEvent A))
      (before : option (DebounceStep A)) (d : Debounced A) :
  oneTimer before d ->
  runsFollowCalls before (snd (debounceTrace es d))
  /\ (length (db_timers (fst (debounceTrace es d))) <= 1)%nat.
Proof.
  revert before d. induction es as [|[args|id] es IH]; intros before d Hd.
  - cbn. split; [done|]. destruct Hd as [->|(? & ? & -> & _)]; cbn; lia.
  - cbn. destruct (debounceTrace es (callDebounced args d)) as [d' steps] eqn:E.
    cbn. specialize (IH _ _ (callDebounced_oneTimer before args d Hd)).
    by rewrite E in IH.
  - cbn. pose proof (fireTimer_oneTimer before id d Hd) as Hf.
    destruct (fireTimer id d) as [d1 [args|]].
    + destruct Hf as [-> Hempty].
      destruct (debounceTrace es d1) as [d' steps] eqn:E. cbn.
      specialize (IH (Some (Ran args)) d1 (or_introl Hempty)).
      rewrite E in IH. cbn in IH. tauto.
    + subst d1. by apply IH.
Qed.

Lemma runsFollowCalls_lookup {A : Type} (before : option (DebounceStep A))
      (steps : list (DebounceStep A)) (i : nat) (args : A) :
  runsFollowCalls before steps -> steps !! i = Some (Ran args) ->
  (i = 0%nat /\ before = Some (Called args))
  \/ (exists j, i = S j /\ steps !! j = Some (Called args)).
Proof.
  revert before i. induction steps as [|s steps IH]; intros before i Hruns Hi;
    [done|].
  destruct s as [a|a]; cbn in Hruns.
  - destruct i as [|i]; [done|]. cbn in Hi. right.
    destruct (IH _ i Hruns Hi) as [[-> [= ->]]|(j & -> & Hj)].
    + by exists 0%nat.
    + by exists (S j).
  - destruct Hruns as [-> Hruns]. destruct i as [|i].
    + left. by injection Hi as ->.
    + cbn in Hi. right.
      destruct (IH _ i Hruns Hi) as [[_ [=]]|(j & -> & Hj)].
      by exists (S j).
Qed.

(** X24: a debounced function never runs for a call that has been
    overtaken. Whatever the order of the calls and of the timers that the
    page lets fire, every run of [fn] comes right after a call, with the
    arguments of that call and before any other call or run (so a burst of
    calls gives at most one run, for its last call), and the closure never
    holds more than one pending timer. *)
Theorem debounce_runs_last_call {A : Type} (firstId : nat)
        (es : list (DebounceEvent A)) :
  let r := debounceTrace es (debounce firstId) in
  (forall i args, snd r !! i = Some (Ran args) ->
     exists j, i = S j /\ snd r !! j = Some (Called args))
  /\ (length (db_timers (fst r)) <= 1)%nat.
Proof.
  cbv zeta.
  destruct (debounceTrace_runs es None (debounce firstId)) as [Hruns Hlen];
    [by left|].
  split; [|done]. intros i args Hi.
  by destruct (runsFollowCalls_lookup _ _ i args Hruns Hi) as [[_ [=]]|Hj].
Qed.

Example debounce_burst :
  snd (debounceTrace [Call 1; Call 2; Fire 0%nat; Call 3; Fire 2%nat; Fire 2%nat;
                      Fire 1%nat]
                     (debounce 0))
  = [Called 1; Called 2; Called 3; Ran 3].
Proof. reflexivity. Qed.

(** ** Sample runs of the panel *)

Example sample_panel_counts :
  p_found samplePanel = 2%nat /\ p_selected samplePanel = 2%nat
  /\ length (p_rows samplePanel) = 2%nat
  /\ p_status samplePanel = js "Found 2 suggestion(s)".
Proof. repeat split; vm_compute; reflexivity. Qed.

Lemma plain_reliable : reliable (gmap jsstring jsstring).
Proof.
  intros st key value. eexists. split_and!; [done| |].
  - cbn. by rewrite lookup_insert_eq.
  - intros key' Hne. cbn. by rewrite lookup_insert_ne.
Qed.

Lemma sample_frames_distinct : NoDup (frameIdOf <$> page_frames samplePage).
Proof.
  apply (bool_decide_unpack (NoDup (frameIdOf <$> page_frames samplePage))).
  vm_compute. exact I.
Qed.

Lemma boxes_tell_the_selection_witness :
  boxesAgree
    (run (H0 := asciiPlatform)
         [RefreshFired samplePage; CheckboxChanged 0; SelectAllClicked]
         (mount sampleLocation (∅ : gmap jsstring jsstring))).
Proof.
  apply (@boxes_tell_the_selection _ _ asciiPlatform).
  constructor; [exact sample_frames_distinct|].
  constructor; [exact I|]. constructor; [exact I|]. constructor.
Defined.

Example twin_rows_disagree :
  let p := run (H0 := asciiPlatform)
               [RefreshFired (twinPage (js "costarring") (js "liquid"));
                CheckboxChanged 0]
               (mount sampleLocation (∅ : gmap jsstring jsstring)) in
  exists row0 row1,
    p_rows p = [row0; row1]
    /\ sg_id (row_item row0) = sg_id (row_item row1)
    /\ row_checked row0 = false /\ row_checked row1 = true
    /\ isDeselected p (row_item row1) = true
    /\ p_selected p = 0%nat.
Proof. cbv zeta. eexists _, _. split_and!; vm_compute; reflexivity. Qed.

Lemma skipped_stays_hidden_witness :
  exists row,
    p_rows samplePanel !! 0%nat = Some row
    /\ Forall (fun s => sg_id s <> sg_id (row_item row))
         (visibleItems
            (run (H0 := asciiPlatform)
                 [Navigated (js "/octo/repo/pull/8")
                            (js "https://github.com/octo/repo/pull/8");
                  RefreshFired samplePage; SelectAllClicked]
                 (step (H0 := asciiPlatform) (SkipClicked 0) samplePanel))).
Proof.
  eexists. split; [vm_compute; reflexivity|].
  refine (proj1 (proj2 (@skipped_stays_hidden _ _ asciiPlatform samplePanel 0 _
                          [Navigated (js "/octo/repo/pull/8")
                                     (js "https://github.com/octo/repo/pull/8");
                           RefreshFired samplePage; SelectAllClicked] _))).
  vm_compute. reflexivity.
Defined.


Example reload_after_two_clicks :
  let p := run (H0 := asciiPlatform)
               [RefreshFired samplePage; CheckboxChanged 0; SkipClicked 1]
               (mount sampleLocation (∅ : gmap jsstring jsstring)) in
  length (p_deselected p) = 1%nat /\ length (p_ignored p) = 1%nat
  /\ p_found p = 1%nat /\ p_selected p = 0%nat.
Proof. cbv zeta. split_and!; vm_compute; reflexivity. Qed.

(** Once the page has moved to another pull request, the sets of the
    panel are not those of its keys: a reload there finds nothing of a
    suggestion skipped before the move; and what is saved after the move
    goes, whole, under the keys of the new address. *)
Example move_to_another_pull_request :
  let move := Navigated (js "/octo/repo/pull/8")
                        (js "https://github.com/octo/repo/pull/8") in
  let p := run (H0 := asciiPlatform)
               [RefreshFired samplePage; SkipClicked 0; move]
               (mount sampleLocation (∅ : gmap jsstring jsstring)) in
  let q := run (H0 := asciiPlatform) [RefreshFired samplePage; SkipClicked 0] p in
  length (p_ignored p) = 1%nat
  /\ p_ignored (mount (p_location p) (p_store p)) = []
  /\ p_ignored (mount sampleLocation (p_store p)) = p_ignored p
  /\ length (p_ignored q) = 2%nat
  /\ p_ignored (mount (p_location q) (p_store q)) = p_ignored q
  /\ p_ignored (mount sampleLocation (p_store q)) = p_ignored p.
Proof. cbv zeta. split_and!; vm_compute; reflexivity. Qed.

Lemma popup_copies_the_selection_witness :
  selectedItems samplePanel <> []
  /\ p_clipboard
       (fst (Popup.copySelectedPrompt
               (H := contentTab 7)
               (fst (Popup.queryInfo (H := contentTab 7)
                       samplePanel (Some 7%Z) Popup.initial))
               {| tab_id := Some 7%Z; tab_url := None |}
               (snd (Popup.queryInfo (H := contentTab 7)
                       samplePanel (Some 7%Z) Popup.initial))))
     = p_clipboard (onCopy ClipWritten samplePanel).
Proof.
  assert (selectedItems samplePanel <> []) as Hsel by (vm_compute; discriminate).
  split; [exact Hsel|].
  exact (proj1 (proj2 (popup_copies_the_selection 7 None samplePanel
                         Popup.initial Hsel))).
Defined.

Lemma popup_copies_all_when_none_selected_witness :
  let w := onSelectAll samplePanel in
  selectedItems w = [] /\ length (visibleItems w) = 2%nat
  /\ onCopy ClipWritten w
     = setStatus (js "No suggestions selected to copy") w.
Proof.
  cbv zeta.
  assert (selectedItems (onSelectAll samplePanel) = [])
    as Hsel by (vm_compute; reflexivity).
  split_and!; [exact Hsel|vm_compute; reflexivity|].
  exact (proj2 (proj2 (popup_copies_all_when_none_selected 7 None
                         (onSelectAll samplePanel) Popup.initial Hsel))).
Defined.

Lemma action_click_toggles_panel_witness :
  Background.handleActionClicked (H := contentTab 7) samplePanel
    (Some {| tab_id := Some 7%Z; tab_url := None |})
  = (togglePanel samplePanel, Some true).
Proof.
  refine (proj1 (action_click_toggles_panel 7 None samplePanel 8 _ _ _));
    discriminate.
Defined.
